(** * Interactive PDF mapper: the orchestration core, embedded in Rocq

    A shallow embedding of the Python package [interactive-pdf-mapper]
    (tolerance checker, retry engine, validation coordinator, workflow
    state manager, checkpoint manager, cache index and store, discovery
    workflow) together with the properties its specification states.

    Conventions of the embedding.
    - A Python [float] is a rational ([Q]); [float('inf')] is the extra
      value [PosInf] of [xfloat].  A Python [int] is a [Z].
    - An object that the code mutates in place (a [DetectedField]) lives
      in a heap and is named by its address; lists of fields are lists of
      addresses, so two lists may share an object as they do in Python.
    - A function that may raise returns a [result]; the state reached
      when the exception is raised is kept, as Python keeps it.
    - The recognition service, the clock, the identifier generator and the
      PDF library are outside the program: they are read from a
      [Runtime] record that every theorem quantifies over. *)

From Stdlib Require Import QArith Qabs Qminmax ZArith Lia Lqa Sorting.Sorted Permutation.
From stdpp Require Import gmap strings list fin_maps pretty.

Set Warnings "-register-all".

Open Scope Z_scope.

(** ** Python values used by the core *)

(** [float] extended with positive infinity ([float('inf')]). *)
Inductive xfloat :=
| Fin (q : Q)
| PosInf.

(** Exceptions.  The constructors are the exception classes the core
    raises or meets; [OutOfFuel] and [Dangling] belong to the embedding
    only (a loop bound that ran out, an address with no object) and are
    proved unreachable where that matters. *)
Inductive exn :=
| AttributeError (owner attr : string)
| KeyError (key : string)
| TypeError (what : string)
| ValueError (what : string)
| ZeroDivisionError
| OSError (path : string)
| JSONDecodeError
| VisionAPIError (status_code : Z)
| PDFLoadError (path reason : string)
| CheckpointError (operation workflow_id : string) (cause : exn)
| CacheError (operation cache_id : string)
| WorkflowStateError (current_step expected_state actual_state : string)
| OutOfFuel
| Dangling.

Inductive result (A : Type) :=
| Ok (a : A)
| Raise (e : exn).
Arguments Ok {A} a.
Arguments Raise {A} e.

Definition is_ok {A} (r : result A) : bool :=
  match r with Ok _ => true | Raise _ => false end.

Definition value_or {A} (d : A) (r : result A) : A :=
  match r with Ok a => a | Raise _ => d end.

(** ** core/types.py *)

Inductive FieldType := TEXT_INPUT | SIGNATURE | DATE | CHECKBOX.

Inductive ValidationStatus := PENDING | PASSED | SKIPPED.

Inductive DetectionSensitivity := NORMAL | HIGH | VERY_HIGH | MAXIMUM.

Definition FieldType_value (t : FieldType) : string :=
  match t with
  | TEXT_INPUT => "text-input"
  | SIGNATURE => "signature"
  | DATE => "date"
  | CHECKBOX => "checkbox"
  end.

Definition ValidationStatus_value (s : ValidationStatus) : string :=
  match s with
  | PENDING => "pending"
  | PASSED => "passed"
  | SKIPPED => "skipped"
  end.

(** [FieldType(value)]: the member with that value, [ValueError] if none. *)
Definition FieldType_of_value (v : string) : result FieldType :=
  if String.eqb v "text-input" then Ok TEXT_INPUT
  else if String.eqb v "signature" then Ok SIGNATURE
  else if String.eqb v "date" then Ok DATE
  else if String.eqb v "checkbox" then Ok CHECKBOX
  else Raise (ValueError v).

Definition ValidationStatus_of_value (v : string) : result ValidationStatus :=
  if String.eqb v "pending" then Ok PENDING
  else if String.eqb v "passed" then Ok PASSED
  else if String.eqb v "skipped" then Ok SKIPPED
  else Raise (ValueError v).

(** [ValidationStatus.NAME]: attribute access on the enumeration class.
    The class has the three members below and no other. *)
Definition ValidationStatus_member (name : string) : result ValidationStatus :=
  if String.eqb name "PENDING" then Ok PENDING
  else if String.eqb name "PASSED" then Ok PASSED
  else if String.eqb name "SKIPPED" then Ok SKIPPED
  else Raise (AttributeError "ValidationStatus" name).

Definition ValidationStatus_eqb (a b : ValidationStatus) : bool :=
  match a, b with
  | PENDING, PENDING | PASSED, PASSED | SKIPPED, SKIPPED => true
  | _, _ => false
  end.

Record Coordinates := mkCoordinates {
  coord_x : Q;
  coord_y : Q;
  coord_width : Q;
  coord_height : Q;
}.

Record CSSCoordinates := mkCSSCoordinates {
  css_top : string;
  css_left : string;
  css_width : string;
  css_height : string;
}.

Record FieldHierarchy := mkFieldHierarchy {
  section : string;
  subsection : option string;
  entry : option string;
  field_label : option string;
}.

Record UIHints := mkUIHints {
  label_position : string;
  group_with : list string;
}.

(** The dictionary [_validate_field_with_retry] stores as
    [validation_evidence]. *)
Record Evidence := mkEvidence {
  ev_attempt : Z;
  ev_measured : Coordinates;
  ev_difference : xfloat;
}.

Record DetectedField := mkDetectedField {
  field_id : string;
  field_type : FieldType;
  coordinates : Coordinates;
  hierarchy : FieldHierarchy;
  page_number : Z;
  confidence_score : Q;
  validation_status : ValidationStatus;
  section_id : string;
  render_order : Z;
  css_coordinates : option CSSCoordinates;
  ui_hints : option UIHints;
  retry_count : Z;
  validation_evidence : option Evidence;
}.

Record PageInfo := mkPageInfo {
  pi_page_number : Z;
  pi_width : Q;
  pi_height : Q;
}.

Record RetryParameters := mkRetryParameters {
  confidence_threshold : Q;
  detection_sensitivity : option DetectionSensitivity;
  zoom_level : Q;
  contrast_enhancement : bool;
  edge_detection : bool;
}.

(** In-place updates of a field object. *)
Definition set_validation_status (s : ValidationStatus) (f : DetectedField) : DetectedField :=
  mkDetectedField (field_id f) (field_type f) (coordinates f) (hierarchy f)
    (page_number f) (confidence_score f) s (section_id f) (render_order f)
    (css_coordinates f) (ui_hints f) (retry_count f) (validation_evidence f).

Definition set_attempt (n : Z) (ev : Evidence) (f : DetectedField) : DetectedField :=
  mkDetectedField (field_id f) (field_type f) (coordinates f) (hierarchy f)
    (page_number f) (confidence_score f) (validation_status f) (section_id f)
    (render_order f) (css_coordinates f) (ui_hints f) n (Some ev).

(** ** validation/tolerance.py *)

Definition Qlt_bool (a b : Q) : bool := negb (Qle_bool b a).

(** The builtin [max(a, b, c, d)]: the running maximum starts at the first
    argument and is replaced by a later one only when that one is strictly
    greater. *)
Definition py_max (first : Q) (others : list Q) : Q :=
  fold_left (fun m v => if Qlt_bool m v then v else m) others first.

(** [ToleranceChecker.check]; the checker object is its tolerance. *)
Definition check (tolerance : Q) (expected measured : Coordinates) : bool * Q :=
  let diff_x := Qabs (coord_x expected - coord_x measured) in
  let diff_y := Qabs (coord_y expected - coord_y measured) in
  let diff_width := Qabs (coord_width expected - coord_width measured) in
  let diff_height := Qabs (coord_height expected - coord_height measured) in
  let max_diff := py_max diff_x [diff_y; diff_width; diff_height] in
  let passed := Qle_bool max_diff tolerance in
  (passed, max_diff).




(** ** core/config.py *)

Record GLMConfig := mkGLMConfig {
  api_endpoint : string;
  model : string;
  timeout_seconds : Z;
  glm_zoom_level : Q;
  enhance_contrast : bool;
  max_concurrent_requests : Z;
}.

Record ValidationConfig := mkValidationConfig {
  tolerance : Q;
  max_retries : Z;
  validation_confidence_threshold : Q;
}.

Record CacheConfig := mkCacheConfig {
  directory : string;
  enabled : bool;
}.

Record OutputConfig := mkOutputConfig {
  output_folder : string;
  checkpoint_folder : string;
}.

Record DiscoveryConfig := mkDiscoveryConfig {
  glm : GLMConfig;
  validation : ValidationConfig;
  cache : CacheConfig;
  output : OutputConfig;
  max_concurrent_tasks : Z;
  retry_parameters : gmap Z RetryParameters;
}.

(** [DiscoveryConfig._default_retry_parameters]. *)
Definition _default_retry_parameters : gmap Z RetryParameters :=
  list_to_map
    [ (1, mkRetryParameters (95 # 100) (Some NORMAL) 1 false false);
      (2, mkRetryParameters (90 # 100) (Some HIGH) 1 false false);
      (3, mkRetryParameters (85 # 100) (Some HIGH) (3 # 2) false false);
      (4, mkRetryParameters (80 # 100) (Some VERY_HIGH) 2 false false);
      (5, mkRetryParameters (75 # 100) (Some VERY_HIGH) 2 true false);
      (6, mkRetryParameters (70 # 100) (Some MAXIMUM) (5 # 2) true false);
      (7, mkRetryParameters (65 # 100) (Some MAXIMUM) 3 true true) ].

(** The dataclass constructor followed by [__post_init__]: an empty table
    is replaced by the default one. *)
Definition new_DiscoveryConfig (g : GLMConfig) (v : ValidationConfig)
    (c : CacheConfig) (o : OutputConfig) (tasks : Z)
    (params : gmap Z RetryParameters) : DiscoveryConfig :=
  mkDiscoveryConfig g v c o tasks
    (if decide (params = ∅) then _default_retry_parameters else params).

Definition default_GLMConfig : GLMConfig :=
  mkGLMConfig "https://api.z.ai/api/anthropic" "glm-4.6v" 120 (3 # 2) true 1.

Definition default_ValidationConfig : ValidationConfig :=
  mkValidationConfig (1 # 2) 7 (85 # 100).

Definition default_CacheConfig : CacheConfig :=
  mkCacheConfig "data/golden-maps" true.

Definition default_OutputConfig : OutputConfig :=
  mkOutputConfig "./output" "./checkpoints".

Definition default_DiscoveryConfig : DiscoveryConfig :=
  new_DiscoveryConfig default_GLMConfig default_ValidationConfig
    default_CacheConfig default_OutputConfig 3 ∅.

(** ** workflow/state.py: the data classes *)

Inductive WorkflowPhase :=
| INIT | LOADING | DETECTION | VALIDATION | ORGANIZATION | OUTPUT | COMPLETE | ERROR.

Definition WorkflowPhase_value (p : WorkflowPhase) : string :=
  match p with
  | INIT => "init"
  | LOADING => "loading"
  | DETECTION => "detection"
  | VALIDATION => "validation"
  | ORGANIZATION => "organization"
  | OUTPUT => "output"
  | COMPLETE => "complete"
  | ERROR => "error"
  end.

Definition WorkflowPhase_of_value (v : string) : result WorkflowPhase :=
  if String.eqb v "init" then Ok INIT
  else if String.eqb v "loading" then Ok LOADING
  else if String.eqb v "detection" then Ok DETECTION
  else if String.eqb v "validation" then Ok VALIDATION
  else if String.eqb v "organization" then Ok ORGANIZATION
  else if String.eqb v "output" then Ok OUTPUT
  else if String.eqb v "complete" then Ok COMPLETE
  else if String.eqb v "error" then Ok ERROR
  else Raise (ValueError v).

(** A [datetime] is a point in time, counted in microseconds. *)
Definition datetime := Z.

Record PhaseProgress := mkPhaseProgress {
  phase : WorkflowPhase;
  started_at : option datetime;
  completed_at : option datetime;
  progress_percent : Q;
  items_total : Z;
  items_completed : Z;
  error_message : option string;
}.

(** Address of a [DetectedField] object in the heap. *)
Definition loc := nat.

Record WorkflowState := mkWorkflowState {
  workflow_id : string;
  document_path : string;
  document_hash : string;
  current_phase : WorkflowPhase;
  phase_history : list PhaseProgress;
  pages : list PageInfo;
  detected_fields : list loc;
  validated_fields : list loc;
  retry_pool : list loc;
  output_paths : gmap string string;
  ws_started_at : datetime;
  updated_at : datetime;
  error : option string;
}.

Record StateManager := mkStateManager {
  _state : WorkflowState;
  _current_progress : option PhaseProgress;
}.

(** ** cache/index.py: the entry *)

Record CacheEntry := mkCacheEntry {
  cache_id : string;
  ce_document_hash : string;
  document_name : string;
  cached_date : string;
  golden_map_path : string;
  field_count : Z;
  accuracy_score : Q;
}.

(** ** JSON documents and durable storage *)

(** What [json.load] returns and [json.dump] accepts.  A dictionary keeps
    its keys in insertion order. *)
Inductive json :=
| JNull
| JBool (b : bool)
| JInt (z : Z)
| JFloat (q : Q)
| JStr (s : string)
| JList (items : list json)
| JDict (members : list (string * json)).

(** A file as the core can observe it: [open] fails on it, or
    [json.load] fails on its text, or it holds a JSON document.
    [json.dump] followed by [json.load] gives the document back, so the
    text itself is not represented. *)
Inductive file :=
| Unreadable
| Malformed
| Document (doc : json).

(** A PDF as the loader, the metadata extractor and the renderer present
    it: the digest of its bytes and, per page, the rendered image and the
    page dimensions. *)
Definition image := string.

Record PDFDocument := mkPDFDocument {
  md5_hash : string;
  rendered_pages : list (image * PageInfo);
}.

(** One HTTP exchange with the recognition service, with the reply body
    already read by [_parse_validation_response] (a body that cannot be
    read is the triple [(False, Coordinates(0, 0, 0, 0), 0.0)] that
    function returns for it). *)
Record Measurement := mkMeasurement {
  m_exists : bool;
  m_measured : Coordinates;
  m_confidence : Q;
}.

Inductive api_outcome :=
| TimeoutException
| RequestError
| Response (status_code : Z) (reply : Measurement).

(** ** validation/coordinator.py: the data classes *)

Record ValidationProgress := mkValidationProgress {
  vp_total_fields : Z;
  vp_validated : Z;
  vp_passed : Z;
  vp_failed : Z;
  vp_skipped : Z;
  vp_current_accuracy : Q;
}.

Record ValidationSummary := mkValidationSummary {
  total_fields : Z;
  passed : Z;
  skipped : Z;
  accuracy : Q;
  retry_pool_count : Z;
  max_retries_used : Z;
}.

Record FieldValidationResult := mkFieldValidationResult {
  fvr_field : loc;
  fvr_passed : bool;
}.

(** ** The state of one orchestrator and of what it can reach *)

Record World := mkWorld {
  heap : gmap loc DetectedField;
  fs : gmap string file;
  api_calls : nat;
  clock : nat;
  uuid_calls : nat;
  state_manager : option StateManager;
  cache_entries : gmap string CacheEntry;
  progress_log : list (WorkflowPhase * Q * string);
  validation_log : list ValidationProgress;
}.

Definition with_heap (h : gmap loc DetectedField) (w : World) : World :=
  mkWorld h (fs w) (api_calls w) (clock w) (uuid_calls w) (state_manager w)
    (cache_entries w) (progress_log w) (validation_log w).

Definition with_fs (d : gmap string file) (w : World) : World :=
  mkWorld (heap w) d (api_calls w) (clock w) (uuid_calls w) (state_manager w)
    (cache_entries w) (progress_log w) (validation_log w).

Definition with_api_calls (n : nat) (w : World) : World :=
  mkWorld (heap w) (fs w) n (clock w) (uuid_calls w) (state_manager w)
    (cache_entries w) (progress_log w) (validation_log w).

Definition with_clock (n : nat) (w : World) : World :=
  mkWorld (heap w) (fs w) (api_calls w) n (uuid_calls w) (state_manager w)
    (cache_entries w) (progress_log w) (validation_log w).

Definition with_uuid_calls (n : nat) (w : World) : World :=
  mkWorld (heap w) (fs w) (api_calls w) (clock w) n (state_manager w)
    (cache_entries w) (progress_log w) (validation_log w).

Definition with_state_manager (sm : option StateManager) (w : World) : World :=
  mkWorld (heap w) (fs w) (api_calls w) (clock w) (uuid_calls w) sm
    (cache_entries w) (progress_log w) (validation_log w).

Definition with_cache_entries (m : gmap string CacheEntry) (w : World) : World :=
  mkWorld (heap w) (fs w) (api_calls w) (clock w) (uuid_calls w) (state_manager w)
    m (progress_log w) (validation_log w).

Definition with_progress_log (l : list (WorkflowPhase * Q * string)) (w : World) : World :=
  mkWorld (heap w) (fs w) (api_calls w) (clock w) (uuid_calls w) (state_manager w)
    (cache_entries w) l (validation_log w).

Definition with_validation_log (l : list ValidationProgress) (w : World) : World :=
  mkWorld (heap w) (fs w) (api_calls w) (clock w) (uuid_calls w) (state_manager w)
    (cache_entries w) (progress_log w) l.

(** ** Computations that read and change the world and may raise *)

Definition M (A : Type) : Type := World -> result A * World.

Definition ret {A} (a : A) : M A := fun w => (Ok a, w).

Definition raise {A} (e : exn) : M A := fun w => (Raise e, w).

Definition bind {A B} (m : M A) (k : A -> M B) : M B :=
  fun w =>
    match m w with
    | (Ok a, w') => k a w'
    | (Raise e, w') => (Raise e, w')
    end.

Definition lift {A} (r : result A) : M A := fun w => (r, w).

Definition gets {A} (f : World -> A) : M A := fun w => (Ok (f w), w).

Definition modify (f : World -> World) : M unit := fun w => (Ok tt, f w).

(** [except Exception] catches every exception of the program; the two
    markers of the embedding are not exceptions of the program. *)
Definition is_Exception (e : exn) : bool :=
  match e with
  | OutOfFuel | Dangling => false
  | _ => true
  end.

Definition try_except {A} (body : M A) (handler : exn -> M A) : M A :=
  fun w =>
    match body w with
    | (Ok a, w') => (Ok a, w')
    | (Raise e, w') => if is_Exception e then handler e w' else (Raise e, w')
    end.

Declare Scope py_scope.
Delimit Scope py_scope with py.
Notation "'let*' x ':=' m 'in' k" := (bind m (fun x => k))
  (at level 10, x pattern, m at level 100, k at level 200) : py_scope.
Notation "m ';;' k" := (bind m (fun _ => k))
  (at level 100, k at level 200, right associativity) : py_scope.
Open Scope py_scope.

(** [for x in xs: body x], stopping at the first exception. *)
Fixpoint for_each {A} (xs : list A) (body : A -> M unit) : M unit :=
  match xs with
  | [] => ret tt
  | x :: rest => body x ;; for_each rest body
  end.

(** A list comprehension [[f x for x in xs]] whose element expression may
    raise. *)
Fixpoint map_M {A B} (f : A -> M B) (xs : list A) : M (list B) :=
  match xs with
  | [] => ret []
  | x :: rest => let* y := f x in let* ys := map_M f rest in ret (y :: ys)
  end.

(** A list comprehension [[x for x in xs if cond x]]. *)
Fixpoint filter_M {A} (cond : A -> M bool) (xs : list A) : M (list A) :=
  match xs with
  | [] => ret []
  | x :: rest =>
      let* keep := cond x in
      let* ys := filter_M cond rest in
      ret (if keep then x :: ys else ys)
  end.

(** Reading and writing a field object through its address. *)
Definition read_field (l : loc) : M DetectedField :=
  fun w =>
    match heap w !! l with
    | Some f => (Ok f, w)
    | None => (Raise Dangling, w)
    end.

Definition write_field (l : loc) (f : DetectedField) : M unit :=
  modify (fun w => with_heap (<[l := f]> (heap w)) w).

(** ** What lies outside the program *)

Record Runtime := mkRuntime {
  (** the outcome of the n-th call to the recognition service *)
  service : nat -> api_outcome;
  (** the value of the n-th [datetime.now()] *)
  now_at : nat -> datetime;
  (** [datetime.isoformat] and [datetime.fromisoformat] *)
  isoformat : datetime -> string;
  fromisoformat : string -> option datetime;
  (** the first twelve hexadecimal digits of the n-th [uuid.uuid4()] *)
  uuid4_hex12 : nat -> string;
  (** the PDF files, by path *)
  pdf_documents : gmap string PDFDocument;
  (** [Path(p).stem] and [Path(p).name] *)
  path_stem : string -> string;
  path_name : string -> string;
  (** [FieldDetector.detect_all_pages] *)
  detect_all_pages : list image -> list PageInfo -> M (list loc);
  (** [HierarchyBuilder.build_hierarchy], [CSSConverter.convert] over the
      validated fields, [RenderOrderCalculator.calculate_order] *)
  build_hierarchy : list loc -> M unit;
  convert_css : list PageInfo -> list loc -> M unit;
  calculate_order : list loc -> M unit;
  (** the three report writers; each returns the path it wrote *)
  generate_golden_map : string -> WorkflowState -> M string;
  generate_qa_report : string -> WorkflowState -> M string;
  generate_metrics : string -> WorkflowState -> M string;
}.

(** ** vision/glm_provider.py *)

(** [GLMVisionProvider._call_api], with the reply read by
    [_parse_validation_response]: a time-out, a transport error and a
    status other than 200 raise [VisionAPIError]. *)
Definition _call_api (rt : Runtime) : M Measurement :=
  fun w =>
    let w' := with_api_calls (S (api_calls w)) w in
    match service rt (api_calls w) with
    | TimeoutException => (Raise (VisionAPIError 408), w')
    | RequestError => (Raise (VisionAPIError 0), w')
    | Response code reply =>
        if negb (code =? 200) then (Raise (VisionAPIError code), w')
        else (Ok reply, w')
    end.

(** [GLMVisionProvider.validate_coordinates]. *)
Definition validate_coordinates (rt : Runtime) (image_data : image)
    (field : loc) (parameters : RetryParameters) : M (bool * Coordinates * xfloat) :=
  let* reply := _call_api rt in
  let measured := m_measured reply in
  if negb (m_exists reply) then ret (false, measured, PosInf)
  else
    let* f := read_field field in
    let diff_x := Qabs (coord_x (coordinates f) - coord_x measured) in
    let diff_y := Qabs (coord_y (coordinates f) - coord_y measured) in
    let diff_w := Qabs (coord_width (coordinates f) - coord_width measured) in
    let diff_h := Qabs (coord_height (coordinates f) - coord_height measured) in
    let max_difference := py_max diff_x [diff_y; diff_w; diff_h] in
    ret (Qle_bool max_difference (1 # 2), measured, Fin max_difference).

(** ** validation/retry_engine.py *)

Record RetryEngine := mkRetryEngine {
  _max_attempts : Z;
  _parameters : gmap Z RetryParameters;
  _retry_pool : list loc;
}.

Definition new_RetryEngine (max_attempts : Z) (parameters : gmap Z RetryParameters)
    : RetryEngine :=
  mkRetryEngine max_attempts parameters [].

Definition get_parameters_for_attempt (self : RetryEngine) (attempt : Z)
    : RetryParameters :=
  match _parameters self !! attempt with
  | Some p => p
  | None =>
      default (mkRetryParameters (65 # 100) None 1 false false)
              (_parameters self !! _max_attempts self)
  end.

(** The test of [should_retry] on the attributes of a field. *)
Definition wants_retry (max_attempts : Z) (f : DetectedField) : bool :=
  negb (ValidationStatus_eqb (validation_status f) PASSED)
  && (retry_count f <? max_attempts).

Definition should_retry (self : RetryEngine) (field : loc) : M bool :=
  let* f := read_field field in
  ret (wants_retry (_max_attempts self) f).

Definition add_to_retry_pool (self : RetryEngine) (field : loc) : M RetryEngine :=
  let* f := read_field field in
  write_field field (set_validation_status SKIPPED f) ;;
  ret (mkRetryEngine (_max_attempts self) (_parameters self)
         (_retry_pool self ++ [field])).

Definition get_retry_pool_count (self : RetryEngine) : Z :=
  Z.of_nat (length (_retry_pool self)).

(** ** validation/coordinator.py *)

(** The coordinator; its provider is the GLM provider above, which is
    determined by the runtime. *)
Record ValidationCoordinator := mkValidationCoordinator {
  _config : DiscoveryConfig;
  _tolerance_checker : Q;
  _retry_engine : RetryEngine;
}.

Definition new_ValidationCoordinator (config : DiscoveryConfig) : ValidationCoordinator :=
  mkValidationCoordinator config
    (tolerance (validation config))
    (new_RetryEngine (max_retries (validation config)) (retry_parameters config)).

(** The statements of [_validate_field_with_retry] after its [while]
    loop: a field that is not passed becomes skipped. *)
Definition loop_exit (field : loc) : M FieldValidationResult :=
  let* f := read_field field in
  (if negb (ValidationStatus_eqb (validation_status f) PASSED)
   then write_field field (set_validation_status SKIPPED f)
   else ret tt) ;;
  ret (mkFieldValidationResult field false).

(** The [while] loop of [_validate_field_with_retry], followed by
    [loop_exit].  [fuel] bounds the number of iterations; the loop raises
    [OutOfFuel] rather than stop early. *)
Fixpoint retry_loop (fuel : nat) (rt : Runtime) (self : ValidationCoordinator)
    (field : loc) (image_data : image) : M FieldValidationResult :=
  let* again := should_retry (_retry_engine self) field in
  if again then
    match fuel with
    | O => raise OutOfFuel
    | S fuel' =>
        let* f := read_field field in
        let attempt_num := retry_count f + 1 in
        let parameters := get_parameters_for_attempt (_retry_engine self) attempt_num in
        let* (passed, measured, difference) :=
          validate_coordinates rt image_data field parameters in
        let* f := read_field field in
        write_field field
          (set_attempt attempt_num (mkEvidence attempt_num measured difference) f) ;;
        if passed then
          let* f := read_field field in
          write_field field (set_validation_status PASSED f) ;;
          ret (mkFieldValidationResult field true)
        else retry_loop fuel' rt self field image_data
    end
  else loop_exit field.

(** [ValidationCoordinator._validate_field_with_retry].  Every iteration
    raises the retry count by one and the loop stops once it reaches the
    maximum, so their distance bounds the number of iterations. *)
Definition _validate_field_with_retry (rt : Runtime) (self : ValidationCoordinator)
    (field : loc) (image_data : image) : M FieldValidationResult :=
  let* f := read_field field in
  retry_loop (Z.to_nat (_max_attempts (_retry_engine self) - retry_count f))
    rt self field image_data.

(** The local variables of [validate_all_fields]. *)
Record Tally := mkTally {
  t_engine : RetryEngine;
  t_validated_fields : list loc;
  t_passed_count : Z;
  t_skipped_count : Z;
  t_max_retries_used : Z;
}.

Definition with_engine (self : ValidationCoordinator) (e : RetryEngine)
    : ValidationCoordinator :=
  mkValidationCoordinator (_config self) (_tolerance_checker self) e.

Definition percent (part whole : Z) : Q :=
  (inject_Z part / inject_Z whole * 100)%Q.

(** The progress report at the end of the loop body: with a callback,
    every [batch_size] fields. *)
Definition report_batch (n_fields : Z) (progress_callback : bool)
    (batch_size idx : Z) (t : Tally) : M unit :=
  if progress_callback then
    if batch_size =? 0 then raise ZeroDivisionError
    else if (idx + 1) mod batch_size =? 0 then
      let accuracy := if 0 <? idx then percent (t_passed_count t) (idx + 1) else 0%Q in
      modify (fun w =>
        with_validation_log
          (validation_log w ++
             [mkValidationProgress n_fields (idx + 1) (t_passed_count t)
                (idx + 1 - t_passed_count t - t_skipped_count t)
                (t_skipped_count t) accuracy]) w)
    else ret tt
  else ret tt.

(** The body of the [for idx, field in enumerate(fields)] loop. *)
Definition validate_one (rt : Runtime) (self : ValidationCoordinator)
    (n_fields : Z) (page_images : gmap Z image) (progress_callback : bool)
    (batch_size : Z) (idx : Z) (field : loc) (t : Tally) : M Tally :=
  let* f0 := read_field field in
  let* image_data :=
    match page_images !! page_number f0 with
    | Some i => ret i
    | None => raise (KeyError "page_number")
    end in
  let* res := _validate_field_with_retry rt (with_engine self (t_engine t)) field image_data in
  let validated_fields := t_validated_fields t ++ [fvr_field res] in
  let* f := read_field (fvr_field res) in
  let max_retries_used := Z.max (t_max_retries_used t) (retry_count f) in
  let* t' :=
    if ValidationStatus_eqb (validation_status f) PASSED then
      ret (mkTally (t_engine t) validated_fields (t_passed_count t + 1)
             (t_skipped_count t) max_retries_used)
    else if ValidationStatus_eqb (validation_status f) SKIPPED then
      let* e := add_to_retry_pool (t_engine t) (fvr_field res) in
      ret (mkTally e validated_fields (t_passed_count t)
             (t_skipped_count t + 1) max_retries_used)
    else
      ret (mkTally (t_engine t) validated_fields (t_passed_count t)
             (t_skipped_count t) max_retries_used) in
  report_batch n_fields progress_callback batch_size idx t' ;;
  ret t'.

Fixpoint validate_from (rt : Runtime) (self : ValidationCoordinator)
    (n_fields : Z) (page_images : gmap Z image) (progress_callback : bool)
    (batch_size : Z) (idx : Z) (fields : list loc) (t : Tally) : M Tally :=
  match fields with
  | [] => ret t
  | field :: rest =>
      let* t' := validate_one rt self n_fields page_images progress_callback
                   batch_size idx field t in
      validate_from rt self n_fields page_images progress_callback batch_size
        (idx + 1) rest t'
  end.

(** [ValidationCoordinator.validate_all_fields]; it returns the
    coordinator as the loop left it beside the tuple of the source. *)
Definition validate_all_fields (rt : Runtime) (self : ValidationCoordinator)
    (fields : list loc) (page_images : gmap Z image)
    (progress_callback : bool) (batch_size : Z)
    : M (ValidationCoordinator * (list loc * ValidationSummary)) :=
  let n_fields := Z.of_nat (length fields) in
  let* t := validate_from rt self n_fields page_images progress_callback batch_size
              0 fields (mkTally (_retry_engine self) [] 0 0 0) in
  let accuracy :=
    match fields with
    | [] => 0%Q
    | _ => percent (t_passed_count t) n_fields
    end in
  let summary :=
    mkValidationSummary n_fields (t_passed_count t) (t_skipped_count t) accuracy
      (get_retry_pool_count (t_engine t)) (t_max_retries_used t) in
  ret (with_engine self (t_engine t), (t_validated_fields t, summary)).

(** ** workflow/state.py: the state manager *)

(** [datetime.now()]. *)
Definition now (rt : Runtime) : M datetime :=
  fun w => (Ok (now_at rt (clock w)), with_clock (S (clock w)) w).

(** [self._state_manager.attr]: the manager, or [AttributeError] while
    the attribute is still [None]. *)
Definition the_state_manager (attr : string) : M StateManager :=
  fun w =>
    match state_manager w with
    | Some sm => (Ok sm, w)
    | None => (Raise (AttributeError "NoneType" attr), w)
    end.

Definition put_state_manager (sm : StateManager) : M unit :=
  modify (with_state_manager (Some sm)).

Definition ws_update (s : WorkflowState)
    (hash : string) (ph : WorkflowPhase) (hist : list PhaseProgress)
    (pgs : list PageInfo) (det val pool : list loc) (outs : gmap string string)
    (upd : datetime) (err : option string) : WorkflowState :=
  mkWorkflowState (workflow_id s) (document_path s) hash ph hist pgs det val pool
    outs (ws_started_at s) upd err.

Definition ws_with_updated_at (t : datetime) (s : WorkflowState) : WorkflowState :=
  ws_update s (document_hash s) (current_phase s) (phase_history s) (pages s)
    (detected_fields s) (validated_fields s) (retry_pool s) (output_paths s) t (error s).

Definition ws_with_current_phase (p : WorkflowPhase) (s : WorkflowState) : WorkflowState :=
  ws_update s (document_hash s) p (phase_history s) (pages s)
    (detected_fields s) (validated_fields s) (retry_pool s) (output_paths s)
    (updated_at s) (error s).

Definition ws_with_phase_history (h : list PhaseProgress) (s : WorkflowState) : WorkflowState :=
  ws_update s (document_hash s) (current_phase s) h (pages s)
    (detected_fields s) (validated_fields s) (retry_pool s) (output_paths s)
    (updated_at s) (error s).

Definition ws_with_error (e : option string) (s : WorkflowState) : WorkflowState :=
  ws_update s (document_hash s) (current_phase s) (phase_history s) (pages s)
    (detected_fields s) (validated_fields s) (retry_pool s) (output_paths s)
    (updated_at s) e.

Definition ws_with_document_hash (h : string) (s : WorkflowState) : WorkflowState :=
  ws_update s h (current_phase s) (phase_history s) (pages s)
    (detected_fields s) (validated_fields s) (retry_pool s) (output_paths s)
    (updated_at s) (error s).

Definition ws_with_pages (p : list PageInfo) (s : WorkflowState) : WorkflowState :=
  ws_update s (document_hash s) (current_phase s) (phase_history s) p
    (detected_fields s) (validated_fields s) (retry_pool s) (output_paths s)
    (updated_at s) (error s).

Definition ws_with_detected_fields (l : list loc) (s : WorkflowState) : WorkflowState :=
  ws_update s (document_hash s) (current_phase s) (phase_history s) (pages s)
    l (validated_fields s) (retry_pool s) (output_paths s) (updated_at s) (error s).

Definition ws_with_validated_fields (v p : list loc) (s : WorkflowState) : WorkflowState :=
  ws_update s (document_hash s) (current_phase s) (phase_history s) (pages s)
    (detected_fields s) v p (output_paths s) (updated_at s) (error s).

Definition ws_with_output_paths (o : gmap string string) (s : WorkflowState) : WorkflowState :=
  ws_update s (document_hash s) (current_phase s) (phase_history s) (pages s)
    (detected_fields s) (validated_fields s) (retry_pool s) o (updated_at s) (error s).

(** [StateManager(workflow_id, document_path)]; the two timestamps of the
    new state come from [datetime.now]. *)
Definition new_StateManager (rt : Runtime) (workflow_id document_path : string)
    : M StateManager :=
  let* t1 := now rt in
  let* t2 := now rt in
  ret (mkStateManager
         (mkWorkflowState workflow_id document_path "" INIT [] [] [] [] [] ∅ t1 t2 None)
         None).

(** The methods below act on the manager the orchestrator holds. *)
Definition touch (rt : Runtime) (sm : StateManager) : M unit :=
  let* t := now rt in
  put_state_manager (mkStateManager (ws_with_updated_at t (_state sm)) (_current_progress sm)).

Definition start_phase (rt : Runtime) (new_phase : WorkflowPhase) (total_items : Z) : M unit :=
  let* sm := the_state_manager "start_phase" in
  let* st :=
    match _current_progress sm with
    | Some p =>
        let* t := now rt in
        let p' := mkPhaseProgress (phase p) (started_at p) (Some t)
                    (progress_percent p) (items_total p) (items_completed p)
                    (error_message p) in
        ret (ws_with_phase_history (phase_history (_state sm) ++ [p']) (_state sm))
    | None => ret (_state sm)
    end in
  let* t := now rt in
  let progress := mkPhaseProgress new_phase (Some t) None 0 total_items 0 None in
  touch rt (mkStateManager (ws_with_current_phase new_phase st) (Some progress)).

Definition update_progress (rt : Runtime) (items_completed : Z) : M unit :=
  let* sm := the_state_manager "update_progress" in
  match _current_progress sm with
  | Some p =>
      let percent :=
        if 0 <? items_total p
        then (inject_Z items_completed / inject_Z (items_total p) * 100)%Q
        else progress_percent p in
      let p' := mkPhaseProgress (phase p) (started_at p) (completed_at p)
                  percent (items_total p) items_completed (error_message p) in
      touch rt (mkStateManager (_state sm) (Some p'))
  | None => ret tt
  end.

Definition complete_phase (rt : Runtime) : M unit :=
  let* sm := the_state_manager "complete_phase" in
  match _current_progress sm with
  | Some p =>
      let* t := now rt in
      let p' := mkPhaseProgress (phase p) (started_at p) (Some t) 100
                  (items_total p) (items_completed p) (error_message p) in
      touch rt (mkStateManager
                  (ws_with_phase_history (phase_history (_state sm) ++ [p']) (_state sm))
                  None)
  | None => ret tt
  end.

Definition set_error (rt : Runtime) (message : string) : M unit :=
  let* sm := the_state_manager "set_error" in
  let st := ws_with_current_phase ERROR (ws_with_error (Some message) (_state sm)) in
  let* st' :=
    match _current_progress sm with
    | Some p =>
        let* t := now rt in
        let p' := mkPhaseProgress (phase p) (started_at p) (Some t)
                    (progress_percent p) (items_total p) (items_completed p)
                    (Some message) in
        ret (ws_with_phase_history (phase_history st ++ [p']) st)
    | None => ret st
    end in
  touch rt (mkStateManager st' None).

Definition set_document_hash (rt : Runtime) (h : string) : M unit :=
  let* sm := the_state_manager "set_document_hash" in
  touch rt (mkStateManager (ws_with_document_hash h (_state sm)) (_current_progress sm)).

Definition set_pages (rt : Runtime) (p : list PageInfo) : M unit :=
  let* sm := the_state_manager "set_pages" in
  touch rt (mkStateManager (ws_with_pages p (_state sm)) (_current_progress sm)).

Definition set_detected_fields (rt : Runtime) (l : list loc) : M unit :=
  let* sm := the_state_manager "set_detected_fields" in
  touch rt (mkStateManager (ws_with_detected_fields l (_state sm)) (_current_progress sm)).

Definition set_validated_fields (rt : Runtime) (validated pool : list loc) : M unit :=
  let* sm := the_state_manager "set_validated_fields" in
  touch rt (mkStateManager (ws_with_validated_fields validated pool (_state sm))
              (_current_progress sm)).

Definition add_output_path (rt : Runtime) (output_type path : string) : M unit :=
  let* sm := the_state_manager "add_output_path" in
  touch rt (mkStateManager
              (ws_with_output_paths (<[output_type := path]> (output_paths (_state sm)))
                 (_state sm))
              (_current_progress sm)).

(** Seconds between two instants. *)
Definition total_seconds (later earlier : datetime) : Q :=
  (inject_Z (later - earlier) / 1000000)%Q.

Definition get_elapsed_time (rt : Runtime) : M Q :=
  let* sm := the_state_manager "get_elapsed_time" in
  let* t := now rt in
  ret (total_seconds t (ws_started_at (_state sm))).

Definition WorkflowPhase_eqb (a b : WorkflowPhase) : bool :=
  String.eqb (WorkflowPhase_value a) (WorkflowPhase_value b).

Fixpoint phase_duration_in (wanted : WorkflowPhase) (history : list PhaseProgress)
    : option Q :=
  match history with
  | [] => None
  | p :: rest =>
      match WorkflowPhase_eqb (phase p) wanted, completed_at p, started_at p with
      | true, Some c, Some s => Some (total_seconds c s)
      | _, _, _ => phase_duration_in wanted rest
      end
  end.

Definition get_phase_duration (wanted : WorkflowPhase) : M (option Q) :=
  let* sm := the_state_manager "get_phase_duration" in
  ret (phase_duration_in wanted (phase_history (_state sm))).

(** ** Reading JSON documents *)

(** A dictionary read by [json.load] has no key twice, so the first
    member under a key is the only one. *)
Fixpoint members_lookup (members : list (string * json)) (key : string) : option json :=
  match members with
  | [] => None
  | (k, v) :: rest => if String.eqb k key then Some v else members_lookup rest key
  end.

(** [data[key]]. *)
Definition getitem (data : json) (key : string) : result json :=
  match data with
  | JDict members =>
      match members_lookup members key with
      | Some v => Ok v
      | None => Raise (KeyError key)
      end
  | _ => Raise (TypeError "object is not subscriptable by a string")
  end.

(** [data.get(key, fallback)]. *)
Definition get_or (data : json) (key : string) (fallback : json) : result json :=
  match data with
  | JDict members => Ok (default fallback (members_lookup members key))
  | _ => Raise (AttributeError "object" "get")
  end.

(** Truth value of a JSON value in a condition. *)
Definition truthy (v : json) : bool :=
  match v with
  | JNull => false
  | JBool b => b
  | JInt z => negb (z =? 0)
  | JFloat q => negb (Qeq_bool q 0)
  | JStr s => negb (String.eqb s "")
  | JList items => match items with [] => false | _ => true end
  | JDict members => match members with [] => false | _ => true end
  end.

(** The data classes are typed here, where Python stores whatever the
    document holds: a value of another JSON type than the attribute is
    declared with is refused with [TypeError]. *)
Definition as_str (v : json) : result string :=
  match v with JStr s => Ok s | _ => Raise (TypeError "str expected") end.

Definition as_opt_str (v : json) : result (option string) :=
  match v with
  | JNull => Ok None
  | JStr s => Ok (Some s)
  | _ => Raise (TypeError "str or None expected")
  end.

Definition as_int (v : json) : result Z :=
  match v with JInt z => Ok z | _ => Raise (TypeError "int expected") end.

Definition as_float (v : json) : result Q :=
  match v with
  | JInt z => Ok (inject_Z z)
  | JFloat q => Ok q
  | _ => Raise (TypeError "float expected")
  end.

Definition as_list (v : json) : result (list json) :=
  match v with JList items => Ok items | _ => Raise (TypeError "list expected") end.

Definition opt_str_json (o : option string) : json :=
  match o with Some s => JStr s | None => JNull end.

(** [datetime.fromisoformat(v)]. *)
Definition parse_datetime (rt : Runtime) (v : json) : result datetime :=
  match v with
  | JStr s =>
      match fromisoformat rt s with
      | Some t => Ok t
      | None => Raise (ValueError s)
      end
  | _ => Raise (TypeError "fromisoformat: argument must be str")
  end.

(** Results inside computations. *)
Definition bind_result {A B} (r : result A) (k : A -> result B) : result B :=
  match r with Ok a => k a | Raise e => Raise e end.

Notation "'let+' x ':=' r 'in' k" := (bind_result r (fun x => k))
  (at level 10, x pattern, r at level 100, k at level 200) : py_scope.

Fixpoint map_result {A B} (f : A -> result B) (xs : list A) : result (list B) :=
  match xs with
  | [] => Ok []
  | x :: rest => let+ y := f x in let+ ys := map_result f rest in Ok (y :: ys)
  end.

(** ** workflow/checkpoint.py *)

(** [self._checkpoint_folder / f"{workflow_id}.json"]. *)
Definition checkpoint_path (folder workflow_id : string) : string :=
  folder +:+ "/" +:+ workflow_id +:+ ".json".

(** [dataclasses.asdict] on the two nested data classes. *)
Definition asdict_Coordinates (c : Coordinates) : json :=
  JDict [("x", JFloat (coord_x c)); ("y", JFloat (coord_y c));
         ("width", JFloat (coord_width c)); ("height", JFloat (coord_height c))].

Definition asdict_FieldHierarchy (h : FieldHierarchy) : json :=
  JDict [("section", JStr (section h)); ("subsection", opt_str_json (subsection h));
         ("entry", opt_str_json (entry h)); ("field_label", opt_str_json (field_label h))].

Definition asdict_CSSCoordinates (c : CSSCoordinates) : json :=
  JDict [("top", JStr (css_top c)); ("left", JStr (css_left c));
         ("width", JStr (css_width c)); ("height", JStr (css_height c))].

(** [obj.attr] for an attribute the class of [obj] does not declare. *)
Definition undeclared_attribute {A} (class attr : string) : result A :=
  Raise (AttributeError class attr).

(** A keyword argument the constructor of a data class does not take. *)
Definition unexpected_keyword {A} (class keyword : string) : result A :=
  Raise (TypeError (class +:+ ".__init__() got an unexpected keyword argument " +:+ keyword)).

(** [CheckpointManager._serialize_field].  The dictionary display is
    evaluated member by member; [tab_index], [label] and [placeholder]
    are not attributes of [DetectedField]. *)
Definition _serialize_field (field : DetectedField) : result json :=
  let fieldId := JStr (field_id field) in
  let fieldType := JStr (FieldType_value (field_type field)) in
  let coords := asdict_Coordinates (coordinates field) in
  let hier := asdict_FieldHierarchy (hierarchy field) in
  let pageNumber := JInt (page_number field) in
  let confidenceScore := JFloat (confidence_score field) in
  let validationStatus := JStr (ValidationStatus_value (validation_status field)) in
  let cssCoordinates :=
    match css_coordinates field with
    | Some c => asdict_CSSCoordinates c
    | None => JNull
    end in
  let renderOrder := JInt (render_order field) in
  let+ tabIndex := undeclared_attribute "DetectedField" "tab_index" in
  let+ label := undeclared_attribute "DetectedField" "label" in
  let+ placeholder := undeclared_attribute "DetectedField" "placeholder" in
  Ok (JDict [("fieldId", fieldId); ("fieldType", fieldType); ("coordinates", coords);
             ("hierarchy", hier); ("pageNumber", pageNumber);
             ("confidenceScore", confidenceScore);
             ("validationStatus", validationStatus);
             ("cssCoordinates", cssCoordinates); ("renderOrder", renderOrder);
             ("tabIndex", tabIndex); ("label", label); ("placeholder", placeholder)]).

(** [CheckpointManager._deserialize_field].  The arguments of the
    constructors are evaluated in the order written; [FieldHierarchy]
    takes no keyword [field_name], so the call that builds the hierarchy
    raises once its arguments have been read, and the rest of the
    function is never reached. *)
Definition _deserialize_field (data : json) : result DetectedField :=
  let+ coords_data := getitem data "coordinates" in
  let+ hierarchy_data := getitem data "hierarchy" in
  let+ css_data := get_or data "cssCoordinates" JNull in
  let+ fieldId := let+ v := getitem data "fieldId" in as_str v in
  let+ fieldType := let+ v := getitem data "fieldType" in let+ s := as_str v in
                    FieldType_of_value s in
  let+ x := let+ v := getitem coords_data "x" in as_float v in
  let+ y := let+ v := getitem coords_data "y" in as_float v in
  let+ width := let+ v := getitem coords_data "width" in as_float v in
  let+ height := let+ v := getitem coords_data "height" in as_float v in
  let+ section := let+ v := getitem hierarchy_data "section" in as_str v in
  let+ subsection := let+ v := get_or hierarchy_data "subsection" JNull in as_opt_str v in
  let+ entry := let+ v := get_or hierarchy_data "entry" JNull in as_opt_str v in
  let+ field_name := getitem hierarchy_data "field_name" in
  unexpected_keyword "FieldHierarchy" "field_name".

Definition _serialize_page_info (page : PageInfo) : json :=
  JDict [("pageNumber", JInt (pi_page_number page));
         ("width", JFloat (pi_width page)); ("height", JFloat (pi_height page))].

Definition _deserialize_page_info (data : json) : result PageInfo :=
  let+ n := let+ v := getitem data "pageNumber" in as_int v in
  let+ w := let+ v := getitem data "width" in as_float v in
  let+ h := let+ v := getitem data "height" in as_float v in
  Ok (mkPageInfo n w h).

Definition opt_datetime_json (rt : Runtime) (o : option datetime) : json :=
  match o with Some t => JStr (isoformat rt t) | None => JNull end.

Definition _serialize_phase_progress (rt : Runtime) (progress : PhaseProgress) : json :=
  JDict [("phase", JStr (WorkflowPhase_value (phase progress)));
         ("startedAt", opt_datetime_json rt (started_at progress));
         ("completedAt", opt_datetime_json rt (completed_at progress));
         ("progressPercent", JFloat (progress_percent progress));
         ("itemsTotal", JInt (items_total progress));
         ("itemsCompleted", JInt (items_completed progress));
         ("errorMessage", opt_str_json (error_message progress))].

(** [datetime.fromisoformat(data[key]) if data.get(key) else None]. *)
Definition optional_datetime (rt : Runtime) (data : json) (key : string)
    : result (option datetime) :=
  let+ present := get_or data key JNull in
  if truthy present then
    let+ v := getitem data key in
    let+ t := parse_datetime rt v in
    Ok (Some t)
  else Ok None.

Definition _deserialize_phase_progress (rt : Runtime) (data : json) : result PhaseProgress :=
  let+ ph := let+ v := getitem data "phase" in let+ s := as_str v in
             WorkflowPhase_of_value s in
  let+ started := optional_datetime rt data "startedAt" in
  let+ completed := optional_datetime rt data "completedAt" in
  let+ percent := let+ v := get_or data "progressPercent" (JFloat 0) in as_float v in
  let+ total := let+ v := get_or data "itemsTotal" (JInt 0) in as_int v in
  let+ done := let+ v := get_or data "itemsCompleted" (JInt 0) in as_int v in
  let+ message := let+ v := get_or data "errorMessage" JNull in as_opt_str v in
  Ok (mkPhaseProgress ph started completed percent total done message).

Record CheckpointManager := mkCheckpointManager {
  _checkpoint_folder : string;
}.

(** [[self._serialize_field(f) for f in fields]]. *)
Definition serialize_fields (fields : list loc) : M json :=
  let* items := map_M (fun l => let* f := read_field l in lift (_serialize_field f)) fields in
  ret (JList items).

Definition output_paths_json (paths : gmap string string) : json :=
  JDict ((fun kv => (kv.1, JStr kv.2)) <$> map_to_list paths).

(** [CheckpointManager._serialize_state]. *)
Definition _serialize_state (rt : Runtime) (state : WorkflowState) : M json :=
  let workflowId := JStr (workflow_id state) in
  let documentPath := JStr (document_path state) in
  let documentHash := JStr (document_hash state) in
  let currentPhase := JStr (WorkflowPhase_value (current_phase state)) in
  let phaseHistory := JList (_serialize_phase_progress rt <$> phase_history state) in
  let pgs := JList (_serialize_page_info <$> pages state) in
  let* detectedFields := serialize_fields (detected_fields state) in
  let* validatedFields := serialize_fields (validated_fields state) in
  let* retryPool := serialize_fields (retry_pool state) in
  ret (JDict [("workflowId", workflowId); ("documentPath", documentPath);
              ("documentHash", documentHash); ("currentPhase", currentPhase);
              ("phaseHistory", phaseHistory); ("pages", pgs);
              ("detectedFields", detectedFields);
              ("validatedFields", validatedFields); ("retryPool", retryPool);
              ("outputPaths", output_paths_json (output_paths state));
              ("startedAt", JStr (isoformat rt (ws_started_at state)));
              ("updatedAt", JStr (isoformat rt (updated_at state)));
              ("error", opt_str_json (error state))]).

(** A new field object. *)
Definition alloc_field (f : DetectedField) : M loc :=
  fun w =>
    let l := fresh (dom (heap w)) in
    (Ok l, with_heap (<[l := f]> (heap w)) w).

(** [[self._deserialize_field(f) for f in data.get(key, [])]]. *)
Definition deserialize_fields (data : json) (key : string) : M (list loc) :=
  let* items := lift (let+ v := get_or data key (JList []) in as_list v) in
  map_M (fun item => let* f := lift (_deserialize_field item) in alloc_field f) items.

Definition as_output_paths (v : json) : result (gmap string string) :=
  match v with
  | JDict members =>
      let+ pairs := map_result (fun kv => let+ s := as_str kv.2 in Ok (kv.1, s)) members in
      Ok (list_to_map pairs)
  | _ => Raise (TypeError "dict expected")
  end.

(** [CheckpointManager._deserialize_state]. *)
Definition _deserialize_state (rt : Runtime) (data : json) : M WorkflowState :=
  let* wid := lift (let+ v := getitem data "workflowId" in as_str v) in
  let* path := lift (let+ v := getitem data "documentPath" in as_str v) in
  let* hash := lift (let+ v := get_or data "documentHash" (JStr "") in as_str v) in
  let* ph := lift (let+ v := getitem data "currentPhase" in let+ s := as_str v in
                   WorkflowPhase_of_value s) in
  let* history := lift (let+ v := get_or data "phaseHistory" (JList []) in
                        let+ items := as_list v in
                        map_result (_deserialize_phase_progress rt) items) in
  let* pgs := lift (let+ v := get_or data "pages" (JList []) in
                    let+ items := as_list v in
                    map_result _deserialize_page_info items) in
  let* detected := deserialize_fields data "detectedFields" in
  let* validated := deserialize_fields data "validatedFields" in
  let* pool := deserialize_fields data "retryPool" in
  let* outs := lift (let+ v := get_or data "outputPaths" (JDict []) in as_output_paths v) in
  let* started := lift (let+ v := getitem data "startedAt" in parse_datetime rt v) in
  let* updated := lift (let+ v := getitem data "updatedAt" in parse_datetime rt v) in
  let* err := lift (let+ v := get_or data "error" JNull in as_opt_str v) in
  ret (mkWorkflowState wid path hash ph history pgs detected validated pool outs
         started updated err).

(** [open(path)] and [json.load]. *)
Definition read_json (path : string) (f : file) : M json :=
  match f with
  | Unreadable => raise (OSError path)
  | Malformed => raise JSONDecodeError
  | Document doc => ret doc
  end.

(** [open(path, "w")] and [json.dump]: the file is replaced. *)
Definition write_json (path : string) (doc : json) : M unit :=
  modify (fun w => with_fs (<[path := Document doc]> (fs w)) w).

(** [CheckpointManager.save_checkpoint]. *)
Definition save_checkpoint (rt : Runtime) (self : CheckpointManager)
    (manager : StateManager) : M string :=
  let state := _state manager in
  let path := checkpoint_path (_checkpoint_folder self) (workflow_id state) in
  try_except
    (let* data := _serialize_state rt state in
     write_json path data ;;
     ret path)
    (fun e => raise (CheckpointError "save" (workflow_id state) e)).

(** [CheckpointManager.load_checkpoint]. *)
Definition load_checkpoint (rt : Runtime) (self : CheckpointManager)
    (workflow_id : string) : M (option WorkflowState) :=
  let path := checkpoint_path (_checkpoint_folder self) workflow_id in
  let* found := gets (fun w => fs w !! path) in
  match found with
  | None => ret None
  | Some f =>
      try_except
        (let* data := read_json path f in
         let* state := _deserialize_state rt data in
         ret (Some state))
        (fun e => raise (CheckpointError "load" workflow_id e))
  end.

(** [CheckpointManager.delete_checkpoint]. *)
Definition delete_checkpoint (self : CheckpointManager) (workflow_id : string) : M bool :=
  let path := checkpoint_path (_checkpoint_folder self) workflow_id in
  let* found := gets (fun w => fs w !! path) in
  match found with
  | Some _ => modify (fun w => with_fs (delete path (fs w)) w) ;; ret true
  | None => ret false
  end.

(** ** cache/index.py *)

Record CacheIndex := mkCacheIndex {
  _cache_folder : string;
  _index_path : string;
}.

Definition entry_of_json (entry_data : json) : result CacheEntry :=
  let+ cid := let+ v := getitem entry_data "cacheId" in as_str v in
  let+ hash := let+ v := getitem entry_data "documentHash" in as_str v in
  let+ name := let+ v := getitem entry_data "documentName" in as_str v in
  let+ date := let+ v := getitem entry_data "cachedDate" in as_str v in
  let+ path := let+ v := getitem entry_data "goldenMapPath" in as_str v in
  let+ count := let+ v := get_or entry_data "fieldCount" (JInt 0) in as_int v in
  let+ score := let+ v := get_or entry_data "accuracyScore" (JFloat 0) in as_float v in
  Ok (mkCacheEntry cid hash name date path count score).

Definition json_of_entry (e : CacheEntry) : json :=
  JDict [("cacheId", JStr (cache_id e)); ("documentHash", JStr (ce_document_hash e));
         ("documentName", JStr (document_name e)); ("cachedDate", JStr (cached_date e));
         ("goldenMapPath", JStr (golden_map_path e)); ("fieldCount", JInt (field_count e));
         ("accuracyScore", JFloat (accuracy_score e))].

(** [CacheIndex._load_index]: any exception while reading the file
    leaves the index empty. *)
Definition _load_index (self : CacheIndex) : M unit :=
  let* found := gets (fun w => fs w !! _index_path self) in
  match found with
  | None => ret tt
  | Some f =>
      try_except
        (let* data := read_json (_index_path self) f in
         let* items := lift (let+ v := get_or data "entries" (JList []) in as_list v) in
         for_each items (fun entry_data =>
           let* e := lift (entry_of_json entry_data) in
           modify (fun w =>
             with_cache_entries (<[ce_document_hash e := e]> (cache_entries w)) w)))
        (fun _ => modify (with_cache_entries ∅))
  end.

(** [CacheIndex(cache_folder)]. *)
Definition new_CacheIndex (cache_folder : string) : M CacheIndex :=
  let self := mkCacheIndex cache_folder (cache_folder +:+ "/" +:+ "cache-index.json") in
  modify (with_cache_entries ∅) ;;
  _load_index self ;;
  ret self.

(** [CacheIndex._save_index]: the whole index is written anew.  The
    entries are listed in the order of their hashes; the source lists
    them in the order they were inserted, which reads back as the same
    mapping. *)
Definition _save_index (rt : Runtime) (self : CacheIndex) : M unit :=
  let* t := now rt in
  let* entries := gets cache_entries in
  write_json (_index_path self)
    (JDict [("lastUpdated", JStr (isoformat rt t));
            ("entries", JList ((fun kv => json_of_entry kv.2) <$> map_to_list entries))]).

Definition add_entry (rt : Runtime) (self : CacheIndex)
    (cache_id document_hash document_name golden_map_path : string)
    (field_count : Z) (accuracy_score : Q) : M unit :=
  let* t := now rt in
  let e := mkCacheEntry cache_id document_hash document_name (isoformat rt t)
             golden_map_path field_count accuracy_score in
  modify (fun w => with_cache_entries (<[document_hash := e]> (cache_entries w)) w) ;;
  _save_index rt self.

Definition get_entry (document_hash : string) : M (option CacheEntry) :=
  gets (fun w => cache_entries w !! document_hash).

Definition remove_entry (rt : Runtime) (self : CacheIndex) (document_hash : string) : M bool :=
  let* entries := gets cache_entries in
  match entries !! document_hash with
  | Some _ =>
      modify (fun w => with_cache_entries (delete document_hash (cache_entries w)) w) ;;
      _save_index rt self ;;
      ret true
  | None => ret false
  end.

(** [CacheIndex.get_entry_count]. *)
Definition get_entry_count : M Z :=
  gets (fun w => Z.of_nat (size (cache_entries w))).

(** ** cache/sidecar.py *)

Record SidecarManager := mkSidecarManager {
  _sidecar_folder : string;
}.

Definition sidecar_path (self : SidecarManager) (document_hash : string) : string :=
  _sidecar_folder self +:+ "/" +:+ document_hash +:+ ".json".

(** [uuid.uuid4().hex[:12]]. *)
Definition uuid4 (rt : Runtime) : M string :=
  fun w => (Ok (uuid4_hex12 rt (uuid_calls w)), with_uuid_calls (S (uuid_calls w)) w).

(** [shutil.copy2(src, dst)]. *)
Definition copy2 (src dst : string) : M unit :=
  let* found := gets (fun w => fs w !! src) in
  match found with
  | Some Unreadable | None => raise (OSError src)
  | Some f => modify (fun w => with_fs (<[dst := f]> (fs w)) w)
  end.

Definition store_golden_map (rt : Runtime) (self : SidecarManager)
    (document_hash golden_map_path : string) : M string :=
  let* u := uuid4 rt in
  let cache_id := "cache_" +:+ u in
  try_except (copy2 golden_map_path (sidecar_path self document_hash))
             (fun _ => raise (CacheError "store" cache_id)) ;;
  ret cache_id.

(** [SidecarManager.retrieve_golden_map]: [None] when the file is absent
    or cannot be read as JSON. *)
Definition retrieve_golden_map (self : SidecarManager) (document_hash : string)
    : M (option json) :=
  let path := sidecar_path self document_hash in
  let* found := gets (fun w => fs w !! path) in
  match found with
  | None => ret None
  | Some f =>
      try_except (let* doc := read_json path f in ret (Some doc))
                 (fun _ => ret None)
  end.

(** [SidecarManager.has_cached_map]. *)
Definition has_cached_map (self : SidecarManager) (document_hash : string) : M bool :=
  let path := sidecar_path self document_hash in
  let* found := gets (fun w => fs w !! path) in
  ret (bool_decide (is_Some found)).

(** [SidecarManager.delete_cached_map]. *)
Definition delete_cached_map (self : SidecarManager) (document_hash : string) : M bool :=
  let path := sidecar_path self document_hash in
  let* found := gets (fun w => fs w !! path) in
  match found with
  | Some _ => modify (fun w => with_fs (delete path (fs w)) w) ;; ret true
  | None => ret false
  end.

(** ** workflow/discovery.py *)

Record DiscoveryWorkflow := mkDiscoveryWorkflow {
  wf_config : DiscoveryConfig;
  _checkpoint_manager : CheckpointManager;
  _cache_index : CacheIndex;
  _sidecar_manager : SidecarManager;
}.

(** [DiscoveryWorkflow(config)]: no state manager yet, and the cache
    index read from its file. *)
Definition new_DiscoveryWorkflow (config : DiscoveryConfig) : M DiscoveryWorkflow :=
  modify (with_state_manager None) ;;
  let* index := new_CacheIndex (directory (cache config)) in
  ret (mkDiscoveryWorkflow config
         (mkCheckpointManager (checkpoint_folder (output config)))
         index
         (mkSidecarManager (directory (cache config)))).

Record Metrics := mkMetrics {
  total_pages : Z;
  m_total_fields : Z;
  m_validated_fields : Z;
  retry_pool_size : Z;
  m_accuracy : Q;
  elapsed_time : Q;
}.

(** The dictionary [run] and [resume] return. *)
Inductive WorkflowResult :=
| Cached (golden_map : json) (cached_as : string)
| Complete (workflow document : string) (outputs : gmap string string)
    (metrics : Metrics).

(** The text of an exception, [str(e)]. *)
Definition str_exn (e : exn) : string :=
  match e with
  | AttributeError owner attr => owner +:+ " object has no attribute " +:+ attr
  | KeyError key => key
  | TypeError what => what
  | ValueError what => what
  | ZeroDivisionError => "division by zero"
  | OSError path => path
  | JSONDecodeError => "Expecting value"
  | VisionAPIError code => "GLM4.6v API error [" +:+ pretty code +:+ "]"
  | PDFLoadError path reason => "Failed to load PDF at " +:+ path +:+ ": " +:+ reason
  | CheckpointError operation wid _ => "Checkpoint " +:+ operation +:+ " failed at " +:+ wid
  | CacheError operation cid => "Cache " +:+ operation +:+ " failed for " +:+ cid
  | WorkflowStateError step expected actual =>
      "Workflow state error at step " +:+ step +:+ ": expected " +:+ expected
      +:+ ", found " +:+ actual
  | OutOfFuel => "out of fuel"
  | Dangling => "dangling address"
  end.

(** [WorkflowStateError(...)]: the constructor takes three arguments
    ([current_step], [expected_state], [actual_state]); with another
    number of them the call itself raises [TypeError]. *)
Definition new_WorkflowStateError (args : list string) : exn :=
  match args with
  | [step; expected; actual] => WorkflowStateError step expected actual
  | _ => TypeError "WorkflowStateError.__init__() missing required positional argument"
  end.

(** [DiscoveryWorkflow._report_progress]; the log holds what the progress
    callback is handed when one is set. *)
Definition _report_progress (ph : WorkflowPhase) (percent_done : Q) (message : string)
    : M unit :=
  modify (fun w => with_progress_log (progress_log w ++ [(ph, percent_done, message)]) w).

(** [with PDFLoader(path) as loader]. *)
Definition open_pdf (rt : Runtime) (path : string) : M PDFDocument :=
  match pdf_documents rt !! path with
  | None => raise (PDFLoadError path "File does not exist")
  | Some doc =>
      match rendered_pages doc with
      | [] => raise (PDFLoadError path "PDF contains no pages")
      | _ => ret doc
      end
  end.

(** [DiscoveryWorkflow._check_cache]. *)
Definition _check_cache (rt : Runtime) (self : DiscoveryWorkflow) (pdf_path : string)
    : M (option WorkflowResult) :=
  if negb (enabled (cache (wf_config self))) then ret None
  else
    let* doc := open_pdf rt pdf_path in
    let* cache_entry := get_entry (md5_hash doc) in
    match cache_entry with
    | Some e =>
        let* cached_map := retrieve_golden_map (_sidecar_manager self) (md5_hash doc) in
        match cached_map with
        | Some m =>
            if truthy m then
              _report_progress COMPLETE 100 "Loaded from cache" ;;
              ret (Some (Cached m (cache_id e)))
            else ret None
        | None => ret None
        end
    | None => ret None
    end.

(** [DiscoveryWorkflow._phase_loading]. *)
Definition _phase_loading (rt : Runtime) (self : DiscoveryWorkflow) (pdf_path : string)
    : M unit :=
  start_phase rt LOADING 3 ;;
  _report_progress LOADING 0 "Loading PDF" ;;
  let* doc := open_pdf rt pdf_path in
  update_progress rt 1 ;;
  set_document_hash rt (md5_hash doc) ;;
  update_progress rt 2 ;;
  set_pages rt (snd <$> rendered_pages doc) ;;
  update_progress rt 3 ;;
  complete_phase rt ;;
  _report_progress LOADING 100 "PDF loaded".

(** [DiscoveryWorkflow._phase_detection]. *)
Definition _phase_detection (rt : Runtime) (self : DiscoveryWorkflow) : M unit :=
  let* sm := the_state_manager "state" in
  let state := _state sm in
  let page_count := Z.of_nat (length (pages state)) in
  start_phase rt DETECTION page_count ;;
  _report_progress DETECTION 0 "Detecting fields" ;;
  let* doc := open_pdf rt (document_path state) in
  let page_images := fst <$> rendered_pages doc in
  let* fields := detect_all_pages rt page_images (pages state) in
  set_detected_fields rt fields ;;
  complete_phase rt ;;
  _report_progress DETECTION 100
    ("Detected " +:+ pretty (length fields) +:+ " fields").

(** [page_images[page_num + 1] = image_data] for every page. *)
Definition page_images_of (doc : PDFDocument) : gmap Z image :=
  list_to_map (imap (fun i p => (Z.of_nat i + 1, p.1)) (rendered_pages doc)).

(** [DiscoveryWorkflow._phase_validation].  The two comprehensions name
    members [VALIDATED], [FAILED] and [RETRY_EXHAUSTED] of
    [ValidationStatus]; the condition is evaluated once per field. *)
Definition _phase_validation (rt : Runtime) (self : DiscoveryWorkflow) : M unit :=
  let* sm := the_state_manager "state" in
  let state := _state sm in
  let field_count := Z.of_nat (length (detected_fields state)) in
  start_phase rt VALIDATION field_count ;;
  _report_progress VALIDATION 0 "Validating coordinates" ;;
  let coordinator := new_ValidationCoordinator (wf_config self) in
  let* doc := open_pdf rt (document_path state) in
  let page_images := page_images_of doc in
  let* summary := validate_all_fields rt coordinator (detected_fields state)
                    page_images false 10 in
  let* validated :=
    filter_M (fun l =>
      let* f := read_field l in
      let* wanted := lift (ValidationStatus_member "VALIDATED") in
      ret (ValidationStatus_eqb (validation_status f) wanted))
      (detected_fields state) in
  let* pool :=
    filter_M (fun l =>
      let* f := read_field l in
      let* failed := lift (ValidationStatus_member "FAILED") in
      let* exhausted := lift (ValidationStatus_member "RETRY_EXHAUSTED") in
      ret (ValidationStatus_eqb (validation_status f) failed
           || ValidationStatus_eqb (validation_status f) exhausted))
      (detected_fields state) in
  set_validated_fields rt validated pool ;;
  complete_phase rt ;;
  _report_progress VALIDATION 100
    ("Validated " +:+ pretty (length validated) +:+ "/" +:+ pretty field_count
     +:+ " fields").

(** [DiscoveryWorkflow._phase_organization]. *)
Definition _phase_organization (rt : Runtime) (self : DiscoveryWorkflow) : M unit :=
  let* sm := the_state_manager "state" in
  let state := _state sm in
  start_phase rt ORGANIZATION 3 ;;
  _report_progress ORGANIZATION 0 "Organizing hierarchy" ;;
  build_hierarchy rt (validated_fields state) ;;
  update_progress rt 1 ;;
  convert_css rt (pages state) (validated_fields state) ;;
  update_progress rt 2 ;;
  calculate_order rt (validated_fields state) ;;
  update_progress rt 3 ;;
  complete_phase rt ;;
  _report_progress ORGANIZATION 100 "Hierarchy organized".

(** [DiscoveryWorkflow._phase_output]. *)
Definition _phase_output (rt : Runtime) (self : DiscoveryWorkflow) (project_name : string)
    : M (gmap string string) :=
  let* sm := the_state_manager "state" in
  let state := _state sm in
  start_phase rt OUTPUT 3 ;;
  _report_progress OUTPUT 0 "Generating outputs" ;;
  let* golden_path := generate_golden_map rt project_name state in
  add_output_path rt "golden_map" golden_path ;;
  update_progress rt 1 ;;
  let* qa_path := generate_qa_report rt project_name state in
  add_output_path rt "qa_report" qa_path ;;
  update_progress rt 2 ;;
  let* metrics_path := generate_metrics rt project_name state in
  add_output_path rt "metrics" metrics_path ;;
  update_progress rt 3 ;;
  complete_phase rt ;;
  _report_progress OUTPUT 100 "Outputs generated" ;;
  ret (<["metrics" := metrics_path]>
         (<["qa_report" := qa_path]> (<["golden_map" := golden_path]> ∅))).

(** [len(validated) / len(detected) * 100 if detected else otherwise]. *)
Definition accuracy_of (state : WorkflowState) (otherwise : Q) : Q :=
  match detected_fields state with
  | [] => otherwise
  | _ => percent (Z.of_nat (length (validated_fields state)))
                 (Z.of_nat (length (detected_fields state)))
  end.

(** [DiscoveryWorkflow._cache_results]. *)
Definition _cache_results (rt : Runtime) (self : DiscoveryWorkflow)
    (golden_map_path : string) : M unit :=
  if negb (enabled (cache (wf_config self))) || String.eqb golden_map_path "" then ret tt
  else
    let* sm := the_state_manager "state" in
    let state := _state sm in
    let* cache_id := store_golden_map rt (_sidecar_manager self) (document_hash state)
                       golden_map_path in
    add_entry rt (_cache_index self) cache_id (document_hash state)
      (path_name rt (document_path state)) golden_map_path
      (Z.of_nat (length (validated_fields state))) (accuracy_of state 0).

(** [DiscoveryWorkflow._build_result]. *)
Definition _build_result (rt : Runtime) (output_paths : gmap string string)
    : M WorkflowResult :=
  let* sm := the_state_manager "state" in
  let state := _state sm in
  let* elapsed := get_elapsed_time rt in
  ret (Complete (workflow_id state) (document_hash state) output_paths
         (mkMetrics (Z.of_nat (length (pages state)))
            (Z.of_nat (length (detected_fields state)))
            (Z.of_nat (length (validated_fields state)))
            (Z.of_nat (length (retry_pool state)))
            (accuracy_of state 0) elapsed)).

(** [DiscoveryWorkflow.run]. *)
Definition run (rt : Runtime) (self : DiscoveryWorkflow) (pdf_path : string)
    (project_name : option string) : M WorkflowResult :=
  let* u := uuid4 rt in
  let* sm := new_StateManager rt ("wf_" +:+ u) pdf_path in
  put_state_manager sm ;;
  let name :=
    match project_name with
    | Some n => if String.eqb n "" then path_stem rt pdf_path else n
    | None => path_stem rt pdf_path
    end in
  try_except
    (let* cache_result := _check_cache rt self pdf_path in
     match cache_result with
     | Some r => ret r
     | None =>
         _phase_loading rt self pdf_path ;;
         _phase_detection rt self ;;
         _phase_validation rt self ;;
         _phase_organization rt self ;;
         let* output_paths := _phase_output rt self name in
         _cache_results rt self (default "" (output_paths !! "golden_map")) ;;
         start_phase rt COMPLETE 0 ;;
         complete_phase rt ;;
         _build_result rt output_paths
     end)
    (fun e =>
       let* manager := gets state_manager in
       match manager with
       | Some _ =>
           set_error rt (str_exn e) ;;
           let* sm' := the_state_manager "state" in
           save_checkpoint rt (_checkpoint_manager self) sm' ;;
           raise e
       | None => raise e
       end).

(** The phase [resume] restarts from. *)
Definition resume_phase (state : WorkflowState) : WorkflowPhase :=
  match current_phase state with
  | ERROR =>
      match last (phase_history state) with
      | Some p => phase p
      | None => INIT
      end
  | p => p
  end.

(** [DiscoveryWorkflow.resume]. *)
Definition resume (rt : Runtime) (self : DiscoveryWorkflow) (wid : string)
    : M WorkflowResult :=
  let* loaded := load_checkpoint rt (_checkpoint_manager self) wid in
  match loaded with
  | None =>
      raise (new_WorkflowStateError ["resume"; "Checkpoint not found: " +:+ wid])
  | Some state =>
      let* sm := new_StateManager rt (workflow_id state) (document_path state) in
      put_state_manager (mkStateManager state None) ;;
      let finish (output_paths : gmap string string) : M WorkflowResult :=
        delete_checkpoint (_checkpoint_manager self) wid ;;
        _build_result rt output_paths in
      let stem := path_stem rt (document_path state) in
      match resume_phase state with
      | INIT | LOADING => run rt self (document_path state) None
      | DETECTION =>
          _phase_detection rt self ;;
          _phase_validation rt self ;;
          _phase_organization rt self ;;
          let* output_paths := _phase_output rt self stem in
          finish output_paths
      | VALIDATION =>
          _phase_validation rt self ;;
          _phase_organization rt self ;;
          let* output_paths := _phase_output rt self stem in
          finish output_paths
      | ORGANIZATION =>
          _phase_organization rt self ;;
          let* output_paths := _phase_output rt self stem in
          finish output_paths
      | OUTPUT =>
          let* output_paths := _phase_output rt self stem in
          finish output_paths
      | COMPLETE | ERROR => finish (output_paths state)
      end
  end.

(** ** organization/render_order.py *)

(** The sort key of [calculate_order]: page, then top edge, then left
    edge. *)
Definition order_key (f : DetectedField) : Z * Q * Q :=
  (page_number f, coord_y (coordinates f), coord_x (coordinates f)).

(** [a < b] on such tuples: the first components that are not equal
    decide. *)
Definition key_lt (a b : Z * Q * Q) : bool :=
  match a, b with
  | (p1, y1, x1), (p2, y2, x2) =>
      if negb (p1 =? p2) then p1 <? p2
      else if negb (Qeq_bool y1 y2) then Qlt_bool y1 y2
      else Qlt_bool x1 x2
  end.

(** The builtin [sorted(xs, key=key)].  It is stable, which fixes its
    result for a given order of the keys; the result is computed here by
    insertion: an element goes behind those in front of which it must
    not stand, and in front of the others. *)
Fixpoint insert_sorted {A} (key : A -> Z * Q * Q) (x : A) (l : list A) : list A :=
  match l with
  | [] => [x]
  | y :: rest =>
      if key_lt (key y) (key x) then y :: insert_sorted key x rest
      else x :: y :: rest
  end.

Definition py_sorted {A} (key : A -> Z * Q * Q) (xs : list A) : list A :=
  foldr (insert_sorted key) [] xs.

Definition set_render_order (n : Z) (f : DetectedField) : DetectedField :=
  mkDetectedField (field_id f) (field_type f) (coordinates f) (hierarchy f)
    (page_number f) (confidence_score f) (validation_status f) (section_id f)
    n (css_coordinates f) (ui_hints f) (retry_count f) (validation_evidence f).

Definition set_ui_hints (u : option UIHints) (f : DetectedField) : DetectedField :=
  mkDetectedField (field_id f) (field_type f) (coordinates f) (hierarchy f)
    (page_number f) (confidence_score f) (validation_status f) (section_id f)
    (render_order f) (css_coordinates f) u (retry_count f) (validation_evidence f).

(** [RenderOrderCalculator.calculate_order]: the keys are taken once,
    before the sort; then the objects are numbered from 1 in the order
    of the sorted list.  (The name stands in a module of its own, beside
    the collaborator of the same name in [Runtime].) *)
Module RenderOrderCalculator.

Definition calculate_order (fields : list loc) : M (list loc) :=
  let* keyed := map_M (fun l => let* f := read_field l in ret (order_key f, l)) fields in
  let sorted_fields := snd <$> py_sorted fst keyed in
  for_each (imap (fun idx field => (Z.of_nat idx, field)) sorted_fields)
    (fun item =>
       let* f := read_field item.2 in
       write_field item.2 (set_render_order (item.1 + 1) f)) ;;
  ret sorted_fields.

End RenderOrderCalculator.

(** [RenderOrderCalculator._determine_label_position]. *)
Definition _determine_label_position (field : DetectedField) : string :=
  if Qlt_bool 200 (coord_width (coordinates field)) then "above"
  else if Qlt_bool (coord_height (coordinates field)) 30 then "left"
  else "above".

(** Truth value of an optional string: [None] and the empty string are
    false. *)
Definition truthy_opt_str (o : option string) : bool :=
  match o with
  | Some s => negb (String.eqb s "")
  | None => false
  end.

Definition opt_str_eqb (a b : option string) : bool :=
  match a, b with
  | Some s, Some t => String.eqb s t
  | None, None => true
  | _, _ => false
  end.

(** The loop of [_find_related_fields]. *)
Fixpoint related_to (field : DetectedField) (all_fields : list DetectedField)
    : list string :=
  match all_fields with
  | [] => []
  | other :: rest =>
      if String.eqb (field_id other) (field_id field) then related_to field rest
      else if negb (page_number other =? page_number field) then related_to field rest
      else if truthy_opt_str (entry (hierarchy other))
              && opt_str_eqb (entry (hierarchy other)) (entry (hierarchy field))
      then field_id other :: related_to field rest
      else if Qlt_bool (Qabs (coord_y (coordinates other) - coord_y (coordinates field))) 50
      then field_id other :: related_to field rest
      else related_to field rest
  end.

(** [RenderOrderCalculator._find_related_fields]: [related[:5]]. *)
Definition _find_related_fields (field : DetectedField) (all_fields : list DetectedField)
    : list string :=
  take 5 (related_to field all_fields).

(** [RenderOrderCalculator.assign_ui_hints]. *)
Definition assign_ui_hints (fields : list loc) : M (list loc) :=
  for_each fields
    (fun l =>
       let* field := read_field l in
       let label := _determine_label_position field in
       let* all_fields := map_M read_field fields in
       let group := _find_related_fields field all_fields in
       let* f := read_field l in
       write_field l (set_ui_hints (Some (mkUIHints label group)) f)) ;;
  ret fields.

(** ** core/types.py: the hierarchy *)

Record Entry := mkEntry {
  entry_id : string;
  entry_name : string;
  entry_fields : list loc;
}.

Record Subsection := mkSubsection {
  subsection_id : string;
  subsection_name : string;
  entries : list Entry;
  subsection_fields : list loc;
}.

Record Section := mkSection {
  sec_section_id : string;
  section_name : string;
  subsections : list Subsection;
  section_fields : list loc;
}.

(** ** organization/hierarchy.py *)

(** A [defaultdict(list)] filled by [d[key].append(x)]: the keys stand in
    the order they first came, and so do the members under a key. *)
Fixpoint group_append {K} `{EqDecision K} (k : K) (x : loc)
    (groups : list (K * list loc)) : list (K * list loc) :=
  match groups with
  | [] => [(k, [x])]
  | (k', xs) :: rest =>
      if decide (k = k') then (k', xs ++ [x]) :: rest
      else (k', xs) :: group_append k x rest
  end.

Definition group_by_key {K} `{EqDecision K} (keyed : list (K * loc))
    : list (K * list loc) :=
  foldl (fun groups kx => group_append kx.1 kx.2 groups) [] keyed.

(** [for field in fields: d[key(field)].append(field)]. *)
Definition grouped {K} `{EqDecision K} (key : DetectedField -> K) (fields : list loc)
    : M (list (K * list loc)) :=
  let* keyed := map_M (fun l => let* f := read_field l in ret (key f, l)) fields in
  ret (group_by_key keyed).

(** [uuid.uuid4().hex[:8]]. *)
Definition uuid4_hex8 (rt : Runtime) : M string :=
  let* u := uuid4 rt in
  ret (String.substring 0 8 u).

(** The loop over the groups of a section or of a subsection: the group
    without a name goes to the direct fields, every other group is
    built and appended. *)
Fixpoint build_groups {G} (build : string -> list loc -> M G)
    (groups : list (option string * list loc)) (built : list G) (direct : list loc)
    : M (list G * list loc) :=
  match groups with
  | [] => ret (built, direct)
  | (None, xs) :: rest => build_groups build rest built (direct ++ xs)
  | (Some name, xs) :: rest =>
      let* g := build name xs in
      build_groups build rest (built ++ [g]) direct
  end.

Definition set_section_id (s : string) (f : DetectedField) : DetectedField :=
  mkDetectedField (field_id f) (field_type f) (coordinates f) (hierarchy f)
    (page_number f) (confidence_score f) (validation_status f) s
    (render_order f) (css_coordinates f) (ui_hints f) (retry_count f)
    (validation_evidence f).

(** [d[key] = value] on a dictionary kept in insertion order: a key
    that is there keeps its place. *)
Fixpoint dict_set {V} (key : string) (value : V) (d : list (string * V))
    : list (string * V) :=
  match d with
  | [] => [(key, value)]
  | (k, v) :: rest =>
      if String.eqb k key then (k, value) :: rest
      else (k, v) :: dict_set key value rest
  end.

Module HierarchyBuilder.

(** The builder: its dictionary [_sections]. *)
Record t := mk {
  _sections : list (string * Section);
}.

Definition _build_entry (rt : Runtime) (entry_name : string) (fields : list loc)
    : M Entry :=
  let* u := uuid4_hex8 rt in
  ret (mkEntry ("entry_" +:+ u) entry_name fields).

Definition _build_subsection (rt : Runtime) (subsection_name : string)
    (fields : list loc) : M Subsection :=
  let* u := uuid4_hex8 rt in
  let subsection_id := "subsec_" +:+ u in
  let* entry_fields := grouped (fun f => entry (hierarchy f)) fields in
  let* (entries, direct_fields) := build_groups (_build_entry rt) entry_fields [] [] in
  ret (mkSubsection subsection_id subsection_name entries direct_fields).

Definition _build_section (rt : Runtime) (section_name : string) (fields : list loc)
    : M Section :=
  let* u := uuid4_hex8 rt in
  let section_id := "sec_" +:+ u in
  let* subsection_fields := grouped (fun f => subsection (hierarchy f)) fields in
  let* (subsections, direct_fields) :=
    build_groups (_build_subsection rt) subsection_fields [] [] in
  for_each fields
    (fun l => let* f := read_field l in write_field l (set_section_id section_id f)) ;;
  ret (mkSection section_id section_name subsections direct_fields).

(** The loop of [build_hierarchy] over the sections. *)
Fixpoint build_sections (rt : Runtime) (groups : list (string * list loc))
    (sections : list (string * Section)) : M (list (string * Section)) :=
  match groups with
  | [] => ret sections
  | (section_name, section_field_list) :: rest =>
      let* s := _build_section rt section_name section_field_list in
      build_sections rt rest (dict_set (sec_section_id s) s sections)
  end.

(** [HierarchyBuilder.build_hierarchy]; it returns the builder as the
    call left it beside the list of the source. *)
Definition build_hierarchy (rt : Runtime) (self : t) (fields : list loc)
    : M (t * list Section) :=
  let* section_fields := grouped (fun f => section (hierarchy f)) fields in
  let* sections := build_sections rt section_fields [] in
  ret (mk sections, snd <$> sections).

Definition get_section_count (self : t) : Z :=
  Z.of_nat (length (_sections self)).

Definition get_section_by_id (self : t) (section_id : string) : option Section :=
  snd <$> List.find (fun kv => String.eqb kv.1 section_id) (_sections self).

End HierarchyBuilder.

(** ** vision/detector.py: the breakdowns *)

(** [breakdown[k] = breakdown.get(k, 0) + 1] for the key of every field
    in turn. *)
Definition breakdown_by (key : DetectedField -> string) (fields : list DetectedField)
    : gmap string Z :=
  foldl (fun breakdown field =>
           <[key field := default 0 (breakdown !! key field) + 1]> breakdown)
        ∅ fields.

(** [FieldDetector.get_field_type_breakdown]. *)
Definition get_field_type_breakdown (fields : list DetectedField) : gmap string Z :=
  breakdown_by (fun f => FieldType_value (field_type f)) fields.

(** [FieldDetector.get_section_breakdown]. *)
Definition get_section_breakdown (fields : list DetectedField) : gmap string Z :=
  breakdown_by (fun f => section (hierarchy f)) fields.

(** ** output/metrics.py *)

(** The builtin [sum] over floats: it starts from 0 and adds from the
    left. *)
Definition py_sum (xs : list Q) : Q := fold_left Qplus xs 0%Q.

(** [MetricsGenerator._calculate_avg_confidence]. *)
Definition _calculate_avg_confidence (fields : list DetectedField) : Q :=
  match fields with
  | [] => 0%Q
  | _ => (py_sum (confidence_score <$> fields) / inject_Z (Z.of_nat (length fields)) * 100)%Q
  end.

(** [MetricsGenerator._estimate_cache_size]. *)
Definition _estimate_cache_size (fields : list DetectedField) : Z :=
  Z.of_nat (length fields) * 500.

(** ** Notions used in the statements *)




(** Validation changes neither the set of objects nor the page an object
    stands on. *)
Definition same_pages (h h' : gmap loc DetectedField) : Prop :=
  forall l f, h !! l = Some f ->
    exists f', h' !! l = Some f' /\ page_number f' = page_number f.

(** Whether a state holds a field in any of its three lists. *)
Definition holds_a_field (state : WorkflowState) : bool :=
  match detected_fields state ++ validated_fields state ++ retry_pool state with
  | [] => false
  | _ => true
  end.


(** The store holds nothing it can hand out under a path: no file, a file
    that cannot be opened or parsed, or a document that counts as false
    (such as an empty dictionary). *)
Definition no_artifact (o : option file) : Prop :=
  match o with
  | Some (Document doc) => truthy doc = false
  | _ => True
  end.




(** The order of the members of [DetectionSensitivity], from the least to
    the most sensitive; an absent sensitivity ranks below all of them. *)
Definition sensitivity_rank (s : option DetectionSensitivity) : Z :=
  match s with
  | None => -1
  | Some NORMAL => 0
  | Some HIGH => 1
  | Some VERY_HIGH => 2
  | Some MAXIMUM => 3
  end.

(** [q] asks at least as much of the detector as [p] does. *)
Definition escalates (p q : RetryParameters) : Prop :=
  (confidence_threshold q <= confidence_threshold p)%Q
  /\ sensitivity_rank (detection_sensitivity p) <= sensitivity_rank (detection_sensitivity q)
  /\ (zoom_level p <= zoom_level q)%Q
  /\ (contrast_enhancement p = true -> contrast_enhancement q = true)
  /\ (edge_detection p = true -> edge_detection q = true).



(** The document [_serialize_state] builds for a state without fields. *)
Definition fieldless_document (rt : Runtime) (state : WorkflowState) : json :=
  JDict [("workflowId", JStr (workflow_id state));
         ("documentPath", JStr (document_path state));
         ("documentHash", JStr (document_hash state));
         ("currentPhase", JStr (WorkflowPhase_value (current_phase state)));
         ("phaseHistory", JList (_serialize_phase_progress rt <$> phase_history state));
         ("pages", JList (_serialize_page_info <$> pages state));
         ("detectedFields", JList []); ("validatedFields", JList []);
         ("retryPool", JList []);
         ("outputPaths", output_paths_json (output_paths state));
         ("startedAt", JStr (isoformat rt (ws_started_at state)));
         ("updatedAt", JStr (isoformat rt (updated_at state)));
         ("error", opt_str_json (error state))].

(** A call of one of the methods of [StateManager] that change the
    state, and a sequence of such calls on the manager the orchestrator
    holds. *)
Inductive StateManager_call :=
  | call_start_phase (new_phase : WorkflowPhase) (total_items : Z)
  | call_update_progress (items_completed : Z)
  | call_complete_phase
  | call_set_error (message : string)
  | call_set_document_hash (h : string)
  | call_set_pages (p : list PageInfo)
  | call_set_detected_fields (l : list loc)
  | call_set_validated_fields (validated pool : list loc)
  | call_add_output_path (output_type path : string).

Definition perform (rt : Runtime) (c : StateManager_call) : M unit :=
  match c with
  | call_start_phase new_phase total_items => start_phase rt new_phase total_items
  | call_update_progress items_completed => update_progress rt items_completed
  | call_complete_phase => complete_phase rt
  | call_set_error message => set_error rt message
  | call_set_document_hash h => set_document_hash rt h
  | call_set_pages p => set_pages rt p
  | call_set_detected_fields l => set_detected_fields rt l
  | call_set_validated_fields validated pool => set_validated_fields rt validated pool
  | call_add_output_path output_type path => add_output_path rt output_type path
  end.

Definition perform_all (rt : Runtime) (calls : list StateManager_call) : M unit :=
  for_each calls (perform rt).


(** Every entry of the index is filed under its own document hash. *)
Definition well_keyed (entries : gmap string CacheEntry) : Prop :=
  forall k e, entries !! k = Some e -> ce_document_hash e = k.

(** A field no further visit of the coordinator changes: it is passed,
    or skipped with no attempt left. *)
Definition final (max : Z) (f : DetectedField) : Prop :=
  validation_status f = PASSED
  \/ (validation_status f = SKIPPED /\ max <= retry_count f).

(** Whether the object at an address has a given status, and how many
    entries of a list of addresses do. *)
Definition has_status (h : gmap loc DetectedField) (s : ValidationStatus) (l : loc)
    : bool :=
  match h !! l with
  | Some f => ValidationStatus_eqb (validation_status f) s
  | None => false
  end.

Definition count_status (h : gmap loc DetectedField) (s : ValidationStatus)
    (fields : list loc) : Z :=
  Z.of_nat (length (List.filter (has_status h s) fields)).

(** The order of the sort keys, and the key of the object at an
    address. *)
Definition key_le (a b : Z * Q * Q) : Prop :=
  match a, b with
  | (p1, y1, x1), (p2, y2, x2) =>
      p1 < p2 \/ (p1 = p2 /\ ((y1 < y2)%Q \/ (y1 == y2 /\ (x1 <= x2)%Q)))
  end.

Definition key_eqb (a b : Z * Q * Q) : bool :=
  negb (key_lt a b) && negb (key_lt b a).

Definition key_at (h : gmap loc DetectedField) (l : loc) : Z * Q * Q :=
  match h !! l with
  | Some f => order_key f
  | None => (0, 0%Q, 0%Q)
  end.

(** The objects at a list of addresses. *)
Definition objects_at (h : gmap loc DetectedField) (ls : list loc) : list DetectedField :=
  omap (fun l => h !! l) ls.

(** The hints [assign_ui_hints] computes for a field among the objects of
    a list. *)
Definition hints_for (h : gmap loc DetectedField) (fields : list loc)
    (f : DetectedField) : UIHints :=
  mkUIHints (_determine_label_position f)
            (_find_related_fields f (objects_at h fields)).

(** The fields a part of the hierarchy holds, at any depth. *)
Definition fields_in_subsection (ss : Subsection) : list loc :=
  subsection_fields ss ++ concat (entry_fields <$> entries ss).

Definition fields_in_section (s : Section) : list loc :=
  section_fields s ++ concat (fields_in_subsection <$> subsections s).

Definition fields_in_sections (sections : list Section) : list loc :=
  concat (fields_in_section <$> sections).

(** The object at an address names a given section, subsection and
    entry. *)
Definition placed (h : gmap loc DetectedField) (sec : string) (sub ent : option string)
    (l : loc) : Prop :=
  exists f, h !! l = Some f
            /\ section (hierarchy f) = sec
            /\ subsection (hierarchy f) = sub
            /\ entry (hierarchy f) = ent.

(** Every field of a subsection, respectively of a section, stands where
    its own hierarchy says. *)
Definition subsection_in_place (h : gmap loc DetectedField) (sec : string)
    (ss : Subsection) : Prop :=
  (forall l, l ∈ subsection_fields ss -> placed h sec (Some (subsection_name ss)) None l)
  /\ forall e, e ∈ entries ss ->
       forall l, l ∈ entry_fields e ->
         placed h sec (Some (subsection_name ss)) (Some (entry_name e)) l.

Definition section_in_place (h : gmap loc DetectedField) (s : Section) : Prop :=
  (forall l, l ∈ section_fields s ->
     exists f, h !! l = Some f /\ section (hierarchy f) = section_name s
               /\ subsection (hierarchy f) = None)
  /\ forall ss, ss ∈ subsections s -> subsection_in_place h (section_name s) ss.

(** The first eight digits of the identifier drawn by the [n]-th call of
    [uuid4]. *)
Definition hex8 (rt : Runtime) (n : nat) : string :=
  String.substring 0 8 (uuid4_hex12 rt n).

(** What a call of the builder leaves of the world: the heap, and a
    counter of identifiers that has not gone back. *)
Definition only_draws (w w' : World) : Prop :=
  heap w' = heap w /\ (uuid_calls w <= uuid_calls w')%nat.

(** What [_build_subsection] owes for a group of fields under a name. *)
Definition subsection_built (h : gmap loc DetectedField) (name : string)
    (xs : list loc) (ss : Subsection) : Prop :=
  subsection_name ss = name
  /\ fields_in_subsection ss ≡ₚ xs
  /\ NoDup (entry_name <$> entries ss)
  /\ (forall l, l ∈ subsection_fields ss ->
        exists f, h !! l = Some f /\ entry (hierarchy f) = None)
  /\ forall e, e ∈ entries ss ->
       forall l, l ∈ entry_fields e ->
         exists f, h !! l = Some f /\ entry (hierarchy f) = Some (entry_name e).

Definition entry_built (name : string) (xs : list loc) (e : Entry) : Prop :=
  entry_name e = name /\ entry_fields e = xs.

(** What [_build_section] owes for a group of fields under a name. *)
Definition section_built (h : gmap loc DetectedField) (sid name : string)
    (xs : list loc) (s : Section) : Prop :=
  sec_section_id s = sid
  /\ section_name s = name
  /\ fields_in_section s ≡ₚ xs
  /\ NoDup (subsection_name <$> subsections s)
  /\ (forall l, l ∈ section_fields s ->
        exists f, h !! l = Some f /\ subsection (hierarchy f) = None)
  /\ forall ss, ss ∈ subsections s ->
       exists ys, subsection_built h (subsection_name ss) ys ss
                  /\ forall l, l ∈ ys ->
                       exists f, h !! l = Some f
                                 /\ subsection (hierarchy f) = Some (subsection_name ss).

(** Two heaps hold the same objects up to their section identifiers. *)
Definition restamped (h h' : gmap loc DetectedField) : Prop :=
  forall l f, h !! l = Some f -> exists sid, h' !! l = Some (set_section_id sid f).

(** What the loop of [build_hierarchy] has established once it has built
    the sections of the groups [done], starting from heap [h0] and
    counter [c0]. *)
Definition sections_built (rt : Runtime) (h0 : gmap loc DetectedField) (c0 : nat)
    (done : list (string * list loc)) (sections : list (string * Section))
    (w : World) : Prop :=
  restamped h0 (heap w)
  /\ (forall l, (forall k xs, (k, xs) ∈ done -> l ∉ xs) -> heap w !! l = h0 !! l)
  /\ (c0 <= uuid_calls w)%nat
  /\ NoDup (fst <$> sections)
  /\ Forall2 (fun kx ks =>
                (exists i, (c0 <= i < uuid_calls w)%nat /\ ks.1 = "sec_" +:+ hex8 rt i)
                /\ section_built (heap w) ks.1 kx.1 kx.2 ks.2
                /\ forall l, l ∈ kx.2 -> section_id <$> heap w !! l = Some ks.1)
       done sections.

(** How many fields of a list have a given key, and the sum of the
    counts of a breakdown. *)
Definition count_key (key : DetectedField -> string) (k : string)
    (fields : list DetectedField) : Z :=
  Z.of_nat (length (List.filter (fun f => String.eqb (key f) k) fields)).

Definition total_count (breakdown : gmap string Z) : Z :=
  map_fold (fun _ n acc => n + acc) 0 breakdown.

(** The number a computation returns, 0 if it raises. *)
Definition fst_or_zero (r : result Z * World) : Z := value_or 0 (fst r).

(** ** Example inputs *)

Definition example_field (status : ValidationStatus) : DetectedField :=
  mkDetectedField "field_1" TEXT_INPUT (mkCoordinates 0 0 10 10)
    (mkFieldHierarchy "Section 13" None None None)
    1 (9 # 10) status "" 0 None None 0 None.

(** A runtime around a given service; the collaborators do nothing. *)
Definition example_runtime (svc : nat -> api_outcome) : Runtime :=
  mkRuntime svc (fun n => Z.of_nat n) (fun _ => "2024-01-01T00:00:00")
    (fun _ => Some 0) (fun _ => "0123456789ab")
    {[ "form.pdf" := mkPDFDocument "d41d8cd9" [("page-1", mkPageInfo 1 612 792)] ]}
    (fun p => p) (fun p => p)
    (fun _ _ => ret []) (fun _ => ret tt) (fun _ _ => ret tt) (fun _ => ret tt)
    (fun _ _ => ret "golden.json") (fun _ _ => ret "qa.md") (fun _ _ => ret "metrics.json").

(** A service that always times out, and one that always measures the
    box 0.8 units to the right of where it is expected. *)
Definition service_timeout (n : nat) : api_outcome := TimeoutException.

Definition service_off_by_08 (n : nat) : api_outcome :=
  Response 200 (mkMeasurement true (mkCoordinates (8 # 10) 0 10 10) 1).

(** A service whose first reply is off by 0.8 and whose later replies
    are exact. *)
Definition service_second_try (n : nat) : api_outcome :=
  match n with
  | O => service_off_by_08 n
  | _ => Response 200 (mkMeasurement true (mkCoordinates 0 0 10 10) 1)
  end.

Definition empty_world : World := mkWorld ∅ ∅ 0 0 0 None ∅ [] [].

(** One pending field at address 0. *)
Definition example_world : World :=
  with_heap {[ 0%nat := example_field PENDING ]} empty_world.

Definition example_page_images : gmap Z image := {[ 1 := "page-1" ]}.

(** The default configuration with the tolerance widened to one unit. *)
Definition config_tolerance_1 : DiscoveryConfig :=
  new_DiscoveryConfig default_GLMConfig (mkValidationConfig 1 7 (85 # 100))
    default_CacheConfig default_OutputConfig 3 ∅.

Definition second_try_run :=
  validate_all_fields (example_runtime service_second_try)
    (new_ValidationCoordinator default_DiscoveryConfig) [0%nat]
    example_page_images false 10 example_world.


(** A workflow state that holds the field at address 0 as detected. *)
Definition example_state : WorkflowState :=
  mkWorkflowState "wf_example" "form.pdf" "d41d8cd9" VALIDATION [] [mkPageInfo 1 612 792]
    [0%nat] [] [] ∅ 0 0 None.

Definition example_checkpoints : CheckpointManager :=
  mkCheckpointManager "./checkpoints".

(** A service whose every measurement is exact. *)
Definition service_exact (n : nat) : api_outcome :=
  Response 200 (mkMeasurement true (mkCoordinates 0 0 10 10) 1).

(** A runtime whose detector finds one field on the page. *)
Definition example_runtime_one_field (svc : nat -> api_outcome) : Runtime :=
  mkRuntime svc (fun n => Z.of_nat n) (fun _ => "2024-01-01T00:00:00")
    (fun _ => Some 0) (fun _ => "0123456789ab")
    {[ "form.pdf" := mkPDFDocument "d41d8cd9" [("page-1", mkPageInfo 1 612 792)] ]}
    (fun p => p) (fun p => p)
    (fun _ _ => let* l := alloc_field (example_field PENDING) in ret [l])
    (fun _ => ret tt) (fun _ _ => ret tt) (fun _ => ret tt)
    (fun _ _ => ret "golden.json") (fun _ _ => ret "qa.md") (fun _ _ => ret "metrics.json").

Definition example_workflow : DiscoveryWorkflow :=
  mkDiscoveryWorkflow default_DiscoveryConfig example_checkpoints
    (mkCacheIndex "data/golden-maps" "data/golden-maps/cache-index.json")
    (mkSidecarManager "data/golden-maps").

(** The world at the start of the validation phase of [example_state]. *)
Definition validation_world : World :=
  with_state_manager (Some (mkStateManager example_state None)) example_world.





(** An index that knows the example document although the store holds no
    artifact for it. *)
Definition stale_index_world : World :=
  with_cache_entries
    {[ "d41d8cd9" := mkCacheEntry "cache_000000000000" "d41d8cd9" "form.pdf"
                       "2024-01-01T00:00:00" "golden.json" 0 0 ]}
    empty_world.

(** A storage whose index file is not a JSON text. *)
Definition malformed_index_world : World :=
  with_fs {[ "data/golden-maps/cache-index.json" := Malformed ]} empty_world.

(** A service whose first six replies are 0.8 units off and whose later
    replies are exact. *)
Definition service_seventh_try (n : nat) : api_outcome :=
  if (n <? 6)%nat then service_off_by_08 n else service_exact n.

Definition default_coordinator : ValidationCoordinator :=
  new_ValidationCoordinator default_DiscoveryConfig.

Definition seventh_try_run :=
  _validate_field_with_retry (example_runtime service_seventh_try) default_coordinator
    0%nat "page-1" example_world.


(** One passed field at address 0. *)
Definition passed_world : World :=
  with_heap {[ 0%nat := example_field PASSED ]} empty_world.

(** A state without fields, in the middle of its output phase. *)
Definition fieldless_state : WorkflowState :=
  mkWorkflowState "wf_example" "form.pdf" "d41d8cd9" OUTPUT
    [mkPhaseProgress LOADING (Some 0) (Some 0) 100 1 1 None;
     mkPhaseProgress DETECTION (Some 0) None (1 # 2) 4 2 (Some "interrupted")]
    [mkPageInfo 1 612 792] [] [] [] {[ "goldenMap" := "golden.json" ]} 0 0 None.


(** A short life of a manager: loading starts, makes progress, and
    detection starts while loading is still open; then the run fails. *)
Definition example_calls : list StateManager_call :=
  [call_start_phase LOADING 1; call_update_progress 1;
   call_start_phase DETECTION 4; call_set_error "interrupted"].

Definition example_index : CacheIndex :=
  mkCacheIndex "data/golden-maps" "data/golden-maps/cache-index.json".

Definition example_added :=
  add_entry (example_runtime service_exact) example_index
    "cache_0123456789ab" "0cc175b9" "other.pdf" "other.json" 12 (99 # 100)
    stale_index_world.

(** A service whose first seven replies are 0.8 units off and whose
    later replies are exact; two pending fields; and the validation of
    both under the default configuration: the first field uses up all
    seven attempts, the second passes at once. *)
Definition service_after_seven (n : nat) : api_outcome :=
  if (n <? 7)%nat then service_off_by_08 n else service_exact n.

Definition two_field_world : World :=
  with_heap {[ 0%nat := example_field PENDING; 1%nat := example_field PENDING ]}
    empty_world.

Definition mixed_run :=
  validate_all_fields (example_runtime service_after_seven) default_coordinator
    [0%nat; 1%nat] example_page_images false 10 two_field_world.

Definition mixed_value :=
  value_or (default_coordinator, ([], mkValidationSummary 0 0 0 0 0 0)) (fst mixed_run).

(** Three fields on two pages, listed out of reading order; the first
    two stand at the same place on page 2. *)
Definition field_at (id : string) (page : Z) (x y : Q) : DetectedField :=
  mkDetectedField id TEXT_INPUT (mkCoordinates x y 100 20)
    (mkFieldHierarchy "Section 13" None None None)
    page (9 # 10) PASSED "" 0 None None 1 None.

Definition unordered_world : World :=
  with_heap {[ 0%nat := field_at "field_a" 2 50 100;
               1%nat := field_at "field_b" 2 50 100;
               2%nat := field_at "field_c" 1 300 700 ]} empty_world.

(** Two fields at the same height of page 1 and one on page 2. *)
Definition hints_world : World :=
  with_heap {[ 0%nat := field_at "field_a" 1 50 100;
               1%nat := field_at "field_b" 1 300 120;
               2%nat := field_at "field_c" 2 50 100 ]} empty_world.

(** A runtime whose [n]-th identifier starts with the digits of [n]. *)
Definition uuid_of_call (n : nat) : string := pretty n +:+ "a0000000000".

Definition example_runtime_uuids : Runtime :=
  mkRuntime service_exact (fun n => Z.of_nat n) (fun _ => "2024-01-01T00:00:00")
    (fun _ => Some 0) uuid_of_call
    {[ "form.pdf" := mkPDFDocument "d41d8cd9" [("page-1", mkPageInfo 1 612 792)] ]}
    (fun p => p) (fun p => p)
    (fun _ _ => ret []) (fun _ => ret tt) (fun _ _ => ret tt) (fun _ => ret tt)
    (fun _ _ => ret "golden.json") (fun _ _ => ret "qa.md") (fun _ _ => ret "metrics.json").

(** Four fields: two of an entry of subsection 13A, one directly in that
    subsection, one directly in another section. *)
Definition field_in (id sec : string) (sub ent : option string) : DetectedField :=
  mkDetectedField id TEXT_INPUT (mkCoordinates 0 0 10 10)
    (mkFieldHierarchy sec sub ent None)
    1 (9 # 10) PASSED "" 0 None None 1 None.

Definition hierarchy_world : World :=
  with_heap {[ 0%nat := field_in "field_a" "Section 13" (Some "13A") (Some "Entry 1");
               1%nat := field_in "field_b" "Section 13" (Some "13A") None;
               2%nat := field_in "field_c" "Section 14" None None;
               3%nat := field_in "field_d" "Section 13" (Some "13A") (Some "Entry 1") ]}
    empty_world.

Definition hierarchy_run :=
  HierarchyBuilder.build_hierarchy example_runtime_uuids (HierarchyBuilder.mk [])
    [0%nat; 1%nat; 2%nat; 3%nat] hierarchy_world.

Definition hierarchy_value :=
  value_or (HierarchyBuilder.mk [], []) (fst hierarchy_run).

(** A storage that holds a golden map written by an earlier run. *)
Definition example_golden_map : json :=
  JDict [("documentId", JStr "d41d8cd9"); ("documentName", JStr "form.pdf");
         ("allFields", JList [])].

Definition golden_map_world : World :=
  with_fs {[ "golden.json" := Document example_golden_map ]} empty_world.

(** A cache that knows the example document and holds its golden map. *)
Definition cached_world : World :=
  with_fs {[ "data/golden-maps/d41d8cd9.json" := Document example_golden_map ]}
    stale_index_world.

(** The manager of [fieldless_state], idle. *)
Definition idle_world : World :=
  with_state_manager (Some (mkStateManager fieldless_state None)) empty_world.

(** ** Theorems: tolerance checker *)

Lemma Qlt_bool_spec (a b : Q) : Qlt_bool a b = true <-> (a < b)%Q.
Proof.
  unfold Qlt_bool. rewrite negb_true_iff.
  destruct (Qle_bool b a) eqn:E.
  - apply Qle_bool_iff in E. split; [discriminate|].
    intros H. exfalso. apply (Qlt_not_le _ _ H E).
  - split; [intros _|reflexivity].
    apply Qnot_le_lt. intros H. apply Qle_bool_iff in H. congruence.
Qed.





(** ** Theorems: reasoning about computations *)

Lemma bind_inv {A B} (m : M A) (k : A -> M B) (w w' : World) (r : result B) :
  bind m k w = (r, w') ->
  (exists a w1, m w = (Ok a, w1) /\ k a w1 = (r, w'))
  \/ (exists e, m w = (Raise e, w') /\ r = Raise e).
Proof.
  unfold bind. destruct (m w) as [[a|e] w1]; intros H.
  - left. eauto.
  - right. inversion H; subst. eauto.
Qed.

Lemma bind_ok_inv {A B} (m : M A) (k : A -> M B) (w w' : World) (b : B) :
  bind m k w = (Ok b, w') ->
  exists a w1, m w = (Ok a, w1) /\ k a w1 = (Ok b, w').
Proof.
  intros H. apply bind_inv in H as [H|[e [_ H]]]; [exact H|discriminate].
Qed.

Lemma bind_of_ok {A B} (m : M A) (k : A -> M B) (w w1 : World) (a : A) :
  m w = (Ok a, w1) -> bind m k w = k a w1.
Proof. unfold bind. intros ->. reflexivity. Qed.

Lemma bind_of_raise {A B} (m : M A) (k : A -> M B) (w w1 : World) (e : exn) :
  m w = (Raise e, w1) -> bind m k w = (Raise e, w1).
Proof. unfold bind. intros ->. reflexivity. Qed.

Lemma read_field_some (l : loc) (f : DetectedField) (w : World) :
  heap w !! l = Some f -> read_field l w = (Ok f, w).
Proof. unfold read_field. intros ->. reflexivity. Qed.

Lemma read_field_inv (l : loc) (w w' : World) (r : result DetectedField) :
  read_field l w = (r, w') ->
  w' = w /\ ((exists f, r = Ok f /\ heap w !! l = Some f)
             \/ (r = Raise Dangling /\ heap w !! l = None)).
Proof.
  unfold read_field. destruct (heap w !! l) as [f|]; intros H; inversion H; subst;
    split; eauto.
Qed.

Lemma ValidationStatus_eqb_eq (a b : ValidationStatus) :
  ValidationStatus_eqb a b = true <-> a = b.
Proof. destruct a, b; simpl; split; congruence. Qed.

(** ** Theorems: validation coordinator *)



Lemma wants_retry_fuel (max : Z) (f : DetectedField) :
  wants_retry max f = true ->
  exists n, Z.to_nat (max - retry_count f) = S n
            /\ n = Z.to_nat (max - (retry_count f + 1)).
Proof.
  unfold wants_retry. rewrite andb_true_iff, Z.ltb_lt. intros [_ Hlt].
  exists (Z.to_nat (max - (retry_count f + 1))). split; [lia|reflexivity].
Qed.






Lemma write_field_eq l f w : write_field l f w = (Ok tt, with_heap (<[l := f]> (heap w)) w).
Proof. reflexivity. Qed.

Lemma validate_coordinates_heap rt img l p w r w' :
  validate_coordinates rt img l p w = (r, w') -> heap w' = heap w.
Proof.
  unfold validate_coordinates, _call_api, bind, ret, read_field.
  destruct (service rt (api_calls w)) as [| |c reply]; cbn.
  1,2: intros [= _ <-]; reflexivity.
  destruct (negb (c =? 200)); cbn; [intros [= _ <-]; reflexivity|].
  destruct (negb (m_exists reply)); cbn; [intros [= _ <-]; reflexivity|].
  destruct (heap w !! l); cbn; intros [= _ <-]; reflexivity.
Qed.


Lemma should_retry_inv self field w r w' :
  should_retry self field w = (r, w') ->
  w' = w /\ ((exists f, heap w !! field = Some f /\ r = Ok (wants_retry (_max_attempts self) f))
             \/ (heap w !! field = None /\ r = Raise Dangling)).
Proof.
  unfold should_retry, bind, read_field, ret.
  destruct (heap w !! field) as [f|]; intros [= <- <-]; split; eauto.
Qed.



Lemma add_to_retry_pool_inv e field w r w' :
  add_to_retry_pool e field w = (r, w') ->
  (exists f, heap w !! field = Some f
             /\ r = Ok (mkRetryEngine (_max_attempts e) (_parameters e) (_retry_pool e ++ [field]))
             /\ w' = with_heap (<[field := set_validation_status SKIPPED f]> (heap w)) w)
  \/ (heap w !! field = None /\ r = Raise Dangling /\ w' = w).
Proof.
  unfold add_to_retry_pool, bind, read_field, write_field, modify, ret.
  destruct (heap w !! field) as [f|]; intros [= <- <-]; eauto.
Qed.

Lemma report_batch_inv n_fields cb batch_size idx t w r w' :
  report_batch n_fields cb batch_size idx t w = (r, w') -> heap w' = heap w.
Proof.
  unfold report_batch.
  destruct cb; [|intros [= _ <-]; reflexivity].
  destruct (batch_size =? 0); [intros [= _ <-]; reflexivity|].
  destruct ((idx + 1) mod batch_size =? 0); intros [= _ <-]; reflexivity.
Qed.







Lemma same_pages_refl h : same_pages h h.
Proof. intros l f Hf. eauto. Qed.


Lemma same_pages_insert h l f g :
  h !! l = Some f -> page_number g = page_number f -> same_pages h (<[l := g]> h).
Proof.
  intros Hf Hp l' f' Hf'. destruct (decide (l' = l)) as [->|Hne].
  - rewrite lookup_insert_eq. exists g. split; [reflexivity|congruence].
  - rewrite lookup_insert_ne by congruence. eauto.
Qed.

Lemma loop_exit_completes field w f :
  heap w !! field = Some f ->
  exists res w', loop_exit field w = (Ok res, w')
                 /\ fvr_field res = field
                 /\ same_pages (heap w) (heap w').
Proof.
  intros Hf. unfold loop_exit, bind, read_field. rewrite Hf.
  destruct (negb _); cbn; eexists _, _; (split; [reflexivity|]);
    (split; [reflexivity|]); cbn.
  - now apply (same_pages_insert _ _ f).
  - apply same_pages_refl.
Qed.








Lemma validate_coordinates_inv rt img l p w r w' f :
  validate_coordinates rt img l p w = (r, w') ->
  heap w !! l = Some f ->
  heap w' = heap w
  /\ ((exists out, r = Ok out) \/ (exists code, r = Raise (VisionAPIError code))).
Proof.
  unfold validate_coordinates, _call_api, bind, ret, read_field. intros H Hf.
  destruct (service rt (api_calls w)) as [| |c reply]; cbn in H.
  1,2: injection H as <- <-; split; [reflexivity|right; eauto].
  destruct (negb (c =? 200)); cbn in H; [injection H as <- <-; split; [reflexivity|right; eauto]|].
  destruct (negb (m_exists reply)); cbn in H; [injection H as <- <-; split; [reflexivity|left; eauto]|].
  rewrite Hf in H. injection H as <- <-. split; [reflexivity|left; eauto].
Qed.

(** The bound handed to the loop by [_validate_field_with_retry] is never
    exhausted. *)
Lemma retry_loop_fuel_suffices rt self field img :
  forall fuel w f r w',
  heap w !! field = Some f ->
  (Z.to_nat (_max_attempts (_retry_engine self) - retry_count f) <= fuel)%nat ->
  retry_loop fuel rt self field img w = (r, w') ->
  r <> Raise OutOfFuel.
Proof.
  induction fuel as [|fuel IH]; intros w f r w' Hf Hfuel H; cbn [retry_loop] in H;
    unfold should_retry in H;
    rewrite (bind_of_ok _ _ w w (wants_retry (_max_attempts (_retry_engine self)) f)) in H
      by (rewrite (bind_of_ok _ _ _ _ _ (read_field_some _ _ _ Hf)); reflexivity);
    destruct (wants_retry _ f) eqn:Hw.
  - destruct (wants_retry_fuel _ _ Hw) as (n & Hn & _). lia.
  - destruct (loop_exit_completes field w f Hf) as (res & w1 & He & _). congruence.
  - rewrite (bind_of_ok _ _ _ _ _ (read_field_some _ _ _ Hf)) in H.
    apply bind_inv in H as [(out & w1 & Hv & H)|(e & Hv & ->)].
    2:{ apply (validate_coordinates_inv _ _ _ _ _ _ _ f) in Hv as [_ [[out ?]|[code ?]]];
          [discriminate| |exact Hf]. congruence. }
    destruct out as [[passed measured] difference].
    apply (validate_coordinates_inv _ _ _ _ _ _ _ f) in Hv as [Hheap _]; [|exact Hf].
    assert (Hf1 : heap w1 !! field = Some f) by now rewrite Hheap.
    rewrite (bind_of_ok _ _ _ _ _ (read_field_some _ _ _ Hf1)) in H.
    rewrite (bind_of_ok _ _ _ _ _ (write_field_eq _ _ _)) in H.
    destruct passed.
    + rewrite (bind_of_ok _ _ _ _ _ (read_field_some _ _ _ (lookup_insert_eq _ _ _))) in H.
      rewrite (bind_of_ok _ _ _ _ _ (write_field_eq _ _ _)) in H.
      injection H as <- _. discriminate.
    + eapply IH; [| |exact H].
      * cbn. apply lookup_insert_eq.
      * cbn. destruct (wants_retry_fuel _ _ Hw) as (n & Hn & Hn'). lia.
  - destruct (loop_exit_completes field w f Hf) as (res & w1 & He & _). congruence.
Qed.

(** C6, at the failing input.  The configured tolerance is 1 unit and
    every measurement is 0.8 units off: [ToleranceChecker.check] with the
    configured tolerance accepts the measurement, yet the coordinator
    uses all seven attempts and leaves the field skipped, because
    [validate_coordinates] compares with the constant 0.5. *)
Theorem configured_tolerance_is_ignored :
  let self := new_ValidationCoordinator config_tolerance_1 in
  let run := _validate_field_with_retry (example_runtime service_off_by_08) self
               0%nat "page-1" example_world in
  _tolerance_checker self = tolerance (validation config_tolerance_1)
  /\ check (_tolerance_checker self) (coordinates (example_field PENDING))
       (mkCoordinates (8 # 10) 0 10 10) = (true, 8 # 10)
  /\ fst run = Ok (mkFieldValidationResult 0%nat false)
  /\ validation_status <$> (heap (snd run) !! 0%nat) = Some SKIPPED
  /\ retry_count <$> (heap (snd run) !! 0%nat) = Some 7
  /\ ev_difference <$> (heap (snd run) !! 0%nat ≫= validation_evidence) = Some (Fin (8 # 10)).
Proof. vm_compute. repeat split; reflexivity. Qed.

Example second_try_passes :
  let run := second_try_run in
  validation_status <$> (heap (snd run) !! 0%nat) = Some PASSED
  /\ retry_count <$> (heap (snd run) !! 0%nat) = Some 2.
Proof. vm_compute. split; reflexivity. Qed.

(** ** Theorems: checkpoint manager *)

Lemma _serialize_field_raises (field : DetectedField) :
  _serialize_field field = Raise (AttributeError "DetectedField" "tab_index").
Proof. reflexivity. Qed.

Lemma _deserialize_field_raises (data : json) : is_ok (_deserialize_field data) = false.
Proof.
  unfold _deserialize_field, bind_result.
  repeat match goal with
         | |- is_ok (match ?r with Ok _ => _ | Raise _ => _ end) = false =>
             destruct r; [|reflexivity]
         end.
  reflexivity.
Qed.

Lemma serialize_fields_nil (w : World) : serialize_fields [] w = (Ok (JList []), w).
Proof. reflexivity. Qed.

Lemma serialize_fields_raises (l : loc) (rest : list loc) (w : World) :
  is_Some (heap w !! l) ->
  serialize_fields (l :: rest) w = (Raise (AttributeError "DetectedField" "tab_index"), w).
Proof.
  intros [f Hf]. unfold serialize_fields. cbn [map_M].
  unfold bind, read_field, lift. rewrite Hf. reflexivity.
Qed.

Lemma _serialize_state_raises (rt : Runtime) (state : WorkflowState) (w : World) :
  holds_a_field state = true ->
  (forall l, l ∈ detected_fields state ++ validated_fields state ++ retry_pool state ->
             is_Some (heap w !! l)) ->
  _serialize_state rt state w = (Raise (AttributeError "DetectedField" "tab_index"), w).
Proof.
  unfold holds_a_field, _serialize_state. intros Hne Halloc.
  destruct (detected_fields state) as [|l1 r1].
  - rewrite (bind_of_ok _ _ _ _ _ (serialize_fields_nil w)).
    destruct (validated_fields state) as [|l2 r2].
    + rewrite (bind_of_ok _ _ _ _ _ (serialize_fields_nil w)).
      destruct (retry_pool state) as [|l3 r3]; [discriminate|].
      apply bind_of_raise, serialize_fields_raises, Halloc. cbn. left.
    + apply bind_of_raise, serialize_fields_raises, Halloc. cbn. left.
  - apply bind_of_raise, serialize_fields_raises, Halloc. cbn. left.
Qed.

(** Saving any state that holds a field fails, and writes nothing. *)
Lemma save_checkpoint_raises (rt : Runtime) (self : CheckpointManager)
    (manager : StateManager) (w : World) :
  holds_a_field (_state manager) = true ->
  (forall l, l ∈ detected_fields (_state manager) ++ validated_fields (_state manager)
                 ++ retry_pool (_state manager) -> is_Some (heap w !! l)) ->
  save_checkpoint rt self manager w
  = (Raise (CheckpointError "save" (workflow_id (_state manager))
              (AttributeError "DetectedField" "tab_index")), w).
Proof.
  intros Hne Halloc. unfold save_checkpoint, try_except.
  rewrite (bind_of_raise _ _ _ _ _ (_serialize_state_raises rt _ w Hne Halloc)).
  reflexivity.
Qed.

(** C1, at the failing input.  A state with one detected field cannot be
    saved: [save_checkpoint] raises [CheckpointError], because
    [_serialize_field] reads attributes that [DetectedField] does not
    have; no file is written, so [load_checkpoint] finds nothing; and no
    serialized field can be read back either, whatever the document. *)
Theorem checkpoint_round_trip_fails_with_a_field :
  let rt := example_runtime service_timeout in
  let saved := save_checkpoint rt example_checkpoints
                 (mkStateManager example_state None) example_world in
  fst saved = Raise (CheckpointError "save" "wf_example"
                       (AttributeError "DetectedField" "tab_index"))
  /\ fs (snd saved) = ∅
  /\ fst (load_checkpoint rt example_checkpoints "wf_example" (snd saved)) = Ok None
  /\ is_ok (_deserialize_field
              (JDict [("fieldId", JStr "field_1"); ("fieldType", JStr "text-input");
                      ("coordinates", asdict_Coordinates (mkCoordinates 0 0 10 10));
                      ("hierarchy", asdict_FieldHierarchy
                                      (mkFieldHierarchy "Section 13" None None None));
                      ("pageNumber", JInt 1); ("confidenceScore", JFloat (9 # 10));
                      ("validationStatus", JStr "pending"); ("cssCoordinates", JNull);
                      ("renderOrder", JInt 0); ("retryCount", JInt 0)])) = false.
Proof. vm_compute. repeat split; reflexivity. Qed.

(** ** Theorems: validation phase of the workflow *)

Lemma filter_M_first_raises {A} (cond : A -> M bool) (x : A) (rest : list A)
    (w w' : World) (e : exn) :
  cond x w = (Raise e, w') -> filter_M cond (x :: rest) w = (Raise e, w').
Proof. intros H. cbn [filter_M]. now apply bind_of_raise. Qed.

Lemma status_is_validated_raises (l : loc) (w : World) :
  exists e,
    (let* f := read_field l in
     let* wanted := lift (ValidationStatus_member "VALIDATED") in
     ret (ValidationStatus_eqb (validation_status f) wanted)) w = (Raise e, w).
Proof.
  unfold bind, read_field, lift. destruct (heap w !! l); cbn; eauto.
Qed.

(** With at least one detected field the validation phase never
    completes: whenever the coordinator returns, the comprehension that
    selects the validated fields raises. *)
Lemma _phase_validation_raises_with_fields (rt : Runtime) (self : DiscoveryWorkflow)
    (w w' : World) (sm : StateManager) (r : result unit) :
  state_manager w = Some sm ->
  detected_fields (_state sm) <> [] ->
  _phase_validation rt self w = (r, w') ->
  exists e, r = Raise e.
Proof.
  intros Hsm Hne H. unfold _phase_validation in H.
  assert (Hget : the_state_manager "state" w = (Ok sm, w)).
  { unfold the_state_manager. now rewrite Hsm. }
  rewrite (bind_of_ok _ _ _ _ _ Hget) in H.
  do 4 (apply bind_inv in H as [(? & ? & _ & H)|(? & _ & ->)]; [|eauto]).
  destruct (detected_fields (_state sm)) as [|l rest]; [congruence|].
  match type of H with
  | bind (filter_M ?c _) _ ?w0 = _ =>
      destruct (status_is_validated_raises l w0) as [e He];
      rewrite (bind_of_raise _ _ _ _ _ (filter_M_first_raises c l rest w0 w0 e He)) in H
  end.
  injection H as <- _. eauto.
Qed.

(** C3, at the failing input.  One detected field whose measurements are
    always 0.8 units off exhausts its seven attempts and is skipped by the
    coordinator; then [_phase_validation] raises [AttributeError] on
    [ValidationStatus.VALIDATED], before the workflow state receives the
    validated fields or the retry pool.  A whole run over a document with
    one such field is aborted: the handler of [run] marks the state
    errored and the run ends in an exception. *)
Theorem validation_phase_aborts_the_run :
  let phase_run := _phase_validation (example_runtime service_off_by_08)
                     example_workflow validation_world in
  let whole_run := run (example_runtime_one_field service_off_by_08)
                     example_workflow "form.pdf" None empty_world in
  fst phase_run = Raise (AttributeError "ValidationStatus" "VALIDATED")
  /\ validation_status <$> (heap (snd phase_run) !! 0%nat) = Some SKIPPED
  /\ retry_count <$> (heap (snd phase_run) !! 0%nat) = Some 7
  /\ (fun sm => retry_pool (_state sm)) <$> state_manager (snd phase_run) = Some []
  /\ is_ok (fst whole_run) = false
  /\ (fun sm => current_phase (_state sm)) <$> state_manager (snd whole_run) = Some ERROR
  /\ (fun sm => error (_state sm)) <$> state_manager (snd whole_run)
     = Some (Some "ValidationStatus object has no attribute VALIDATED").
Proof. vm_compute. repeat split; reflexivity. Qed.

(** ** Theorems: resume *)


Lemma now_fs (rt : Runtime) (w w' : World) (r : result datetime) :
  now rt w = (r, w') -> fs w' = fs w.
Proof. unfold now. intros H. cbv beta in H. inversion H. reflexivity. Qed.



(** Resuming an identifier that has no checkpoint raises and changes
    nothing. *)
Lemma resume_without_checkpoint (rt : Runtime) (self : DiscoveryWorkflow) (wid : string)
    (w : World) :
  fs w !! checkpoint_path (_checkpoint_folder (_checkpoint_manager self)) wid = None ->
  resume rt self wid w
  = (Raise (new_WorkflowStateError ["resume"; "Checkpoint not found: " +:+ wid]), w).
Proof.
  intros Habsent. unfold resume, load_checkpoint, bind, gets. rewrite Habsent. reflexivity.
Qed.





(** ** Theorems: cache *)

Lemma retrieve_golden_map_inv (self : SidecarManager) (hash : string) (w : World) :
  retrieve_golden_map self hash w
  = (Ok (match fs w !! sidecar_path self hash with
         | Some (Document doc) => Some doc
         | _ => None
         end), w).
Proof.
  unfold retrieve_golden_map, bind, gets.
  destruct (fs w !! sidecar_path self hash) as [[| |doc]|]; reflexivity.
Qed.

(** C8. Looking up the cache for a document whose hash the index does not
    know, or whose hash the index knows while the store has no artifact
    to hand out for it, is a miss: [_check_cache] returns [None] without
    raising and leaves everything as it was (so [run] goes on with the
    loading phase). *)
Theorem cache_lookup_miss_is_not_an_error
    (rt : Runtime) (self : DiscoveryWorkflow) (pdf_path : string) (doc : PDFDocument)
    (w : World)
    (Hdoc : pdf_documents rt !! pdf_path = Some doc)
    (Hpages : rendered_pages doc <> [])
    (Hmiss : cache_entries w !! md5_hash doc = None
             \/ no_artifact (fs w !! sidecar_path (_sidecar_manager self) (md5_hash doc))) :
  _check_cache rt self pdf_path w = (Ok None, w).
Proof.
  unfold _check_cache.
  destruct (negb (enabled (cache (wf_config self)))); [reflexivity|].
  assert (Hopen : open_pdf rt pdf_path w = (Ok doc, w)).
  { unfold open_pdf. rewrite Hdoc. destruct (rendered_pages doc); [congruence|reflexivity]. }
  rewrite (bind_of_ok _ _ _ _ _ Hopen).
  unfold get_entry. unfold bind at 1. unfold gets.
  destruct (cache_entries w !! md5_hash doc) as [e|] eqn:He; [|reflexivity].
  destruct Hmiss as [Hmiss|Hmiss]; [discriminate|].
  rewrite (bind_of_ok _ _ _ _ _ (retrieve_golden_map_inv _ _ w)).
  destruct (fs w !! sidecar_path (_sidecar_manager self) (md5_hash doc)) as [[| |d]|];
    try reflexivity.
  cbn in Hmiss. rewrite Hmiss. reflexivity.
Qed.

Lemma cache_lookup_miss_is_not_an_error_witness :
  _check_cache (example_runtime service_exact) example_workflow "form.pdf"
    stale_index_world = (Ok None, stale_index_world).
Proof.
  apply (cache_lookup_miss_is_not_an_error (example_runtime service_exact)
           example_workflow "form.pdf"
           (mkPDFDocument "d41d8cd9" [("page-1", mkPageInfo 1 612 792)])
           stale_index_world).
  - vm_compute. reflexivity.
  - discriminate.
  - right. vm_compute. exact I.
Defined.

Lemma entry_of_json_of_entry (e : CacheEntry) : entry_of_json (json_of_entry e) = Ok e.
Proof. destruct e. reflexivity. Qed.















(** A malformed index file in the example storage: the index starts
    empty. *)
Example malformed_index_is_empty :
  let started := new_DiscoveryWorkflow default_DiscoveryConfig malformed_index_world in
  is_ok (fst started) = true /\ cache_entries (snd started) = ∅.
Proof. vm_compute. split; reflexivity. Qed.

(** ** Theorems: the retry loop, attempt by attempt *)











(** X3. A field that is already passed is left as it is: no call is made
    and nothing changes. *)
Theorem passed_field_is_left_alone
    (rt : Runtime) (self : ValidationCoordinator) (field : loc) (img : image)
    (w : World) (f : DetectedField)
    (Hfield : heap w !! field = Some f)
    (Hstatus : validation_status f = PASSED) :
  _validate_field_with_retry rt self field img w
  = (Ok (mkFieldValidationResult field false), w).
Proof.
  unfold _validate_field_with_retry.
  rewrite (bind_of_ok _ _ _ _ _ (read_field_some _ _ _ Hfield)).
  assert (Hw : wants_retry (_max_attempts (_retry_engine self)) f = false)
    by (unfold wants_retry; now rewrite Hstatus).
  destruct (Z.to_nat _); cbn [retry_loop]; unfold should_retry;
    rewrite (bind_of_ok _ _ w w (wants_retry (_max_attempts (_retry_engine self)) f))
      by (rewrite (bind_of_ok _ _ _ _ _ (read_field_some _ _ _ Hfield)); reflexivity);
    rewrite Hw; unfold loop_exit;
    rewrite (bind_of_ok _ _ _ _ _ (read_field_some _ _ _ Hfield));
    rewrite Hstatus; reflexivity.
Qed.

Lemma passed_field_is_left_alone_witness :
  _validate_field_with_retry (example_runtime service_timeout) default_coordinator
    0%nat "page-1" passed_world
  = (Ok (mkFieldValidationResult 0%nat false), passed_world).
Proof.
  apply (passed_field_is_left_alone (example_runtime service_timeout) default_coordinator
           0%nat "page-1" passed_world (example_field PASSED)); reflexivity.
Defined.

(** The scenario of the specification: the field fails tolerance at
    attempts 1 to 6 and passes at attempt 7. *)
Example seventh_attempt_passes :
  validation_status <$> (heap (snd seventh_try_run) !! 0%nat) = Some PASSED
  /\ retry_count <$> (heap (snd seventh_try_run) !! 0%nat) = Some 7.
Proof. vm_compute. split; reflexivity. Qed.

(** ** Theorems: the retry schedule *)

Lemma _default_retry_parameters_keys i p :
  _default_retry_parameters !! i = Some p -> 1 <= i <= 7.
Proof.
  intros H. apply elem_of_list_to_map_2 in H.
  repeat (apply elem_of_cons in H as [H|H]; [injection H as -> _; lia|]).
  now apply elem_of_nil in H.
Qed.

(** X5. The default schedule has an entry for each of the attempts 1 to 7
    and for no other, and a later attempt never asks less than an earlier
    one: the confidence threshold does not rise, the sensitivity and the
    zoom do not fall, and an enhancement once on stays on. *)
Theorem default_schedule_escalates (i j : Z) (p q : RetryParameters)
  (Hi : _default_retry_parameters !! i = Some p)
  (Hj : _default_retry_parameters !! j = Some q)
  (Hij : i <= j) : escalates p q.
Proof.
  apply elem_of_list_to_map_2 in Hi. apply elem_of_list_to_map_2 in Hj.
  repeat (apply elem_of_cons in Hi as [Hi|Hi]; [injection Hi as -> ->|]);
    try (now apply elem_of_nil in Hi);
    repeat (apply elem_of_cons in Hj as [Hj|Hj]; [injection Hj as -> ->|]);
    try (now apply elem_of_nil in Hj);
    try lia;
    (unfold escalates, Qle; cbn; repeat split; (lia || congruence)).
Qed.

Lemma default_schedule_escalates_witness :
  escalates (mkRetryParameters (90 # 100) (Some HIGH) 1 false false)
            (mkRetryParameters (70 # 100) (Some MAXIMUM) (5 # 2) true false).
Proof.
  apply (default_schedule_escalates 2 6); [reflexivity | reflexivity | lia].
Defined.

Lemma default_schedule_covers_attempts (i : Z) :
  is_Some (_default_retry_parameters !! i) <-> 1 <= i <= 7.
Proof.
  split.
  - intros [p Hp]. exact (_default_retry_parameters_keys i p Hp).
  - intros Hi.
    assert (i = 1 \/ i = 2 \/ i = 3 \/ i = 4 \/ i = 5 \/ i = 6 \/ i = 7) as H by lia.
    repeat (destruct H as [->|H]; [eexists; reflexivity|]). subst. eexists; reflexivity.
Qed.

(** X6. With the default configuration, an attempt number outside 1 to 7
    is given the parameters of attempt 7, the last attempt allowed. *)
Theorem default_engine_falls_back_to_last_attempt (attempt : Z)
  (Hout : attempt < 1 \/ 7 < attempt) :
  get_parameters_for_attempt (_retry_engine default_coordinator) attempt
  = mkRetryParameters (65 # 100) (Some MAXIMUM) 3 true true.
Proof.
  unfold get_parameters_for_attempt.
  change (_parameters (_retry_engine default_coordinator)) with _default_retry_parameters.
  destruct (_default_retry_parameters !! attempt) as [p|] eqn:Hp.
  - apply _default_retry_parameters_keys in Hp. lia.
  - reflexivity.
Qed.

Lemma default_engine_falls_back_to_last_attempt_witness :
  get_parameters_for_attempt (_retry_engine default_coordinator) 8
  = mkRetryParameters (65 # 100) (Some MAXIMUM) 3 true true.
Proof. apply (default_engine_falls_back_to_last_attempt 8). right. lia. Defined.

(** ** Theorems: checkpoints of states without fields *)















(** ** Theorems: the state manager *)



Lemma prefix_snoc {A} (l : list A) (x : A) : l `prefix_of` l ++ [x].
Proof. now exists [x]. Qed.

#[local] Hint Resolve prefix_snoc : core.




(** The calls of the example leave two more records in the history: the
    loading phase closed when detection started, and the detection phase
    closed by the error, which it carries. *)
Example example_calls_history :
  let rt := example_runtime service_timeout in
  let w := with_state_manager (Some (mkStateManager fieldless_state None)) empty_world in
  (fun sm => (current_phase (_state sm), error (_state sm),
              (fun p => (phase p, error_message p)) <$> phase_history (_state sm)))
    <$> state_manager (snd (perform_all rt example_calls w))
  = Some (ERROR, Some "interrupted",
          [(LOADING, None); (DETECTION, Some "interrupted");
           (LOADING, None); (DETECTION, Some "interrupted")]).
Proof. vm_compute. reflexivity. Qed.

(** ** Theorems: the cache index and its file *)

Lemma load_entries_spec (l : list (string * CacheEntry)) (w : World) :
  NoDup l.*1 ->
  (forall kv, kv ∈ l -> ce_document_hash kv.2 = kv.1) ->
  for_each ((fun kv => json_of_entry kv.2) <$> l)
    (fun entry_data =>
       let* e := lift (entry_of_json entry_data) in
       modify (fun w =>
         with_cache_entries (<[ce_document_hash e := e]> (cache_entries w)) w)) w
  = (Ok tt, with_cache_entries (list_to_map l ∪ cache_entries w) w).
Proof.
  revert w. induction l as [|[k e] l IH]; intros w Hnd Hk.
  - cbn. rewrite (left_id_L ∅ (∪)). destruct w; reflexivity.
  - cbn [fmap list_fmap for_each]. unfold bind at 1. unfold bind at 1. unfold lift.
    cbn [snd]. rewrite entry_of_json_of_entry. unfold modify.
    assert (He : ce_document_hash e = k) by apply (Hk (k, e)), list_elem_of_here.
    cbn [fst snd]. rewrite He.
    apply NoDup_cons in Hnd as [Hnotin Hnd].
    rewrite IH; [|exact Hnd|intros kv Hkv; apply Hk; now apply list_elem_of_further].
    f_equal. unfold with_cache_entries. destruct w; cbn. f_equal.
    rewrite <- insert_union_l, insert_union_r; [reflexivity|].
    now apply not_elem_of_list_to_map_1.
Qed.

Lemma well_keyed_insert (entries : gmap string CacheEntry) (e : CacheEntry) :
  well_keyed entries -> well_keyed (<[ce_document_hash e := e]> entries).
Proof.
  intros H k e' Hk. apply lookup_insert_Some in Hk as [[<- <-]|[_ Hk]]; [reflexivity|].
  now apply H.
Qed.

(** A new index over a folder whose index file lists the entries of a
    well keyed mapping holds that mapping. *)
Lemma new_CacheIndex_reads_entries (folder : string) (stamp : json)
    (entries : gmap string CacheEntry) (w : World) :
  well_keyed entries ->
  fs w !! (folder +:+ "/" +:+ "cache-index.json")
  = Some (Document (JDict [("lastUpdated", stamp);
                           ("entries", JList ((fun kv => json_of_entry kv.2)
                                              <$> map_to_list entries))])) ->
  new_CacheIndex folder w
  = (Ok (mkCacheIndex folder (folder +:+ "/" +:+ "cache-index.json")),
     with_cache_entries entries w).
Proof.
  intros Hkeys Hfile. unfold new_CacheIndex, _load_index.
  unfold bind at 1. unfold modify at 1. unfold bind at 1. unfold bind at 1.
  unfold gets. cbn [_index_path].
  replace (fs (with_cache_entries ∅ w) !! (folder +:+ "/" +:+ "cache-index.json"))
    with (fs w !! (folder +:+ "/" +:+ "cache-index.json")) by (destruct w; reflexivity).
  rewrite Hfile. unfold try_except, read_json. unfold bind at 1. unfold ret at 1.
  unfold bind at 1. unfold lift at 1. cbn [get_or members_lookup String.eqb]. 
  cbn -[for_each map_to_list fmap].
  rewrite load_entries_spec.
  - unfold ret. f_equal. unfold with_cache_entries. destruct w; cbn. f_equal.
    now rewrite (right_id_L ∅ (∪)), list_to_map_to_list.
  - apply NoDup_fst_map_to_list.
  - intros [k e] Hin. apply elem_of_map_to_list in Hin. now apply Hkeys.
Qed.

(** X9. What [add_entry] puts into the index is found by [get_entry],
    leaves the other entries alone, and is in the index file: when every
    entry is filed under its own hash, a new [CacheIndex] over the same
    folder reads back exactly the entries the index held after the
    call. *)
Theorem cache_index_reloads_what_it_saved (rt : Runtime) (folder : string)
    (cache_id document_hash document_name golden_map_path : string)
    (field_count : Z) (accuracy_score : Q) (w : World)
    (Hkeys : well_keyed (cache_entries w)) :
  let self := mkCacheIndex folder (folder +:+ "/" +:+ "cache-index.json") in
  let added := add_entry rt self cache_id document_hash document_name golden_map_path
                 field_count accuracy_score w in
  let e := mkCacheEntry cache_id document_hash document_name
             (isoformat rt (now_at rt (clock w))) golden_map_path field_count
             accuracy_score in
  fst added = Ok tt
  /\ get_entry document_hash (snd added) = (Ok (Some e), snd added)
  /\ (forall other, other <> document_hash ->
        cache_entries (snd added) !! other = cache_entries w !! other)
  /\ new_CacheIndex folder (snd added) = (Ok self, snd added).
Proof.
  intros self added e.
  assert (Hadded : added
    = (Ok tt,
       with_fs (<[folder +:+ "/" +:+ "cache-index.json" :=
                   Document (JDict [("lastUpdated",
                                     JStr (isoformat rt (now_at rt (S (clock w)))));
                                    ("entries",
                                     JList ((fun kv => json_of_entry kv.2)
                                            <$> map_to_list
                                                  (<[document_hash := e]> (cache_entries w))))])]>
                  (fs w))
         (with_cache_entries (<[document_hash := e]> (cache_entries w))
            (with_clock (S (S (clock w))) w)))).
  { subst added self e. destruct w. reflexivity. }
  rewrite Hadded. cbn [fst snd]. split; [reflexivity|]. split; [|split].
  - unfold get_entry, gets. destruct w; cbn. now rewrite lookup_insert_eq.
  - intros other Hother. destruct w; cbn. now rewrite lookup_insert_ne.
  - rewrite (new_CacheIndex_reads_entries folder
               (JStr (isoformat rt (now_at rt (S (clock w)))))
               (<[document_hash := e]> (cache_entries w))).
    + reflexivity.
    + apply (well_keyed_insert _ e), Hkeys.
    + destruct w; cbn -[map_to_list]. now rewrite lookup_insert_eq.
Qed.

Lemma cache_index_reloads_what_it_saved_witness :
  let e := mkCacheEntry "cache_0123456789ab" "0cc175b9" "other.pdf"
             "2024-01-01T00:00:00" "other.json" 12 (99 # 100) in
  fst example_added = Ok tt
  /\ get_entry "0cc175b9" (snd example_added) = (Ok (Some e), snd example_added)
  /\ (forall other, other <> "0cc175b9" ->
        cache_entries (snd example_added) !! other
        = cache_entries stale_index_world !! other)
  /\ new_CacheIndex "data/golden-maps" (snd example_added)
     = (Ok example_index, snd example_added).
Proof.
  apply (cache_index_reloads_what_it_saved (example_runtime service_exact)
           "data/golden-maps" "cache_0123456789ab" "0cc175b9" "other.pdf" "other.json"
           12 (99 # 100) stale_index_world).
  intros k e' Hk. change (cache_entries stale_index_world) with
    ({[ "d41d8cd9" := mkCacheEntry "cache_000000000000" "d41d8cd9" "form.pdf"
                        "2024-01-01T00:00:00" "golden.json" 0 0 ]}
     : gmap string CacheEntry) in Hk.
  apply lookup_singleton_Some in Hk as [<- <-]. reflexivity.
Defined.

(** After the call the index of the example holds two entries, and so
    does the index read back from the file. *)
Example example_added_reloads :
  let reloaded := new_CacheIndex "data/golden-maps" (snd example_added) in
  size (cache_entries (snd example_added)) = 2%nat
  /\ size (cache_entries (snd reloaded)) = 2%nat.
Proof. vm_compute. split; reflexivity. Qed.

(** ** Theorems: the summary of a validation run *)

Lemma set_validation_status_same (f : DetectedField) :
  set_validation_status (validation_status f) f = f.
Proof. destruct f. reflexivity. Qed.

Lemma final_wants_no_retry max f : final max f -> wants_retry max f = false.
Proof.
  unfold final, wants_retry. intros [->|[-> Hrc]]; [reflexivity|].
  cbn. now apply Z.ltb_ge.
Qed.

Lemma loop_exit_final max field w res w' :
  loop_exit field w = (Ok res, w') ->
  (forall f, heap w !! field = Some f -> wants_retry max f = false) ->
  fvr_field res = field
  /\ (exists f', heap w' !! field = Some f' /\ final max f')
  /\ (forall l, l <> field -> heap w' !! l = heap w !! l)
  /\ (forall f, heap w !! field = Some f -> final max f -> heap w' = heap w).
Proof.
  unfold loop_exit. intros H Hpre.
  apply bind_ok_inv in H as (f & w1 & Hr & H).
  apply read_field_inv in Hr as [-> [(f0 & [= <-] & Hf)|[? _]]]; [|discriminate].
  specialize (Hpre f Hf). unfold wants_retry in Hpre.
  destruct (validation_status f) eqn:Hst; cbn in H, Hpre; injection H as <- <-; cbn.
  - split; [reflexivity|]. split; [|split].
    + exists (set_validation_status SKIPPED f). rewrite lookup_insert_eq.
      split; [reflexivity|]. right. split; [reflexivity|]. cbn. now apply Z.ltb_ge.
    + intros l Hl. now rewrite lookup_insert_ne.
    + intros f0 Hf0 [Hp|[Hs _]]; assert (f0 = f) as -> by congruence; congruence.
  - split; [reflexivity|]. split; [|split; [reflexivity|reflexivity]].
    exists f. split; [exact Hf|]. now left.
  - split; [reflexivity|]. split; [|split].
    + exists (set_validation_status SKIPPED f). rewrite lookup_insert_eq.
      split; [reflexivity|]. right. split; [reflexivity|]. cbn. now apply Z.ltb_ge.
    + intros l Hl. now rewrite lookup_insert_ne.
    + intros f0 Hf0 _. assert (f0 = f) as -> by congruence.
      apply insert_id. rewrite Hf, <- Hst. now rewrite set_validation_status_same.
Qed.

Lemma retry_loop_final fuel rt self field img :
  forall w res w',
  retry_loop fuel rt self field img w = (Ok res, w') ->
  fvr_field res = field
  /\ (exists f', heap w' !! field = Some f' /\ final (_max_attempts (_retry_engine self)) f')
  /\ (forall l, l <> field -> heap w' !! l = heap w !! l)
  /\ (forall f, heap w !! field = Some f -> final (_max_attempts (_retry_engine self)) f ->
        heap w' = heap w).
Proof.
  induction fuel as [|fuel IH]; intros w res w' H; cbn [retry_loop] in H;
    apply bind_ok_inv in H as (again & w1 & Hs & H);
    apply should_retry_inv in Hs as [-> [(f & Hf & [= ->])|[_ ?]]]; try discriminate;
    destruct (wants_retry _ f) eqn:Hw; try discriminate;
    try (apply (loop_exit_final _ field w res w' H); intros f0 Hf0;
         assert (f0 = f) as -> by congruence; exact Hw).
  apply bind_ok_inv in H as (f1 & w1 & Hr & H).
  apply read_field_inv in Hr as [-> [(f0 & [= <-] & Hf1)|[? _]]]; [|discriminate].
  assert (f1 = f) as -> by congruence.
  apply bind_ok_inv in H as ([[passed measured] difference] & w2 & Hv & H).
  pose proof (validate_coordinates_heap _ _ _ _ _ _ _ Hv) as Hheap.
  apply bind_ok_inv in H as (f2 & w3 & Hr & H).
  apply read_field_inv in Hr as [-> [(f0 & [= <-] & Hf2)|[? _]]]; [|discriminate].
  assert (f2 = f) as -> by congruence.
  apply bind_ok_inv in H as ([] & w4 & Hwr & H).
  rewrite write_field_eq in Hwr. injection Hwr as <-.
  assert (Hnot : forall f0, heap w !! field = Some f0 ->
            final (_max_attempts (_retry_engine self)) f0 -> False).
  { intros f0 Hf0 Hfin. assert (f0 = f) as -> by congruence.
    apply final_wants_no_retry in Hfin. congruence. }
  destruct passed.
  - apply bind_ok_inv in H as (f3 & w5 & Hr & H).
    apply read_field_inv in Hr as [-> [(f0 & [= <-] & Hf3)|[? _]]]; [|discriminate].
    cbn in Hf3. rewrite lookup_insert_eq in Hf3. injection Hf3 as <-.
    cbn in H. injection H as <- <-. cbn.
    split; [reflexivity|]. split; [|split].
    + eexists. rewrite lookup_insert_eq. split; [reflexivity|]. now left.
    + intros l Hl. rewrite !lookup_insert_ne by congruence. now rewrite Hheap.
    + intros f0 Hf0 Hfin. destruct (Hnot f0 Hf0 Hfin).
  - apply IH in H as (Hres & Hset & Hframe & _).
    split; [exact Hres|]. split; [exact Hset|]. split.
    + intros l Hl. rewrite (Hframe l Hl). cbn.
      rewrite lookup_insert_ne by congruence. now rewrite Hheap.
    + intros f0 Hf0 Hfin. destruct (Hnot f0 Hf0 Hfin).
Qed.

Lemma _validate_field_with_retry_final rt self field img w res w' :
  _validate_field_with_retry rt self field img w = (Ok res, w') ->
  fvr_field res = field
  /\ (exists f', heap w' !! field = Some f' /\ final (_max_attempts (_retry_engine self)) f')
  /\ (forall l, l <> field -> heap w' !! l = heap w !! l)
  /\ (forall f, heap w !! field = Some f -> final (_max_attempts (_retry_engine self)) f ->
        heap w' = heap w).
Proof.
  unfold _validate_field_with_retry. intros H.
  apply bind_ok_inv in H as (f & w1 & Hr & H).
  apply read_field_inv in Hr as [-> _].
  now apply (retry_loop_final _ _ _ _ _ _ _ _ H).
Qed.

Lemma validate_one_tally rt self n_fields page_images cb batch_size idx field t w t' w' :
  validate_one rt self n_fields page_images cb batch_size idx field t w = (Ok t', w') ->
  exists f',
    heap w' !! field = Some f'
    /\ final (_max_attempts (t_engine t)) f'
    /\ (forall l, l <> field -> heap w' !! l = heap w !! l)
    /\ (forall f, heap w !! field = Some f -> final (_max_attempts (t_engine t)) f ->
          heap w' = heap w)
    /\ _max_attempts (t_engine t') = _max_attempts (t_engine t)
    /\ t_max_retries_used t' = Z.max (t_max_retries_used t) (retry_count f')
    /\ ((validation_status f' = PASSED
         /\ t_passed_count t' = t_passed_count t + 1
         /\ t_skipped_count t' = t_skipped_count t
         /\ _retry_pool (t_engine t') = _retry_pool (t_engine t))
        \/ (validation_status f' = SKIPPED
            /\ t_passed_count t' = t_passed_count t
            /\ t_skipped_count t' = t_skipped_count t + 1
            /\ _retry_pool (t_engine t') = _retry_pool (t_engine t) ++ [field])).
Proof.
  unfold validate_one. intros H.
  apply bind_ok_inv in H as (f0 & w1 & Hr & H).
  apply read_field_inv in Hr as [-> _].
  apply bind_ok_inv in H as (img & w1 & Himg & H).
  assert (w1 = w) as ->.
  { destruct (page_images !! page_number f0); [now injection Himg|discriminate]. }
  apply bind_ok_inv in H as (res & w2 & Hv & H).
  apply _validate_field_with_retry_final in Hv as (Hres & (f2 & Hf2 & Hfin) & Hframe & Hstable).
  cbn [_retry_engine with_engine] in Hfin, Hstable.
  rewrite Hres in H.
  apply bind_ok_inv in H as (f & w3 & Hr & H).
  apply read_field_inv in Hr as [-> [(f3 & [= <-] & Hf)|[? _]]]; [|discriminate].
  assert (f = f2) as -> by congruence.
  apply bind_ok_inv in H as (t1 & w3 & Ht & H).
  apply bind_ok_inv in H as ([] & w4 & Hcb & H).
  injection H as <- <-.
  apply report_batch_inv in Hcb.
  destruct (ValidationStatus_eqb (validation_status f2) PASSED) eqn:Hp.
  { injection Ht as <- <-. rewrite Hcb. cbn. apply ValidationStatus_eqb_eq in Hp.
    exists f2. repeat (split; [assumption || reflexivity|]). left. auto. }
  destruct (ValidationStatus_eqb (validation_status f2) SKIPPED) eqn:Hs.
  2:{ destruct Hfin as [Hfin|[Hfin _]]; apply ValidationStatus_eqb_eq in Hfin; congruence. }
  apply ValidationStatus_eqb_eq in Hs.
  apply bind_ok_inv in Ht as (e & w5 & Ha & Ht).
  apply add_to_retry_pool_inv in Ha as [(f4 & Hf4 & He & ->)|(_ & ? & _)]; [|discriminate].
  injection He as ->. injection Ht as <- <-.
  assert (f4 = f2) as -> by congruence.
  assert (Hid : <[field := set_validation_status SKIPPED f2]> (heap w2) = heap w2).
  { apply insert_id. rewrite Hf2, <- Hs. now rewrite set_validation_status_same. }
  rewrite Hcb. cbn. rewrite Hid.
  exists f2. repeat (split; [assumption || reflexivity|]). right. auto.
Qed.

Lemma count_status_cons h s l fields :
  count_status h s (l :: fields)
  = (if has_status h s l then 1 else 0) + count_status h s fields.
Proof.
  unfold count_status. cbn [List.filter]. destruct (has_status h s l); cbn [length]; lia.
Qed.

Lemma has_status_of h s l f :
  h !! l = Some f -> has_status h s l = ValidationStatus_eqb (validation_status f) s.
Proof. unfold has_status. now intros ->. Qed.

Lemma validate_from_tally rt self n_fields page_images cb batch_size fields :
  forall idx t w t' w',
  validate_from rt self n_fields page_images cb batch_size idx fields t w = (Ok t', w') ->
  (forall l f, heap w !! l = Some f -> final (_max_attempts (t_engine t)) f ->
     heap w' !! l = Some f)
  /\ (forall l, l ∈ fields ->
        exists f', heap w' !! l = Some f' /\ final (_max_attempts (t_engine t)) f'
                   /\ retry_count f' <= t_max_retries_used t')
  /\ _max_attempts (t_engine t') = _max_attempts (t_engine t)
  /\ t_max_retries_used t <= t_max_retries_used t'
  /\ t_passed_count t' = t_passed_count t + count_status (heap w') PASSED fields
  /\ t_skipped_count t' = t_skipped_count t + count_status (heap w') SKIPPED fields
  /\ _retry_pool (t_engine t')
     = _retry_pool (t_engine t) ++ List.filter (has_status (heap w') SKIPPED) fields.
Proof.
  induction fields as [|a rest IH]; intros idx t w t' w' H; cbn [validate_from] in H.
  - injection H as <- <-. repeat split; try (unfold count_status; cbn; lia).
    + auto.
    + intros l Hl. inversion Hl.
    + cbn. now rewrite app_nil_r.
  - apply bind_ok_inv in H as (t1 & w1 & H1 & H).
    apply validate_one_tally in H1
      as (fa & Hfa & Hfin & Hframe & Hstable & Hmax & Hused & Hcount).
    apply IH in H as (Hkeep & Hin & Hmax' & Hle & Hp & Hs & Hpool).
    rewrite Hmax in Hkeep, Hin, Hmax'.
    pose proof (Hkeep a fa Hfa Hfin) as Hfa'.
    split; [|split; [|split; [|split; [|split; [|split]]]]].
    + intros l f Hl Hf. apply Hkeep.
      * destruct (decide (l = a)) as [->|Hne].
        -- now rewrite (Hstable f Hl Hf).
        -- now rewrite (Hframe l Hne).
      * exact Hf.
    + intros l Hl. apply elem_of_cons in Hl as [->|Hl]; [|now apply Hin].
      exists fa. split; [exact Hfa'|]. split; [exact Hfin|]. lia.
    + exact Hmax'.
    + lia.
    + rewrite count_status_cons, (has_status_of _ _ _ _ Hfa'), Hp.
      destruct Hcount as [(-> & -> & _ & _)|(-> & -> & _ & _)]; cbn; lia.
    + rewrite count_status_cons, (has_status_of _ _ _ _ Hfa'), Hs.
      destruct Hcount as [(-> & _ & -> & _)|(-> & _ & -> & _)]; cbn; lia.
    + cbn [List.filter]. rewrite (has_status_of _ _ _ _ Hfa'), Hpool.
      destruct Hcount as [(-> & _ & _ & ->)|(-> & _ & _ & ->)]; cbn;
        [reflexivity|now rewrite <- app_assoc].
Qed.

Lemma count_status_partition h fields :
  (forall l, l ∈ fields ->
     exists f, h !! l = Some f
               /\ (validation_status f = PASSED \/ validation_status f = SKIPPED)) ->
  count_status h PASSED fields + count_status h SKIPPED fields = Z.of_nat (length fields).
Proof.
  induction fields as [|a rest IH]; intros H; [reflexivity|].
  rewrite !count_status_cons, <- Z.add_assoc, Z.add_shuffle3, Z.add_assoc.
  destruct (H a) as (f & Hf & Hst); [left|].
  rewrite !(has_status_of _ _ _ _ Hf).
  assert (Hrest : count_status h PASSED rest + count_status h SKIPPED rest
                  = Z.of_nat (length rest)).
  { apply IH. intros l Hl. apply H. now right. }
  cbn [length]. destruct Hst as [-> | ->]; cbn; lia.
Qed.

Lemma count_status_bounds h s fields :
  0 <= count_status h s fields <= Z.of_nat (length fields).
Proof.
  unfold count_status. pose proof (List.filter_length_le (has_status h s) fields). lia.
Qed.

Lemma percent_bounds (part whole : Z) :
  0 <= part <= whole -> 0 < whole -> (0 <= percent part whole <= 100)%Q.
Proof.
  intros [H0 Hle] Hpos. unfold percent.
  assert (Hw : (0 < inject_Z whole)%Q) by (unfold Qlt; cbn; lia).
  split.
  - apply Qmult_le_0_compat; [|discriminate].
    apply Qle_shift_div_l; [exact Hw|]. rewrite Qmult_0_l. unfold Qle; cbn; lia.
  - apply Qle_trans with (1 * 100)%Q; [|discriminate].
    apply Qmult_le_compat_r; [|discriminate].
    apply Qle_shift_div_r; [exact Hw|]. rewrite Qmult_1_l. unfold Qle; cbn; lia.
Qed.

(** X10. The summary [validate_all_fields] returns accounts for every
    entry of the list: the total is the length of the list, [passed] and
    [skipped] count the entries whose field ends passed, respectively
    skipped, and add up to the total; the retry pool of the coordinator
    is its pool before the call followed by the skipped entries in
    order, and [retry_pool_count] is its length; the accuracy lies
    between 0 and 100, and no field of the list has a retry count above
    [max_retries_used]. *)
Theorem validation_summary_accounts_for_every_field
    (rt : Runtime) (self : ValidationCoordinator) (fields : list loc)
    (page_images : gmap Z image) (progress_callback : bool) (batch_size : Z)
    (w w' : World) (self' : ValidationCoordinator) (validated : list loc)
    (summary : ValidationSummary)
    (Hrun : validate_all_fields rt self fields page_images progress_callback batch_size w
            = (Ok (self', (validated, summary)), w')) :
  total_fields summary = Z.of_nat (length fields)
  /\ passed summary = count_status (heap w') PASSED fields
  /\ skipped summary = count_status (heap w') SKIPPED fields
  /\ passed summary + skipped summary = total_fields summary
  /\ _retry_pool (_retry_engine self')
     = _retry_pool (_retry_engine self) ++ List.filter (has_status (heap w') SKIPPED) fields
  /\ retry_pool_count summary
     = get_retry_pool_count (_retry_engine self) + skipped summary
  /\ (0 <= accuracy summary <= 100)%Q
  /\ (forall l f, l ∈ fields -> heap w' !! l = Some f ->
        retry_count f <= max_retries_used summary).
Proof.
  unfold validate_all_fields in Hrun.
  apply bind_ok_inv in Hrun as (t & w1 & Hfrom & Hret).
  injection Hret as <- <- <- <-.
  apply validate_from_tally in Hfrom as (_ & Hin & _ & _ & Hp & Hs & Hpool).
  cbn in Hp, Hs, Hpool. cbn.
  assert (Hsum : count_status (heap w1) PASSED fields + count_status (heap w1) SKIPPED fields
                 = Z.of_nat (length fields)).
  { apply count_status_partition. intros l Hl.
    destruct (Hin l Hl) as (f & Hf & [Hst|[Hst _]] & _); eauto. }
  split; [reflexivity|]. split; [exact Hp|]. split; [exact Hs|].
  split; [lia|]. split; [exact Hpool|]. split; [|split].
  - unfold get_retry_pool_count. rewrite Hpool, length_app, Hs. unfold count_status. lia.
  - destruct fields as [|a rest]; [split; discriminate|].
    apply percent_bounds; [|cbn [length]; lia].
    pose proof (count_status_bounds (heap w1) PASSED (a :: rest)). lia.
  - intros l f Hl Hf. destruct (Hin l Hl) as (f' & Hf' & _ & Hrc). congruence.
Qed.

Lemma validation_summary_accounts_for_every_field_witness :
  let summary := snd (snd mixed_value) in
  let h := heap (snd mixed_run) in
  total_fields summary = Z.of_nat (length [0%nat; 1%nat])
  /\ passed summary = count_status h PASSED [0%nat; 1%nat]
  /\ skipped summary = count_status h SKIPPED [0%nat; 1%nat]
  /\ passed summary + skipped summary = total_fields summary
  /\ _retry_pool (_retry_engine (fst mixed_value))
     = _retry_pool (_retry_engine default_coordinator)
       ++ List.filter (has_status h SKIPPED) [0%nat; 1%nat]
  /\ retry_pool_count summary
     = get_retry_pool_count (_retry_engine default_coordinator) + skipped summary
  /\ (0 <= accuracy summary <= 100)%Q
  /\ (forall l f, l ∈ [0%nat; 1%nat] -> h !! l = Some f ->
        retry_count f <= max_retries_used summary).
Proof.
  apply (validation_summary_accounts_for_every_field
           (example_runtime service_after_seven) default_coordinator [0%nat; 1%nat]
           example_page_images false 10 two_field_world (snd mixed_run)
           (fst mixed_value) (fst (snd mixed_value)) (snd (snd mixed_value))).
  vm_compute. reflexivity.
Defined.

(** In the example one field passes and one is skipped: accuracy 50,
    one field in the retry pool, seven attempts at most. *)
Example mixed_run_summary :
  snd (snd mixed_value) = mkValidationSummary 2 1 1 (percent 1 2) 1 7.
Proof. vm_compute. reflexivity. Qed.

(** ** Theorems: the detailed differences *)




(** ** Theorems: render order *)

Lemma Qeq_bool_false_iff (a b : Q) : Qeq_bool a b = false <-> ~ a == b.
Proof.
  split.
  - intros H E. apply Qeq_bool_iff in E. congruence.
  - intros H. destruct (Qeq_bool a b) eqn:E; [|reflexivity].
    apply Qeq_bool_iff in E. contradiction.
Qed.

Lemma Qlt_bool_false_iff (a b : Q) : Qlt_bool a b = false <-> (b <= a)%Q.
Proof.
  split.
  - intros H. apply Qnot_lt_le. intros Hlt. apply Qlt_bool_spec in Hlt. congruence.
  - intros H. destruct (Qlt_bool a b) eqn:E; [|reflexivity].
    apply Qlt_bool_spec in E. lra.
Qed.

Lemma key_lt_false_iff (a b : Z * Q * Q) : key_lt b a = false <-> key_le a b.
Proof.
  destruct a as [[p1 y1] x1], b as [[p2 y2] x2]. unfold key_lt, key_le.
  destruct (p2 =? p1) eqn:Hp; cbn [negb].
  - apply Z.eqb_eq in Hp. subst p2.
    destruct (Qeq_bool y2 y1) eqn:Hy; cbn [negb].
    + apply Qeq_bool_iff in Hy. rewrite Qlt_bool_false_iff. split.
      * intros H. right. split; [reflexivity|]. right. split; [now symmetry|exact H].
      * intros [H|[_ [H|[_ H]]]]; [lia|lra|exact H].
    + apply Qeq_bool_false_iff in Hy. rewrite Qlt_bool_false_iff. split.
      * intros H. right. split; [reflexivity|]. left.
        apply Qle_lteq in H as [H|H]; [exact H|]. exfalso. apply Hy. now symmetry.
      * intros [H|[_ [H|[H _]]]]; [lia|lra|]. exfalso. apply Hy. now symmetry.
  - apply Z.eqb_neq in Hp. rewrite Z.ltb_ge. split.
    + intros H. left. lia.
    + intros [H|[H _]]; lia.
Qed.

Lemma key_le_trans (a b c : Z * Q * Q) : key_le a b -> key_le b c -> key_le a c.
Proof.
  destruct a as [[p1 y1] x1], b as [[p2 y2] x2], c as [[p3 y3] x3]. unfold key_le.
  intros [H1|[-> H1]] [H2|[-> H2]]; try (left; lia).
  right. split; [reflexivity|].
  destruct H1 as [H1|[E1 H1]], H2 as [H2|[E2 H2]]; try (left; lra).
  right. split; lra.
Qed.

Lemma key_le_total (a b : Z * Q * Q) : key_lt a b = true -> key_le a b.
Proof.
  destruct a as [[p1 y1] x1], b as [[p2 y2] x2]. unfold key_lt, key_le.
  destruct (p1 =? p2) eqn:Hp; cbn [negb].
  - apply Z.eqb_eq in Hp. subst p2. intros H. right. split; [reflexivity|].
    destruct (Qeq_bool y1 y2) eqn:Hy; cbn [negb] in H; apply Qlt_bool_spec in H.
    + apply Qeq_bool_iff in Hy. right. split; [exact Hy|lra].
    + now left.
  - intros H. apply Z.ltb_lt in H. now left.
Qed.

Section py_sorted_facts.
Context {A : Type} (key : A -> Z * Q * Q).

Lemma insert_sorted_Permutation (x : A) (l : list A) :
  insert_sorted key x l ≡ₚ x :: l.
Proof.
  induction l as [|y rest IH]; cbn; [reflexivity|].
  destruct (key_lt (key y) (key x)); [|reflexivity].
  rewrite IH. apply Permutation_swap.
Qed.

Lemma py_sorted_Permutation (l : list A) : py_sorted key l ≡ₚ l.
Proof.
  induction l as [|x rest IH]; cbn; [reflexivity|].
  change (foldr (insert_sorted key) [] rest) with (py_sorted key rest).
  now rewrite insert_sorted_Permutation, IH.
Qed.

Lemma insert_sorted_StronglySorted (x : A) (l : list A) :
  StronglySorted (fun a b => key_le (key a) (key b)) l ->
  StronglySorted (fun a b => key_le (key a) (key b)) (insert_sorted key x l).
Proof.
  induction 1 as [|y rest Hs IH Hy]; cbn.
  - repeat constructor.
  - destruct (key_lt (key y) (key x)) eqn:Hlt.
    + constructor; [exact IH|].
      rewrite insert_sorted_Permutation. constructor; [|exact Hy].
      now apply key_le_total.
    + apply key_lt_false_iff in Hlt.
      constructor; [now constructor|].
      constructor; [exact Hlt|].
      eapply Forall_impl; [exact Hy|]. intros z Hz. cbn in Hz.
      exact (key_le_trans _ _ _ Hlt Hz).
Qed.

Lemma py_sorted_StronglySorted (l : list A) :
  StronglySorted (fun a b => key_le (key a) (key b)) (py_sorted key l).
Proof.
  induction l as [|x rest IH]; cbn; [constructor|].
  now apply insert_sorted_StronglySorted.
Qed.

Lemma key_eqb_not_lt (a b k : Z * Q * Q) :
  key_eqb a k = true -> key_eqb b k = true -> key_lt a b = false.
Proof.
  unfold key_eqb. rewrite !andb_true_iff, !negb_true_iff.
  intros [Hak Hka] [Hbk Hkb]. apply key_lt_false_iff.
  apply key_lt_false_iff in Hak, Hkb.
  exact (key_le_trans _ _ _ Hkb Hak).
Qed.

Lemma insert_sorted_stable (k : Z * Q * Q) (x : A) (l : list A) :
  List.filter (fun a => key_eqb (key a) k) (insert_sorted key x l)
  = List.filter (fun a => key_eqb (key a) k) (x :: l).
Proof.
  induction l as [|y rest IH]; [reflexivity|].
  cbn [insert_sorted]. destruct (key_lt (key y) (key x)) eqn:Hlt; [|reflexivity].
  cbn [List.filter] in *. rewrite IH.
  destruct (key_eqb (key x) k) eqn:Hx; [|reflexivity].
  destruct (key_eqb (key y) k) eqn:Hy; [|reflexivity].
  rewrite (key_eqb_not_lt _ _ _ Hy Hx) in Hlt. discriminate.
Qed.

Lemma py_sorted_stable (k : Z * Q * Q) (l : list A) :
  List.filter (fun a => key_eqb (key a) k) (py_sorted key l)
  = List.filter (fun a => key_eqb (key a) k) l.
Proof.
  induction l as [|x rest IH]; [reflexivity|].
  cbn [py_sorted foldr]. change (foldr (insert_sorted key) [] rest) with (py_sorted key rest).
  rewrite insert_sorted_stable. cbn [List.filter]. now rewrite IH.
Qed.
End py_sorted_facts.

Lemma py_sorted_decorated {A} (key : A -> Z * Q * Q) (l : list A) :
  snd <$> py_sorted fst ((fun a => (key a, a)) <$> l) = py_sorted key l.
Proof.
  assert (Hins : forall x rest,
    insert_sorted fst (key x, x) ((fun a => (key a, a)) <$> rest)
    = (fun a => (key a, a)) <$> insert_sorted key x rest).
  { intros x rest. induction rest as [|y rest IH]; [reflexivity|].
    cbn. destruct (key_lt (key y) (key x)); [|reflexivity].
    cbn. f_equal. exact IH. }
  assert (Hs : py_sorted fst ((fun a => (key a, a)) <$> l)
               = (fun a => (key a, a)) <$> py_sorted key l).
  { induction l as [|x rest IH]; [reflexivity|].
    unfold py_sorted in *. rewrite fmap_cons. cbn [foldr]. rewrite IH. apply Hins. }
  rewrite Hs, <- list_fmap_compose. apply list_fmap_id.
Qed.

Lemma set_render_order_same (f : DetectedField) : set_render_order (render_order f) f = f.
Proof. destruct f. reflexivity. Qed.

Lemma read_keys (h_keys : list loc) (w : World) :
  (forall l, l ∈ h_keys -> is_Some (heap w !! l)) ->
  map_M (fun l => let* f := read_field l in ret (order_key f, l)) h_keys w
  = (Ok ((fun l => (key_at (heap w) l, l)) <$> h_keys), w).
Proof.
  induction h_keys as [|l rest IH]; intros H; [reflexivity|].
  cbn [map_M]. destruct (H l) as [f Hf]; [left|].
  unfold bind at 1. unfold bind at 1. rewrite (read_field_some _ _ _ Hf). unfold ret at 1.
  unfold bind at 1. rewrite IH by (intros l' Hl'; apply H; now right).
  rewrite fmap_cons. unfold ret. unfold key_at at 2. now rewrite Hf.
Qed.

(** The numbering loop of [calculate_order], started at [k]. *)
Lemma number_fields (ls : list loc) :
  forall (k : nat) (w : World),
  (forall l, l ∈ ls -> is_Some (heap w !! l)) ->
  exists w',
    for_each (imap (fun idx field => (Z.of_nat (k + idx), field)) ls)
      (fun item => let* f := read_field item.2 in
                   write_field item.2 (set_render_order (item.1 + 1) f)) w
    = (Ok tt, w')
    /\ (forall l, l ∉ ls -> heap w' !! l = heap w !! l)
    /\ (forall l f, heap w !! l = Some f ->
          exists n, heap w' !! l = Some (set_render_order n f))
    /\ (NoDup ls -> forall i l, ls !! i = Some l ->
          render_order <$> (heap w' !! l) = Some (Z.of_nat (k + i) + 1)).
Proof.
  induction ls as [|a rest IH]; intros k w Halloc.
  - exists w. split; [reflexivity|]. split; [reflexivity|]. split.
    + intros l f Hf. exists (render_order f). now rewrite set_render_order_same.
    + intros _ i l Hi. discriminate.
  - destruct (Halloc a) as [fa Hfa]; [left|].
    set (w1 := with_heap (<[a := set_render_order (Z.of_nat (k + 0) + 1) fa]> (heap w)) w).
    destruct (IH (S k) w1) as (w' & Hrun & Hout & Hin & Hpos).
    { intros l Hl. subst w1. cbn. destruct (decide (l = a)) as [->|Hne].
      - rewrite lookup_insert_eq. eauto.
      - rewrite lookup_insert_ne by congruence. apply Halloc. now right. }
    exists w'. split; [|split; [|split]].
    + rewrite imap_cons. cbn [for_each]. unfold bind at 1. unfold bind at 1. cbn [snd fst].
      rewrite (read_field_some _ _ _ Hfa). rewrite write_field_eq. fold w1.
      rewrite <- Hrun. f_equal. apply imap_ext. intros i x _. cbn. do 2 f_equal. lia.
    + intros l Hl. apply not_elem_of_cons in Hl as [Hne Hl].
      rewrite (Hout l Hl). subst w1. cbn. now rewrite lookup_insert_ne.
    + intros l f Hf. destruct (decide (l = a)) as [->|Hne].
      * assert (f = fa) as -> by congruence.
        destruct (Hin a (set_render_order (Z.of_nat (k + 0) + 1) fa)) as (n & Hn).
        { subst w1. cbn. now rewrite lookup_insert_eq. }
        exists n. exact Hn.
      * apply Hin. subst w1. cbn. now rewrite lookup_insert_ne.
    + intros Hnd i l Hi. apply NoDup_cons in Hnd as [Hnotin Hnd].
      destruct i as [|i]; cbn in Hi.
      * injection Hi as <-. rewrite (Hout a Hnotin). subst w1. cbn.
        rewrite lookup_insert_eq. reflexivity.
      * rewrite (Hpos Hnd i l Hi). do 2 f_equal. lia.
Qed.

Lemma calculate_order_runs (fields : list loc) (w : World) :
  (forall l, l ∈ fields -> is_Some (heap w !! l)) ->
  exists w',
    RenderOrderCalculator.calculate_order fields w
    = (Ok (py_sorted (key_at (heap w)) fields), w')
    /\ (forall l, l ∉ fields -> heap w' !! l = heap w !! l)
    /\ (forall l f, heap w !! l = Some f ->
          exists n, heap w' !! l = Some (set_render_order n f))
    /\ (NoDup fields -> forall i l, py_sorted (key_at (heap w)) fields !! i = Some l ->
          render_order <$> (heap w' !! l) = Some (Z.of_nat i + 1)).
Proof.
  intros Halloc. unfold RenderOrderCalculator.calculate_order.
  unfold bind at 1. rewrite (read_keys fields w Halloc).
  rewrite (py_sorted_decorated (key_at (heap w)) fields).
  destruct (number_fields (py_sorted (key_at (heap w)) fields) 0 w)
    as (w' & Hrun & Hout & Hin & Hpos).
  { intros l Hl. apply Halloc. now rewrite <- (py_sorted_Permutation (key_at (heap w))). }
  exists w'. split; [|split; [|split]].
  - unfold bind at 1. cbn [Nat.add] in Hrun. rewrite Hrun. reflexivity.
  - intros l Hl. apply Hout. now rewrite (py_sorted_Permutation (key_at (heap w))).
  - exact Hin.
  - intros Hnd i l Hi. apply (Hpos : _ -> forall i l, _ -> _ = Some (Z.of_nat i + 1));
      [|exact Hi].
    now rewrite (py_sorted_Permutation (key_at (heap w))).
Qed.

(** X12. [calculate_order] on a list of existing fields returns the same
    fields rearranged by page, then top edge, then left edge; fields
    with equal keys keep the order they had in the input; and the call
    changes nothing but render orders, and those only of the fields
    listed. *)
Theorem calculate_order_sorts_stably (fields : list loc) (w : World)
    (Halloc : forall l, l ∈ fields -> is_Some (heap w !! l)) :
  exists sorted_fields w',
    RenderOrderCalculator.calculate_order fields w = (Ok sorted_fields, w')
    /\ sorted_fields ≡ₚ fields
    /\ StronglySorted (fun a b => key_le (key_at (heap w) a) (key_at (heap w) b))
         sorted_fields
    /\ (forall k, List.filter (fun l => key_eqb (key_at (heap w) l) k) sorted_fields
                  = List.filter (fun l => key_eqb (key_at (heap w) l) k) fields)
    /\ (forall l f, heap w !! l = Some f ->
          exists n, heap w' !! l = Some (set_render_order n f))
    /\ (forall l, l ∉ fields -> heap w' !! l = heap w !! l).
Proof.
  destruct (calculate_order_runs fields w Halloc) as (w' & Hrun & Hout & Hin & _).
  exists (py_sorted (key_at (heap w)) fields), w'.
  split; [exact Hrun|]. split; [apply py_sorted_Permutation|].
  split; [apply py_sorted_StronglySorted|]. split; [intros k; apply py_sorted_stable|].
  split; [exact Hin|exact Hout].
Qed.

Lemma calculate_order_sorts_stably_witness :
  exists sorted_fields w',
    RenderOrderCalculator.calculate_order [0%nat; 1%nat; 2%nat] unordered_world
    = (Ok sorted_fields, w')
    /\ sorted_fields ≡ₚ [0%nat; 1%nat; 2%nat]
    /\ StronglySorted (fun a b => key_le (key_at (heap unordered_world) a)
                                         (key_at (heap unordered_world) b))
         sorted_fields
    /\ (forall k, List.filter (fun l => key_eqb (key_at (heap unordered_world) l) k)
                    sorted_fields
                  = List.filter (fun l => key_eqb (key_at (heap unordered_world) l) k)
                      [0%nat; 1%nat; 2%nat])
    /\ (forall l f, heap unordered_world !! l = Some f ->
          exists n, heap w' !! l = Some (set_render_order n f))
    /\ (forall l, l ∉ [0%nat; 1%nat; 2%nat] -> heap w' !! l = heap unordered_world !! l).
Proof.
  apply (calculate_order_sorts_stably [0%nat; 1%nat; 2%nat] unordered_world).
  intros l Hl. repeat (apply elem_of_cons in Hl as [->|Hl]; [eexists; reflexivity|]).
  now apply elem_of_nil in Hl.
Defined.

(** X13. When no field is listed twice, [calculate_order] numbers the
    fields from 1 along the list it returns: the field at position [i]
    (counted from 0) has render order [i + 1], so the render orders of
    the listed fields are the numbers from 1 to their count, each used
    once. *)
Theorem calculate_order_numbers_from_one (fields : list loc) (w : World)
    (Halloc : forall l, l ∈ fields -> is_Some (heap w !! l))
    (Hdistinct : NoDup fields) :
  exists sorted_fields w',
    RenderOrderCalculator.calculate_order fields w = (Ok sorted_fields, w')
    /\ length sorted_fields = length fields
    /\ forall i l, sorted_fields !! i = Some l ->
         render_order <$> (heap w' !! l) = Some (Z.of_nat i + 1).
Proof.
  destruct (calculate_order_runs fields w Halloc) as (w' & Hrun & _ & _ & Hpos).
  exists (py_sorted (key_at (heap w)) fields), w'.
  split; [exact Hrun|]. split; [|exact (Hpos Hdistinct)].
  apply Permutation_length, py_sorted_Permutation.
Qed.

Lemma calculate_order_numbers_from_one_witness :
  exists sorted_fields w',
    RenderOrderCalculator.calculate_order [0%nat; 1%nat; 2%nat] unordered_world
    = (Ok sorted_fields, w')
    /\ length sorted_fields = length [0%nat; 1%nat; 2%nat]
    /\ forall i l, sorted_fields !! i = Some l ->
         render_order <$> (heap w' !! l) = Some (Z.of_nat i + 1).
Proof.
  apply (calculate_order_numbers_from_one [0%nat; 1%nat; 2%nat] unordered_world).
  - intros l Hl. repeat (apply elem_of_cons in Hl as [->|Hl]; [eexists; reflexivity|]).
    now apply elem_of_nil in Hl.
  - apply (bool_decide_unpack _). vm_compute. exact I.
Defined.

(** In the example the field of page 1 comes first, and the two fields
    at one place keep their order. *)
Example unordered_world_in_order :
  let run := RenderOrderCalculator.calculate_order [0%nat; 1%nat; 2%nat] unordered_world in
  fst run = Ok [2%nat; 0%nat; 1%nat]
  /\ (fun l => render_order <$> (heap (snd run) !! l)) <$> [0%nat; 1%nat; 2%nat]
     = [Some 2; Some 3; Some 1].
Proof. vm_compute. split; reflexivity. Qed.

(** ** Theorems: user interface hints *)

Lemma take_elem_of {A} (n : nat) (l : list A) (x : A) : x ∈ take n l -> x ∈ l.
Proof. apply subseteq_take. Qed.

Lemma related_to_sound (field : DetectedField) (all_fields : list DetectedField) (id : string) :
  id ∈ related_to field all_fields ->
  id <> field_id field
  /\ exists other, other ∈ all_fields /\ field_id other = id
                   /\ page_number other = page_number field.
Proof.
  induction all_fields as [|other rest IH]; cbn [related_to]; intros H.
  - now apply elem_of_nil in H.
  - assert (Hrest : id ∈ related_to field rest ->
              id <> field_id field
              /\ exists o, o ∈ other :: rest /\ field_id o = id
                           /\ page_number o = page_number field).
    { intros Hin. destruct (IH Hin) as (Hne & o & Ho & Hid & Hpg).
      split; [exact Hne|]. exists o. split; [now right|auto]. }
    destruct (String.eqb (field_id other) (field_id field)) eqn:Hid; [auto|].
    destruct (page_number other =? page_number field) eqn:Hpg; cbn [negb] in H; [|auto].
    apply String.eqb_neq in Hid. apply Z.eqb_eq in Hpg.
    assert (Hhere : id ∈ field_id other :: related_to field rest ->
              id <> field_id field
              /\ exists o, o ∈ other :: rest /\ field_id o = id
                           /\ page_number o = page_number field).
    { intros Hin. apply elem_of_cons in Hin as [->|Hin]; [|auto].
      split; [exact Hid|]. exists other. split; [left|auto]. }
    destruct (truthy_opt_str (entry (hierarchy other))
              && opt_str_eqb (entry (hierarchy other)) (entry (hierarchy field))); [auto|].
    destruct (Qlt_bool _ 50); auto.
Qed.

(** The group of a field never holds more than five identifiers, never
    the field's own, and only identifiers of fields on its page. *)
Lemma _find_related_fields_sound (field : DetectedField) (all_fields : list DetectedField) :
  (length (_find_related_fields field all_fields) <= 5)%nat
  /\ forall id, id ∈ _find_related_fields field all_fields ->
       id <> field_id field
       /\ exists other, other ∈ all_fields /\ field_id other = id
                        /\ page_number other = page_number field.
Proof.
  unfold _find_related_fields. split.
  - rewrite length_take. lia.
  - intros id Hid. apply related_to_sound. now apply take_elem_of in Hid.
Qed.

Lemma _determine_label_position_values (field : DetectedField) :
  _determine_label_position field = "above" \/ _determine_label_position field = "left".
Proof.
  unfold _determine_label_position.
  destruct (Qlt_bool 200 _); [now left|]. destruct (Qlt_bool _ 30); [now right|now left].
Qed.

Lemma related_to_ignores_hints_of_field u f all_fields :
  related_to (set_ui_hints u f) all_fields = related_to f all_fields.
Proof.
  induction all_fields as [|o rest IH]; [reflexivity|].
  cbn [related_to]. rewrite IH. reflexivity.
Qed.

Lemma related_to_ignores_hints f (all_fields all_fields' : list DetectedField) :
  Forall2 (fun o o' => exists u, o' = set_ui_hints u o) all_fields all_fields' ->
  related_to f all_fields' = related_to f all_fields.
Proof.
  induction 1 as [|o o' rest rest' [u ->] _ IH]; [reflexivity|].
  cbn [related_to]. rewrite IH. reflexivity.
Qed.

Lemma map_M_read_field (fields : list loc) (w : World) :
  (forall l, l ∈ fields -> is_Some (heap w !! l)) ->
  map_M read_field fields w = (Ok (objects_at (heap w) fields), w).
Proof.
  induction fields as [|l rest IH]; intros H; [reflexivity|].
  cbn [map_M]. destruct (H l) as [f Hf]; [left|].
  unfold bind at 1. rewrite (read_field_some _ _ _ Hf).
  unfold bind at 1. rewrite IH by (intros l' Hl'; apply H; now right).
  unfold ret, objects_at. cbn [omap list_omap]. now rewrite Hf.
Qed.

Lemma objects_at_variants (h h' : gmap loc DetectedField) (fields : list loc) :
  (forall l, l ∈ fields -> is_Some (h !! l)) ->
  (forall l f, h !! l = Some f -> exists u, h' !! l = Some (set_ui_hints u f)) ->
  Forall2 (fun o o' => exists u, o' = set_ui_hints u o)
    (objects_at h fields) (objects_at h' fields).
Proof.
  intros Halloc Hvar. induction fields as [|l rest IH]; [constructor|].
  destruct (Halloc l) as [f Hf]; [left|]. destruct (Hvar l f Hf) as [u Hu].
  unfold objects_at in *. cbn [omap list_omap]. rewrite Hf, Hu.
  constructor; [now exists u|]. apply IH. intros l' Hl'. apply Halloc. now right.
Qed.

Lemma hints_loop (w0 : World) (fields : list loc) :
  (forall l, l ∈ fields -> is_Some (heap w0 !! l)) ->
  forall (todo : list loc) (w : World),
  todo ⊆ fields ->
  (forall l f, heap w0 !! l = Some f -> exists u, heap w !! l = Some (set_ui_hints u f)) ->
  exists w',
    for_each todo
      (fun l =>
         let* field := read_field l in
         let label := _determine_label_position field in
         let* all_fields := map_M read_field fields in
         let group := _find_related_fields field all_fields in
         let* f := read_field l in
         write_field l (set_ui_hints (Some (mkUIHints label group)) f)) w
    = (Ok tt, w')
    /\ (forall l f, heap w0 !! l = Some f ->
          exists u, heap w' !! l = Some (set_ui_hints u f))
    /\ (forall l f, l ∈ todo -> heap w0 !! l = Some f ->
          heap w' !! l = Some (set_ui_hints (Some (hints_for (heap w0) fields f)) f))
    /\ (forall l, l ∉ todo -> heap w' !! l = heap w !! l).
Proof.
  intros Halloc todo. induction todo as [|a rest IH]; intros w Hsub Hinv.
  - exists w. split; [reflexivity|]. split; [exact Hinv|]. split; [|reflexivity].
    intros l f Hl. now apply elem_of_nil in Hl.
  - destruct (Halloc a) as [fa Hfa]; [apply Hsub; left|].
    destruct (Hinv a fa Hfa) as [ua Hua].
    assert (Hallocw : forall l, l ∈ fields -> is_Some (heap w !! l)).
    { intros l Hl. destruct (Halloc l Hl) as [f Hf]. destruct (Hinv l f Hf) as [u Hu]. eauto. }
    set (fa' := set_ui_hints (Some (hints_for (heap w0) fields fa)) fa).
    set (w1 := with_heap (<[a := fa']> (heap w)) w).
    destruct (IH w1) as (w' & Hrun & Hinv' & Hdone & Hframe).
    { intros l Hl. apply Hsub. now right. }
    { intros l f Hf. subst w1. cbn. destruct (decide (l = a)) as [->|Hne].
      - rewrite lookup_insert_eq. assert (f = fa) as -> by congruence. now eexists.
      - rewrite lookup_insert_ne by congruence. now apply Hinv. }
    exists w'. split; [|split; [exact Hinv'|split]].
    + cbn [for_each]. unfold bind at 1. unfold bind at 1.
      rewrite (read_field_some _ _ _ Hua). unfold bind at 1.
      rewrite (map_M_read_field fields w Hallocw). unfold bind at 1.
      rewrite (read_field_some _ _ _ Hua). rewrite write_field_eq.
      replace (set_ui_hints _ (set_ui_hints ua fa)) with fa'; [exact Hrun|].
      subst fa'. unfold hints_for, _find_related_fields.
      rewrite related_to_ignores_hints_of_field.
      rewrite (related_to_ignores_hints fa _ _
                 (objects_at_variants _ _ fields Halloc Hinv)).
      reflexivity.
    + intros l f Hl Hf. destruct (decide (l ∈ rest)) as [Hin|Hnin]; [now apply Hdone|].
      apply elem_of_cons in Hl as [->|Hl]; [|contradiction].
      rewrite (Hframe a Hnin). subst w1. cbn. rewrite lookup_insert_eq.
      assert (f = fa) as -> by congruence. reflexivity.
    + intros l Hl. apply not_elem_of_cons in Hl as [Hne Hl].
      rewrite (Hframe l Hl). subst w1. cbn. now rewrite lookup_insert_ne.
Qed.

(** X14. [assign_ui_hints] on a list of existing fields gives each of
    them hints and changes nothing else: the label position is "above"
    or "left", never "inline"; the group holds at most five
    identifiers, never the field's own, and only identifiers of listed
    fields that stand on the same page. *)
Theorem assign_ui_hints_groups_fields_of_a_page (fields : list loc) (w : World)
    (Halloc : forall l, l ∈ fields -> is_Some (heap w !! l)) :
  exists w',
    assign_ui_hints fields w = (Ok fields, w')
    /\ (forall l, l ∉ fields -> heap w' !! l = heap w !! l)
    /\ forall l f, l ∈ fields -> heap w !! l = Some f ->
         exists u,
           heap w' !! l = Some (set_ui_hints (Some u) f)
           /\ (label_position u = "above" \/ label_position u = "left")
           /\ (length (group_with u) <= 5)%nat
           /\ forall id, id ∈ group_with u ->
                id <> field_id f
                /\ exists l' f', l' ∈ fields /\ heap w !! l' = Some f'
                                 /\ field_id f' = id /\ page_number f' = page_number f.
Proof.
  destruct (hints_loop w fields Halloc fields w) as (w' & Hrun & _ & Hdone & Hframe).
  { reflexivity. }
  { intros l f Hf. exists (ui_hints f). destruct f. exact Hf. }
  exists w'. split; [|split; [exact Hframe|]].
  - unfold assign_ui_hints. rewrite (bind_of_ok _ _ _ _ _ Hrun). reflexivity.
  - intros l f Hl Hf. exists (hints_for (heap w) fields f).
    split; [now apply Hdone|]. split; [apply _determine_label_position_values|].
    destruct (_find_related_fields_sound f (objects_at (heap w) fields)) as [Hlen Hids].
    split; [exact Hlen|]. intros id Hid.
    destruct (Hids id Hid) as (Hne & other & Hother & Hoid & Hpg).
    split; [exact Hne|].
    apply list_elem_of_omap in Hother as (l' & Hl' & Hol').
    exists l', other. auto.
Qed.

Lemma assign_ui_hints_groups_fields_of_a_page_witness :
  exists w',
    assign_ui_hints [0%nat; 1%nat; 2%nat] hints_world = (Ok [0%nat; 1%nat; 2%nat], w')
    /\ (forall l, l ∉ [0%nat; 1%nat; 2%nat] -> heap w' !! l = heap hints_world !! l)
    /\ forall l f, l ∈ [0%nat; 1%nat; 2%nat] -> heap hints_world !! l = Some f ->
         exists u,
           heap w' !! l = Some (set_ui_hints (Some u) f)
           /\ (label_position u = "above" \/ label_position u = "left")
           /\ (length (group_with u) <= 5)%nat
           /\ forall id, id ∈ group_with u ->
                id <> field_id f
                /\ exists l' f', l' ∈ [0%nat; 1%nat; 2%nat]
                                 /\ heap hints_world !! l' = Some f'
                                 /\ field_id f' = id /\ page_number f' = page_number f.
Proof.
  apply (assign_ui_hints_groups_fields_of_a_page [0%nat; 1%nat; 2%nat] hints_world).
  intros l Hl. repeat (apply elem_of_cons in Hl as [->|Hl]; [eexists; reflexivity|]).
  now apply elem_of_nil in Hl.
Defined.

(** In the example the two fields of page 1 are grouped with each other,
    and the field of page 2 with none. *)
Example hints_world_groups :
  let run := assign_ui_hints [0%nat; 1%nat; 2%nat] hints_world in
  (fun l => group_with <$> (heap (snd run) !! l ≫= ui_hints)) <$> [0%nat; 1%nat; 2%nat]
  = [Some ["field_b"]; Some ["field_a"]; Some []].
Proof. vm_compute. reflexivity. Qed.

(** ** Theorems: the hierarchy builder *)

Section grouping.
Context {K : Type} `{EqDecision K}.

Lemma group_append_concat (k : K) (x : loc) (groups : list (K * list loc)) :
  concat (snd <$> group_append k x groups) ≡ₚ concat (snd <$> groups) ++ [x].
Proof.
  induction groups as [|[k' xs] rest IH]; cbn; [reflexivity|].
  destruct (decide (k = k')); cbn.
  - rewrite <- !app_assoc. apply Permutation_app_head. apply Permutation_app_comm.
  - rewrite IH. now rewrite app_assoc.
Qed.

Lemma group_append_keys (k : K) (x : loc) (groups : list (K * list loc)) :
  NoDup (fst <$> groups) -> NoDup (fst <$> group_append k x groups)
  /\ forall k', k' ∈ fst <$> group_append k x groups -> k' = k \/ k' ∈ fst <$> groups.
Proof.
  induction groups as [|[k' xs] rest IH]; cbn; intros Hnd.
  - split; [apply NoDup_singleton|]. intros k0 Hk0.
    apply list_elem_of_singleton in Hk0. now left.
  - apply NoDup_cons in Hnd as [Hnotin Hnd]. destruct (IH Hnd) as [IH1 IH2].
    destruct (decide (k = k')) as [->|Hne]; cbn.
    + split; [now apply NoDup_cons|]. intros k0 Hk0. now right.
    + split.
      * apply NoDup_cons. split; [|exact IH1]. intros Hin.
        destruct (IH2 _ Hin) as [->|Hin']; [congruence|contradiction].
      * intros k0 Hk0. apply elem_of_cons in Hk0 as [->|Hk0]; [right; left|].
        destruct (IH2 _ Hk0) as [->|Hin']; [now left|right; now right].
Qed.

Lemma group_append_members (k : K) (x : loc) (groups : list (K * list loc)) k' xs' y :
  (k', xs') ∈ group_append k x groups -> y ∈ xs' ->
  (k' = k /\ y = x) \/ exists xs0, (k', xs0) ∈ groups /\ y ∈ xs0.
Proof.
  induction groups as [|[k0 xs] rest IH]; cbn; intros Hin Hy.
  - apply list_elem_of_singleton in Hin. injection Hin as -> ->.
    apply list_elem_of_singleton in Hy. now left.
  - destruct (decide (k = k0)) as [->|Hne].
    + apply elem_of_cons in Hin as [[= -> ->]|Hin].
      * apply elem_of_app in Hy as [Hy|Hy].
        -- right. exists xs. split; [left|exact Hy].
        -- apply list_elem_of_singleton in Hy. now left.
      * right. exists xs'. split; [now right|exact Hy].
    + apply elem_of_cons in Hin as [[= -> ->]|Hin].
      * right. exists xs. split; [left|exact Hy].
      * destruct (IH Hin Hy) as [?|(xs0 & Hxs0 & Hy0)]; [now left|].
        right. exists xs0. split; [now right|exact Hy0].
Qed.

Lemma group_by_key_spec (keyed : list (K * loc)) :
  concat (snd <$> group_by_key keyed) ≡ₚ snd <$> keyed
  /\ NoDup (fst <$> group_by_key keyed)
  /\ forall k xs x, (k, xs) ∈ group_by_key keyed -> x ∈ xs -> (k, x) ∈ keyed.
Proof.
  unfold group_by_key.
  assert (H : forall groups,
    NoDup (fst <$> groups) ->
    let result := foldl (fun groups kx => group_append kx.1 kx.2 groups) groups keyed in
    concat (snd <$> result) ≡ₚ concat (snd <$> groups) ++ (snd <$> keyed)
    /\ NoDup (fst <$> result)
    /\ forall k xs x, (k, xs) ∈ result -> x ∈ xs ->
         (k, x) ∈ keyed \/ exists xs0, (k, xs0) ∈ groups /\ x ∈ xs0).
  { induction keyed as [|[k x] rest IH]; intros groups Hnd; cbn.
    - rewrite app_nil_r. split; [reflexivity|]. split; [exact Hnd|].
      intros k xs x Hin Hx. right. eauto.
    - destruct (group_append_keys k x groups Hnd) as [Hnd' _].
      destruct (IH (group_append k x groups) Hnd') as (IH1 & IH2 & IH3).
      split; [|split; [exact IH2|]].
      + rewrite IH1, group_append_concat, <- app_assoc. reflexivity.
      + intros k0 xs0 x0 Hin Hx.
        destruct (IH3 k0 xs0 x0 Hin Hx) as [Hr|(xs1 & Hxs1 & Hx1)].
        * left. now right.
        * destruct (group_append_members _ _ _ _ _ _ Hxs1 Hx1) as [[-> ->]|Hold].
          -- left. left.
          -- now right. }
  destruct (H [] (NoDup_nil_2)) as (H1 & H2 & H3). cbn in H1.
  split; [exact H1|]. split; [exact H2|].
  intros k xs x Hin Hx. destruct (H3 k xs x Hin Hx) as [Hr|(xs0 & Hxs0 & _)]; [exact Hr|].
  now apply elem_of_nil in Hxs0.
Qed.
End grouping.

Lemma grouped_spec {K} `{EqDecision K} (key : DetectedField -> K) (fields : list loc)
    (w : World) :
  (forall l, l ∈ fields -> is_Some (heap w !! l)) ->
  exists groups,
    grouped key fields w = (Ok groups, w)
    /\ concat (snd <$> groups) ≡ₚ fields
    /\ NoDup (fst <$> groups)
    /\ forall k xs x, (k, xs) ∈ groups -> x ∈ xs ->
         exists f, heap w !! x = Some f /\ key f = k.
Proof.
  intros Halloc.
  assert (Hread : exists keyed,
    map_M (fun l => let* f := read_field l in ret (key f, l)) fields w = (Ok keyed, w)
    /\ snd <$> keyed = fields
    /\ forall k x, (k, x) ∈ keyed -> exists f, heap w !! x = Some f /\ key f = k).
  { induction fields as [|l rest IH].
    - exists []. split; [reflexivity|]. split; [reflexivity|].
      intros k x Hin. now apply elem_of_nil in Hin.
    - destruct (Halloc l) as [f Hf]; [left|].
      destruct IH as (keyed & Hrun & Hsnd & Hkeys).
      { intros l' Hl'. apply Halloc. now right. }
      exists ((key f, l) :: keyed). split; [|split].
      + cbn [map_M]. unfold bind at 1. unfold bind at 1.
        rewrite (read_field_some _ _ _ Hf). unfold ret at 1.
        unfold bind at 1. rewrite Hrun. reflexivity.
      + cbn. now rewrite Hsnd.
      + intros k x Hin. apply elem_of_cons in Hin as [[= -> ->]|Hin]; [eauto|].
        now apply Hkeys. }
  destruct Hread as (keyed & Hrun & Hsnd & Hkeys).
  destruct (group_by_key_spec keyed) as (H1 & H2 & H3).
  exists (group_by_key keyed). split; [|split; [|split]].
  - unfold grouped. rewrite (bind_of_ok _ _ _ _ _ Hrun). reflexivity.
  - now rewrite H1, Hsnd.
  - exact H2.
  - intros k xs x Hin Hx. apply Hkeys. now apply (H3 k xs x).
Qed.

Lemma only_draws_refl w : only_draws w w.
Proof. split; [reflexivity|lia]. Qed.

Lemma only_draws_trans w1 w2 w3 : only_draws w1 w2 -> only_draws w2 w3 -> only_draws w1 w3.
Proof. intros [H1 H2] [H3 H4]. split; [congruence|lia]. Qed.

Section build_groups_facts.
Context {G : Type} (build : string -> list loc -> M G).
Context (fields_of : G -> list loc) (name_of : G -> string).
Context (R : string -> list loc -> G -> Prop) (h : gmap loc DetectedField).
Hypothesis R_fields : forall name xs g, R name xs g -> fields_of g ≡ₚ xs.
Hypothesis R_name : forall name xs g, R name xs g -> name_of g = name.
Hypothesis build_spec : forall name xs w,
  heap w = h -> (forall l, l ∈ xs -> is_Some (h !! l)) ->
  exists g w', build name xs w = (Ok g, w') /\ only_draws w w' /\ R name xs g.

Lemma build_groups_spec (groups : list (option string * list loc)) :
  forall built direct w,
  heap w = h ->
  (forall k xs, (k, xs) ∈ groups -> forall l, l ∈ xs -> is_Some (h !! l)) ->
  exists news direct_new w',
    build_groups build groups built direct w
    = (Ok (built ++ news, direct ++ direct_new), w')
    /\ only_draws w w'
    /\ (forall g, g ∈ news -> exists name xs, (Some name, xs) ∈ groups /\ R name xs g)
    /\ (forall l, l ∈ direct_new -> exists xs, (None, xs) ∈ groups /\ l ∈ xs)
    /\ direct_new ++ concat (fields_of <$> news) ≡ₚ concat (snd <$> groups)
    /\ name_of <$> news = omap id (fst <$> groups).
Proof.
  induction groups as [|[[name|] xs] rest IH]; intros built direct w Hh Halloc.
  - exists [], [], w. rewrite !app_nil_r. split; [reflexivity|].
    split; [apply only_draws_refl|]. split; [|split; [|split; reflexivity]].
    + intros g Hg. now apply elem_of_nil in Hg.
    + intros l Hl. now apply elem_of_nil in Hl.
  - destruct (build_spec name xs w Hh) as (g & w1 & Hb & Hd & HR).
    { intros l Hl. apply (Halloc (Some name) xs); [left|exact Hl]. }
    destruct (IH (built ++ [g]) direct w1) as (news & dn & w' & Hrun & Hd' & Hn & Hdn & Hp & Hnames).
    { destruct Hd as [-> _]. exact Hh. }
    { intros k ys Hin. apply (Halloc k ys). now right. }
    exists (g :: news), dn, w'. split; [|split; [|split; [|split; [|split]]]].
    + cbn [build_groups]. rewrite (bind_of_ok _ _ _ _ _ Hb), Hrun.
      now rewrite <- app_assoc.
    + exact (only_draws_trans _ _ _ Hd Hd').
    + intros g' Hg'. apply elem_of_cons in Hg' as [->|Hg'].
      * exists name, xs. split; [left|exact HR].
      * destruct (Hn g' Hg') as (n' & ys & Hin & HR'). exists n', ys. split; [now right|exact HR'].
    + intros l Hl. destruct (Hdn l Hl) as (ys & Hin & Hl'). exists ys. split; [now right|exact Hl'].
    + cbn. rewrite <- Hp, (R_fields _ _ _ HR).
      rewrite !app_assoc. apply Permutation_app_tail. apply Permutation_app_comm.
    + cbn. rewrite (R_name _ _ _ HR). f_equal. exact Hnames.
  - destruct (IH built (direct ++ xs) w Hh) as (news & dn & w' & Hrun & Hd' & Hn & Hdn & Hp & Hnames).
    { intros k ys Hin. apply (Halloc k ys). now right. }
    exists news, (xs ++ dn), w'. split; [|split; [exact Hd'|split; [|split; [|split]]]].
    + cbn [build_groups]. rewrite Hrun. now rewrite <- app_assoc.
    + intros g' Hg'. destruct (Hn g' Hg') as (n' & ys & Hin & HR').
      exists n', ys. split; [now right|exact HR'].
    + intros l Hl. apply elem_of_app in Hl as [Hl|Hl].
      * exists xs. split; [left|exact Hl].
      * destruct (Hdn l Hl) as (ys & Hin & Hl'). exists ys. split; [now right|exact Hl'].
    + cbn. rewrite <- Hp, <- app_assoc. reflexivity.
    + cbn. exact Hnames.
Qed.
End build_groups_facts.

Lemma elem_of_concat {A} (x : A) (ls : list (list A)) :
  x ∈ concat ls <-> exists l, x ∈ l /\ l ∈ ls.
Proof.
  induction ls as [|l0 ls IH]; cbn.
  - split; [intros H; now apply elem_of_nil in H|intros (l & _ & H); now apply elem_of_nil in H].
  - rewrite elem_of_app, IH. split.
    + intros [H|(l & Hx & Hl)]; [exists l0; split; [exact H|left]|exists l; split; [exact Hx|now right]].
    + intros (l & Hx & Hl). apply elem_of_cons in Hl as [->|Hl]; [now left|right; eauto].
Qed.

Lemma NoDup_omap_id {A} (l : list (option A)) : NoDup l -> NoDup (omap id l).
Proof.
  induction 1 as [|[a|] l Hnotin Hnd IH]; cbn; [constructor| |exact IH].
  apply NoDup_cons. split; [|exact IH]. intros Hin.
  apply list_elem_of_omap in Hin as ([b|] & Hb & Hid); [|discriminate].
  cbn in Hid. injection Hid as ->. contradiction.
Qed.

Lemma _build_entry_spec rt (h : gmap loc DetectedField) name xs w :
  heap w = h -> (forall l, l ∈ xs -> is_Some (h !! l)) ->
  exists e w', HierarchyBuilder._build_entry rt name xs w = (Ok e, w')
               /\ only_draws w w' /\ entry_built name xs e.
Proof.
  intros _ _. eexists _, _. split; [reflexivity|]. split.
  - split; [reflexivity|]. cbn. lia.
  - split; reflexivity.
Qed.

Lemma _build_subsection_spec rt (h : gmap loc DetectedField) name xs w :
  heap w = h -> (forall l, l ∈ xs -> is_Some (h !! l)) ->
  exists ss w', HierarchyBuilder._build_subsection rt name xs w = (Ok ss, w')
                /\ only_draws w w' /\ subsection_built h name xs ss.
Proof.
  intros Hh Halloc. unfold HierarchyBuilder._build_subsection.
  set (w1 := with_uuid_calls (S (uuid_calls w)) w).
  assert (Hu : uuid4_hex8 rt w = (Ok (hex8 rt (uuid_calls w)), w1)) by reflexivity.
  rewrite (bind_of_ok _ _ _ _ _ Hu).
  assert (Hh1 : heap w1 = h) by (subst w1; destruct w; exact Hh).
  destruct (grouped_spec (fun f => entry (hierarchy f)) xs w1)
    as (groups & Hg & Hperm & Hnd & Hkeys).
  { intros l Hl. rewrite Hh1. now apply Halloc. }
  rewrite (bind_of_ok _ _ _ _ _ Hg).
  destruct (build_groups_spec (HierarchyBuilder._build_entry rt) entry_fields entry_name
              entry_built h
              (fun n ys g (H : entry_built n ys g) => eq_ind_r (fun z => z ≡ₚ ys) (reflexivity ys) (proj2 H))
              (fun n ys g (H : entry_built n ys g) => proj1 H)
              (_build_entry_spec rt h) groups [] [] w1 Hh1)
    as (news & dn & w2 & Hrun & Hd & Hn & Hdn & Hp & Hnames).
  { intros k ys Hin l Hl. apply Halloc. rewrite <- Hperm.
    apply elem_of_concat. exists ys. split; [exact Hl|].
    apply list_elem_of_fmap. exists (k, ys). auto. }
  rewrite (bind_of_ok _ _ _ _ _ Hrun). cbn [app].
  eexists _, _. split; [reflexivity|]. split.
  - destruct Hd as [Hd1 Hd2]. split; [subst w1; destruct w; exact Hd1|].
    subst w1. destruct w; cbn in *. lia.
  - split; [reflexivity|]. split; [|split; [|split]]; cbn.
    + unfold fields_in_subsection. cbn. now rewrite Hp.
    + rewrite Hnames. now apply NoDup_omap_id.
    + intros l Hl. destruct (Hdn l Hl) as (ys & Hin & Hl').
      destruct (Hkeys None ys l Hin Hl') as (f & Hf & Hk).
      exists f. rewrite <- Hh1. auto.
    + intros e He l Hl. destruct (Hn e He) as (n & ys & Hin & [Hen Hef]).
      rewrite Hef in Hl. destruct (Hkeys (Some n) ys l Hin Hl) as (f & Hf & Hk).
      exists f. rewrite <- Hh1, Hen. auto.
Qed.

Lemma stamp_fields (sid : string) (xs : list loc) :
  forall w,
  (forall l, l ∈ xs -> is_Some (heap w !! l)) ->
  exists w',
    for_each xs (fun l => let* f := read_field l in
                          write_field l (set_section_id sid f)) w = (Ok tt, w')
    /\ uuid_calls w' = uuid_calls w
    /\ (forall l, l ∈ xs -> heap w' !! l = set_section_id sid <$> heap w !! l)
    /\ (forall l, l ∉ xs -> heap w' !! l = heap w !! l).
Proof.
  induction xs as [|a rest IH]; intros w Halloc.
  - exists w. split; [reflexivity|]. split; [reflexivity|]. split; [|reflexivity].
    intros l Hl. now apply elem_of_nil in Hl.
  - destruct (Halloc a) as [fa Hfa]; [left|].
    set (w1 := with_heap (<[a := set_section_id sid fa]> (heap w)) w).
    assert (Hw1 : forall l, heap w1 !! l
                  = if decide (l = a) then Some (set_section_id sid fa) else heap w !! l).
    { intros l. subst w1. cbn. destruct (decide (l = a)) as [->|Hne].
      - now rewrite lookup_insert_eq.
      - now rewrite lookup_insert_ne. }
    destruct (IH w1) as (w' & Hrun & Hu & Hin & Hout).
    { intros l Hl. rewrite Hw1. destruct (decide (l = a)); [eauto|]. apply Halloc. now right. }
    exists w'. split; [|split; [|split]].
    + cbn [for_each]. unfold bind at 1. unfold bind at 1.
      rewrite (read_field_some _ _ _ Hfa), write_field_eq. exact Hrun.
    + rewrite Hu. subst w1. now destruct w.
    + intros l Hl. destruct (decide (l ∈ rest)) as [Hr|Hr].
      * rewrite (Hin l Hr), Hw1. destruct (decide (l = a)) as [->|Hne]; [|reflexivity].
        now rewrite Hfa.
      * apply elem_of_cons in Hl as [->|Hl]; [|contradiction].
        rewrite (Hout a Hr), Hw1, Hfa. now destruct (decide (a = a)).
    + intros l Hl. apply not_elem_of_cons in Hl as [Hne Hl].
      rewrite (Hout l Hl), Hw1. now destruct (decide (l = a)).
Qed.

Lemma _build_section_spec rt name xs w :
  (forall l, l ∈ xs -> is_Some (heap w !! l)) ->
  exists s w',
    HierarchyBuilder._build_section rt name xs w = (Ok s, w')
    /\ (uuid_calls w < uuid_calls w')%nat
    /\ section_built (heap w) ("sec_" +:+ hex8 rt (uuid_calls w)) name xs s
    /\ (forall l, l ∈ xs ->
          heap w' !! l
          = set_section_id ("sec_" +:+ hex8 rt (uuid_calls w)) <$> heap w !! l)
    /\ (forall l, l ∉ xs -> heap w' !! l = heap w !! l).
Proof.
  intros Halloc. unfold HierarchyBuilder._build_section.
  set (w1 := with_uuid_calls (S (uuid_calls w)) w).
  assert (Hu : uuid4_hex8 rt w = (Ok (hex8 rt (uuid_calls w)), w1)) by reflexivity.
  rewrite (bind_of_ok _ _ _ _ _ Hu).
  assert (Hh1 : heap w1 = heap w) by (subst w1; now destruct w).
  assert (Hc1 : uuid_calls w1 = S (uuid_calls w)) by (subst w1; now destruct w).
  destruct (grouped_spec (fun f => subsection (hierarchy f)) xs w1)
    as (groups & Hg & Hperm & Hnd & Hkeys).
  { intros l Hl. rewrite Hh1. now apply Halloc. }
  rewrite (bind_of_ok _ _ _ _ _ Hg).
  destruct (build_groups_spec (HierarchyBuilder._build_subsection rt)
              fields_in_subsection subsection_name
              (subsection_built (heap w)) (heap w)
              (fun n ys g (H : subsection_built (heap w) n ys g) => proj1 (proj2 H))
              (fun n ys g (H : subsection_built (heap w) n ys g) => proj1 H)
              (_build_subsection_spec rt (heap w)) groups [] [] w1 Hh1)
    as (news & dn & w2 & Hrun & Hd & Hn & Hdn & Hp & Hnames).
  { intros k ys Hin l Hl. apply Halloc. rewrite <- Hperm.
    apply elem_of_concat. exists ys. split; [exact Hl|].
    apply list_elem_of_fmap. exists (k, ys). auto. }
  rewrite (bind_of_ok _ _ _ _ _ Hrun). cbn [app].
  destruct Hd as [Hh2 Hc2].
  destruct (stamp_fields ("sec_" +:+ hex8 rt (uuid_calls w)) xs w2)
    as (w3 & Hstamp & Hc3 & Hin & Hout).
  { intros l Hl. rewrite Hh2, Hh1. now apply Halloc. }
  rewrite (bind_of_ok _ _ _ _ _ Hstamp).
  eexists _, _. split; [reflexivity|]. split; [lia|]. split; [|split].
  - split; [reflexivity|]. split; [reflexivity|]. split; [|split; [|split]]; cbn.
    + unfold fields_in_section. cbn. now rewrite Hp.
    + rewrite Hnames. now apply NoDup_omap_id.
    + intros l Hl. destruct (Hdn l Hl) as (ys & Hys & Hl').
      destruct (Hkeys None ys l Hys Hl') as (f & Hf & Hk).
      exists f. rewrite <- Hh1. auto.
    + intros ss Hss. destruct (Hn ss Hss) as (n & ys & Hys & HR).
      assert (Hname : subsection_name ss = n) by apply HR.
      exists ys. rewrite Hname. split; [exact HR|].
      intros l Hl. destruct (Hkeys (Some n) ys l Hys Hl) as (f & Hf & Hk).
      exists f. rewrite <- Hh1. auto.
  - intros l Hl. rewrite (Hin l Hl), Hh2, Hh1. reflexivity.
  - intros l Hl. rewrite (Hout l Hl), Hh2, Hh1. reflexivity.
Qed.

Lemma restamped_refl h : restamped h h.
Proof. intros l f Hf. exists (section_id f). rewrite Hf. now destruct f. Qed.

Lemma restamped_trans h1 h2 h3 : restamped h1 h2 -> restamped h2 h3 -> restamped h1 h3.
Proof.
  intros H12 H23 l f Hf. destruct (H12 l f Hf) as [s1 H1].
  destruct (H23 l _ H1) as [s2 H2]. exists s2. exact H2.
Qed.

Lemma restamped_hierarchy h h' l f :
  restamped h h' -> h !! l = Some f ->
  exists f', h' !! l = Some f' /\ hierarchy f' = hierarchy f.
Proof. intros H Hf. destruct (H l f Hf) as [sid Hs]. eexists. split; [exact Hs|reflexivity]. Qed.

Lemma subsection_built_restamped h h' name xs ss :
  restamped h h' -> subsection_built h name xs ss -> subsection_built h' name xs ss.
Proof.
  intros Hr (H1 & H2 & H3 & H4 & H5). repeat split; try assumption.
  - intros l Hl. destruct (H4 l Hl) as (f & Hf & Hk).
    destruct (restamped_hierarchy _ _ _ _ Hr Hf) as (f' & Hf' & Hh). exists f'. now rewrite Hh.
  - intros e He l Hl. destruct (H5 e He l Hl) as (f & Hf & Hk).
    destruct (restamped_hierarchy _ _ _ _ Hr Hf) as (f' & Hf' & Hh). exists f'. now rewrite Hh.
Qed.

Lemma section_built_restamped h h' sid name xs s :
  restamped h h' -> section_built h sid name xs s -> section_built h' sid name xs s.
Proof.
  intros Hr (H1 & H2 & H3 & H4 & H5 & H6). repeat split; try assumption.
  - intros l Hl. destruct (H5 l Hl) as (f & Hf & Hk).
    destruct (restamped_hierarchy _ _ _ _ Hr Hf) as (f' & Hf' & Hh). exists f'. now rewrite Hh.
  - intros ss Hss. destruct (H6 ss Hss) as (ys & Hb & Hys). exists ys.
    split; [exact (subsection_built_restamped _ _ _ _ _ Hr Hb)|].
    intros l Hl. destruct (Hys l Hl) as (f & Hf & Hk).
    destruct (restamped_hierarchy _ _ _ _ Hr Hf) as (f' & Hf' & Hh). exists f'. now rewrite Hh.
Qed.

Lemma dict_set_fresh {V} (key : string) (value : V) (d : list (string * V)) :
  key ∉ fst <$> d -> dict_set key value d = d ++ [(key, value)].
Proof.
  induction d as [|[k v] rest IH]; cbn; intros Hk; [reflexivity|].
  apply not_elem_of_cons in Hk as [Hne Hk].
  destruct (String.eqb k key) eqn:E; [apply String.eqb_eq in E; congruence|].
  now rewrite IH.
Qed.

Lemma sec_prefix_inj (a b : string) : "sec_" +:+ a = "sec_" +:+ b -> a = b.
Proof. unfold String.app. cbn. intros H. now injection H. Qed.

Lemma build_sections_counter rt (groups : list (string * list loc)) :
  forall sections w result w',
  (forall k xs l, (k, xs) ∈ groups -> l ∈ xs -> is_Some (heap w !! l)) ->
  HierarchyBuilder.build_sections rt groups sections w = (Ok result, w') ->
  (uuid_calls w <= uuid_calls w')%nat.
Proof.
  induction groups as [|[k ys] rest IH]; intros sections w result w' Halloc Hrun;
    cbn [HierarchyBuilder.build_sections] in Hrun.
  - injection Hrun as _ <-. lia.
  - destruct (_build_section_spec rt k ys w) as (s & w1 & Hs & Hc & _ & Hin & Hout).
    { intros l Hl. apply (Halloc k ys); [left|exact Hl]. }
    rewrite (bind_of_ok _ _ _ _ _ Hs) in Hrun.
    apply IH in Hrun; [lia|].
    intros k' xs l Hin' Hl.
    destruct (Halloc k' xs l) as [f Hf]; [now right|exact Hl|].
    destruct (decide (l ∈ ys)) as [Hy|Hy].
    + rewrite (Hin l Hy), Hf. eauto.
    + rewrite (Hout l Hy), Hf. eauto.
Qed.

Lemma Forall2_impl_elem {A B} (P Q : A -> B -> Prop) (l : list A) (k : list B) :
  Forall2 P l k ->
  (forall x y, x ∈ l -> y ∈ k -> P x y -> Q x y) ->
  Forall2 Q l k.
Proof.
  induction 1 as [|x y l k Hxy _ IH]; intros H; constructor.
  - apply H; [left|left|exact Hxy].
  - apply IH. intros x' y' Hx' Hy'. apply H; now right.
Qed.

Lemma Forall2_elem_r {A B} (P : A -> B -> Prop) (l : list A) (k : list B) (y : B) :
  Forall2 P l k -> y ∈ k -> exists x, x ∈ l /\ P x y.
Proof.
  induction 1 as [|x y' l k Hxy _ IH]; intros Hy; [now apply elem_of_nil in Hy|].
  apply elem_of_cons in Hy as [->|Hy].
  - exists x. split; [left|exact Hxy].
  - destruct (IH Hy) as (x' & Hx' & HP). exists x'. split; [now right|exact HP].
Qed.

Lemma build_sections_spec rt (h0 : gmap loc DetectedField) (c0 : nat)
    (groups : list (string * list loc)) :
  forall done sections w result w',
  HierarchyBuilder.build_sections rt groups sections w = (Ok result, w') ->
  (forall i j, (c0 <= i < j)%nat -> (j < uuid_calls w')%nat -> hex8 rt i <> hex8 rt j) ->
  NoDup (fst <$> (done ++ groups)) ->
  (forall k xs x, (k, xs) ∈ done ++ groups -> x ∈ xs ->
     exists f, h0 !! x = Some f /\ section (hierarchy f) = k) ->
  sections_built rt h0 c0 done sections w ->
  sections_built rt h0 c0 (done ++ groups) result w'.
Proof.
  induction groups as [|[k ys] rest IH];
    intros done sections w result w' Hrun Hfresh Hnd Hkeys Hinv;
    cbn [HierarchyBuilder.build_sections] in Hrun.
  - injection Hrun as <- <-. now rewrite app_nil_r.
  - destruct Hinv as (Hre & Hframe & Hc0 & Hids & Hall).
    assert (Hallocw : forall k' xs l, (k', xs) ∈ done ++ (k, ys) :: rest -> l ∈ xs ->
                      is_Some (heap w !! l)).
    { intros k' xs l Hin Hl. destruct (Hkeys k' xs l Hin Hl) as (f & Hf & _).
      destruct (Hre l f Hf) as [sid Hs]. eauto. }
    destruct (_build_section_spec rt k ys w) as (s & w1 & Hs & Hc & Hbuilt & Hin & Hout).
    { intros l Hl. apply (Hallocw k ys); [|exact Hl].
      apply elem_of_app. right. left. }
    rewrite (bind_of_ok _ _ _ _ _ Hs) in Hrun.
    assert (Hre1 : restamped (heap w) (heap w1)).
    { intros l f Hf. destruct (decide (l ∈ ys)) as [Hy|Hy].
      - rewrite (Hin l Hy), Hf. eexists. reflexivity.
      - rewrite (Hout l Hy), Hf. exists (section_id f). now destruct f. }
    assert (Hmono : (uuid_calls w1 <= uuid_calls w')%nat).
    { eapply (build_sections_counter rt rest); [|exact Hrun].
      intros k' xs l Hin' Hl.
      destruct (Hallocw k' xs l) as [f Hf]; [|exact Hl|].
      - apply elem_of_app. right. now right.
      - destruct (Hre1 l f Hf) as [sid Hsid]. eauto. }
    assert (Hsid : sec_section_id s = "sec_" +:+ hex8 rt (uuid_calls w)) by apply Hbuilt.
    assert (Hnew : sec_section_id s ∉ fst <$> sections).
    { intros Hmem. apply list_elem_of_fmap in Hmem as (ks & Hks & Hmem).
      destruct (Forall2_elem_r _ _ _ _ Hall Hmem) as (kx & _ & (i & Hi & Hid) & _).
      rewrite Hsid, Hid in Hks. apply sec_prefix_inj in Hks.
      apply (Hfresh i (uuid_calls w)); [lia|lia|now symmetry]. }
    rewrite (dict_set_fresh _ _ _ Hnew) in Hrun.
    rewrite cons_middle, app_assoc in Hnd, Hkeys |- *.
    apply (IH (done ++ [(k, ys)]) _ w1 result w' Hrun Hfresh Hnd Hkeys).
    assert (Hapart : forall k1 xs1 l, (k1, xs1) ∈ done -> l ∈ xs1 -> l ∉ ys).
    { intros k1 xs1 l Hin1 Hl Hy.
      destruct (Hkeys k1 xs1 l) as (f1 & Hf1 & Hk1); [|exact Hl|].
      { apply elem_of_app. left. apply elem_of_app. now left. }
      destruct (Hkeys k ys l) as (f2 & Hf2 & Hk2); [|exact Hy|].
      { apply elem_of_app. left. apply elem_of_app. right. left. }
      assert (k1 = k) as -> by congruence.
      rewrite !fmap_app in Hnd. apply NoDup_app in Hnd as [Hnd _].
      apply NoDup_app in Hnd as (_ & Hdisj & _).
      apply (Hdisj k); [|left].
      apply list_elem_of_fmap. exists (k, xs1). auto. }
    split; [|split; [|split; [|split]]].
    + exact (restamped_trans _ _ _ Hre Hre1).
    + intros l Hl. rewrite (Hout l), Hframe; [reflexivity| |].
      * intros k' xs Hin'. apply (Hl k' xs). apply elem_of_app. now left.
      * apply (Hl k ys). apply elem_of_app. right. left.
    + lia.
    + rewrite fmap_app. apply NoDup_app. split; [exact Hids|]. split.
      * intros x Hx Hx'. apply list_elem_of_singleton in Hx'. cbn in Hx'. subst x. contradiction.
      * apply NoDup_singleton.
    + apply Forall2_app.
      * apply (Forall2_impl_elem _ _ _ _ Hall).
        intros [k1 xs1] ks Hkx _ ((i & Hi & Hid) & Hb & Hst). cbn [fst snd] in *.
        split; [exists i; split; [lia|exact Hid]|]. split.
        -- exact (section_built_restamped _ _ _ _ _ _ Hre1 Hb).
        -- intros l Hl. rewrite (Hout l (Hapart k1 xs1 l Hkx Hl)). now apply Hst.
      * constructor; [|constructor]. cbn [fst snd]. split; [|split].
        -- exists (uuid_calls w). split; [lia|exact Hsid].
        -- rewrite Hsid. exact (section_built_restamped _ _ _ _ _ _ Hre1 Hbuilt).
        -- intros l Hl. rewrite (Hin l Hl), Hsid.
           destruct (Hallocw k ys l) as [f Hf]; [|exact Hl|].
           ++ apply elem_of_app. right. left.
           ++ now rewrite Hf.
Qed.

Lemma sections_built_fields rt h0 c0 done result w :
  sections_built rt h0 c0 done result w ->
  fields_in_sections (snd <$> result) ≡ₚ concat (snd <$> done)
  /\ section_name <$> (snd <$> result) = fst <$> done
  /\ sec_section_id <$> (snd <$> result) = fst <$> result.
Proof.
  intros (_ & _ & _ & _ & Hall). unfold fields_in_sections.
  induction Hall as [|[k xs] [sid s] done result (_ & Hb & _) _ IH]; [auto|].
  destruct IH as (IH1 & IH2 & IH3). destruct Hb as (Hid & Hname & Hperm & _).
  cbn [fst snd] in *. cbn. rewrite IH1, IH2, IH3, Hperm, Hid, Hname. auto.
Qed.

Lemma fields_in_subsection_of_section (s : Section) (ss : Subsection) (l : loc) :
  ss ∈ subsections s -> l ∈ fields_in_subsection ss -> l ∈ fields_in_section s.
Proof.
  intros Hss Hl. unfold fields_in_section. apply elem_of_app. right.
  apply elem_of_concat. exists (fields_in_subsection ss). split; [exact Hl|].
  now apply list_elem_of_fmap_2.
Qed.

Lemma section_built_in_place h sid name xs s :
  section_built h sid name xs s ->
  (forall l, l ∈ xs -> exists f, h !! l = Some f /\ section (hierarchy f) = name) ->
  section_in_place h s.
Proof.
  intros (Hid & Hname & Hperm & Hnd & Hdirect & Hsubs) Hsec.
  assert (Hof : forall l, l ∈ fields_in_section s ->
                exists f, h !! l = Some f /\ section (hierarchy f) = section_name s).
  { intros l Hl. rewrite Hname. apply Hsec. now rewrite <- Hperm. }
  split.
  - intros l Hl. destruct (Hdirect l Hl) as (f & Hf & Hsub).
    destruct (Hof l) as (f' & Hf' & Hs).
    { unfold fields_in_section. apply elem_of_app. now left. }
    exists f. assert (f' = f) as -> by congruence. auto.
  - intros ss Hss. destruct (Hsubs ss Hss) as (ys & (_ & Hp & _ & Hd & He) & Hys).
    assert (Hin : forall l, l ∈ fields_in_subsection ss ->
              exists f, h !! l = Some f /\ section (hierarchy f) = section_name s
                        /\ subsection (hierarchy f) = Some (subsection_name ss)).
    { intros l Hl. destruct (Hof l (fields_in_subsection_of_section s ss l Hss Hl))
        as (f & Hf & Hs).
      destruct (Hys l) as (f' & Hf' & Hsub); [now rewrite <- Hp|].
      exists f. assert (f' = f) as -> by congruence. auto. }
    split.
    + intros l Hl. destruct (Hin l) as (f & Hf & Hs & Hsub).
      { unfold fields_in_subsection. apply elem_of_app. now left. }
      destruct (Hd l Hl) as (f' & Hf' & Hent).
      exists f. assert (f' = f) as -> by congruence. auto.
    + intros e He' l Hl. destruct (Hin l) as (f & Hf & Hs & Hsub).
      { unfold fields_in_subsection. apply elem_of_app. right.
        apply elem_of_concat. exists (entry_fields e). split; [exact Hl|].
        now apply list_elem_of_fmap_2. }
      destruct (He e He' l Hl) as (f' & Hf' & Hent).
      exists f. assert (f' = f) as -> by congruence. auto.
Qed.

(** X15. [build_hierarchy] on a list of existing fields, when the
    identifiers it draws are all different, places every field exactly
    once: the fields found in the sections, at any depth, are those of
    the list; there is one section for each section name and no two
    sections share an identifier; every field stands in the section,
    subsection and entry its own hierarchy names (directly in the
    section or subsection where it names none); every field carries the
    identifier of its section; and nothing else changes. *)
Theorem build_hierarchy_places_every_field
    (rt : Runtime) (self self' : HierarchyBuilder.t) (fields : list loc)
    (sections : list Section) (w w' : World)
    (Halloc : forall l, l ∈ fields -> is_Some (heap w !! l))
    (Hrun : HierarchyBuilder.build_hierarchy rt self fields w = (Ok (self', sections), w'))
    (Hfresh : forall i j, (uuid_calls w <= i < j)%nat -> (j < uuid_calls w')%nat ->
                hex8 rt i <> hex8 rt j) :
  fields_in_sections sections ≡ₚ fields
  /\ NoDup (section_name <$> sections)
  /\ NoDup (sec_section_id <$> sections)
  /\ (forall s, s ∈ sections ->
        section_in_place (heap w') s
        /\ forall l, l ∈ fields_in_section s ->
             section_id <$> heap w' !! l = Some (sec_section_id s))
  /\ restamped (heap w) (heap w')
  /\ (forall l, l ∉ fields -> heap w' !! l = heap w !! l).
Proof.
  unfold HierarchyBuilder.build_hierarchy in Hrun.
  destruct (grouped_spec (fun f => section (hierarchy f)) fields w Halloc)
    as (groups & Hg & Hperm & Hnd & Hkeys).
  rewrite (bind_of_ok _ _ _ _ _ Hg) in Hrun.
  apply bind_ok_inv in Hrun as (result & w1 & Hrun & Hret).
  injection Hret as <- <- <-.
  assert (Hinv : sections_built rt (heap w) (uuid_calls w) ([] ++ groups) result w1).
  { apply (build_sections_spec rt (heap w) (uuid_calls w) groups [] [] w result w1 Hrun Hfresh).
    - exact Hnd.
    - exact Hkeys.
    - split; [apply restamped_refl|]. split; [reflexivity|]. split; [lia|].
      split; [constructor|constructor]. }
  cbn [app] in Hinv.
  destruct (sections_built_fields _ _ _ _ _ _ Hinv) as (Hf1 & Hf2 & Hf3).
  destruct Hinv as (Hre & Hframe & _ & Hids & Hall).
  split; [now rewrite Hf1|]. split; [now rewrite Hf2|]. split; [now rewrite Hf3|].
  split; [|split; [exact Hre|]].
  - intros s Hs. apply list_elem_of_fmap in Hs as ([sid s0] & -> & Hs). cbn [snd].
    destruct (Forall2_elem_r _ _ _ _ Hall Hs) as ([k xs] & Hkx & _ & Hb & Hst).
    cbn [fst snd] in *.
    assert (Hsid : sec_section_id s0 = sid) by apply Hb.
    split.
    + apply (section_built_in_place _ _ _ _ _ Hb). intros l Hl.
      destruct (Hkeys k xs l Hkx Hl) as (f & Hf & Hk).
      destruct (restamped_hierarchy _ _ _ _ Hre Hf) as (f' & Hf' & Hh).
      exists f'. now rewrite Hh.
    + intros l Hl. rewrite Hsid. apply Hst.
      destruct Hb as (_ & _ & Hp & _). now rewrite <- Hp.
  - intros l Hl. apply Hframe. intros k xs Hin Hx. apply Hl. rewrite <- Hperm.
    apply elem_of_concat. exists xs. split; [exact Hx|].
    apply list_elem_of_fmap. exists (k, xs). auto.
Qed.

Lemma build_hierarchy_places_every_field_witness :
  let sections := snd hierarchy_value in
  let h' := heap (snd hierarchy_run) in
  fields_in_sections sections ≡ₚ [0%nat; 1%nat; 2%nat; 3%nat]
  /\ NoDup (section_name <$> sections)
  /\ NoDup (sec_section_id <$> sections)
  /\ (forall s, s ∈ sections ->
        section_in_place h' s
        /\ forall l, l ∈ fields_in_section s ->
             section_id <$> h' !! l = Some (sec_section_id s))
  /\ restamped (heap hierarchy_world) h'
  /\ (forall l, l ∉ [0%nat; 1%nat; 2%nat; 3%nat] -> h' !! l = heap hierarchy_world !! l).
Proof.
  apply (build_hierarchy_places_every_field example_runtime_uuids
           (HierarchyBuilder.mk []) (fst hierarchy_value) [0%nat; 1%nat; 2%nat; 3%nat]
           (snd hierarchy_value) hierarchy_world (snd hierarchy_run)).
  - intros l Hl. repeat (apply elem_of_cons in Hl as [->|Hl]; [eexists; reflexivity|]).
    now apply elem_of_nil in Hl.
  - vm_compute. reflexivity.
  - intros i j Hij Hj. vm_compute in Hj.
    do 4 (destruct j as [|j]; [do 4 (destruct i as [|i]; [try lia; vm_compute; discriminate|]); lia|]).
    lia.
Defined.

(** The hierarchy of the example: section 13 holds subsection 13A with
    one entry of two fields and one field of its own; section 14 holds
    one field directly. *)
Example hierarchy_of_example :
  snd hierarchy_value
  = [mkSection "sec_0a000000" "Section 13"
       [mkSubsection "subsec_1a000000" "13A"
          [mkEntry "entry_2a000000" "Entry 1" [0%nat; 3%nat]] [1%nat]] [];
     mkSection "sec_3a000000" "Section 14" [] [2%nat]].
Proof. vm_compute. reflexivity. Qed.

(** ** Theorems: breakdowns *)

Lemma total_count_insert (b : gmap string Z) (k : string) (n : Z) :
  total_count (<[k := n]> b) = total_count b - default 0 (b !! k) + n.
Proof.
  unfold total_count.
  destruct (b !! k) as [old|] eqn:Hk; cbn.
  - rewrite <- (insert_delete_eq b k n).
    rewrite map_fold_insert_L; [|intros; lia|apply lookup_delete_eq].
    rewrite (map_fold_delete_L _ _ k old b); [lia|intros; lia|exact Hk].
  - rewrite map_fold_insert_L; [lia|intros; lia|exact Hk].
Qed.

Lemma count_key_snoc key k fields f :
  count_key key k (fields ++ [f])
  = count_key key k fields + (if String.eqb (key f) k then 1 else 0).
Proof.
  unfold count_key. rewrite List.filter_app, length_app. cbn.
  destruct (String.eqb (key f) k); cbn; lia.
Qed.

Lemma breakdown_by_snoc key fields f :
  breakdown_by key (fields ++ [f])
  = <[key f := default 0 (breakdown_by key fields !! key f) + 1]> (breakdown_by key fields).
Proof. unfold breakdown_by. now rewrite foldl_snoc. Qed.

Lemma breakdown_by_counts (key : DetectedField -> string) (fields : list DetectedField) :
  (forall k, breakdown_by key fields !! k
             = if decide (0 < count_key key k fields) then Some (count_key key k fields)
               else None)
  /\ total_count (breakdown_by key fields) = Z.of_nat (length fields).
Proof.
  induction fields as [|f fields IH] using rev_ind.
  - split; [|reflexivity]. intros k. unfold breakdown_by. cbn. apply lookup_empty.
  - destruct IH as [IH1 IH2]. rewrite breakdown_by_snoc. split.
    + intros k. rewrite count_key_snoc.
      assert (Hpos : 0 <= count_key key k fields) by (unfold count_key; lia).
      destruct (decide (key f = k)) as [<-|Hne].
      * rewrite lookup_insert_eq, String.eqb_refl, IH1.
        destruct (decide (0 < count_key key (key f) fields));
          destruct (decide (0 < count_key key (key f) fields + 1)); cbn; try lia;
          f_equal; lia.
      * rewrite lookup_insert_ne by exact Hne. rewrite IH1.
        apply String.eqb_neq in Hne. rewrite Hne, Z.add_0_r. reflexivity.
    + rewrite total_count_insert, IH2, length_app. cbn. lia.
Qed.

(** X16. The two breakdowns of the detector count every field once:
    under each type, respectively section, they hold the number of
    fields that have it, which is at least 1; a type or section no field
    has is not among the keys; and the counts of either breakdown add up
    to the number of fields. *)
Theorem breakdowns_count_every_field_once (fields : list DetectedField) :
  let by_type := get_field_type_breakdown fields in
  let by_section := get_section_breakdown fields in
  let of_type k := count_key (fun f => FieldType_value (field_type f)) k fields in
  let of_section k := count_key (fun f => section (hierarchy f)) k fields in
  (forall k, by_type !! k = if decide (0 < of_type k) then Some (of_type k) else None)
  /\ total_count by_type = Z.of_nat (length fields)
  /\ (forall k, by_section !! k
                = if decide (0 < of_section k) then Some (of_section k) else None)
  /\ total_count by_section = Z.of_nat (length fields).
Proof.
  cbn zeta. unfold get_field_type_breakdown, get_section_breakdown.
  destruct (breakdown_by_counts (fun f => FieldType_value (field_type f)) fields) as [H1 H2].
  destruct (breakdown_by_counts (fun f => section (hierarchy f)) fields) as [H3 H4].
  auto.
Qed.

Example breakdown_of_example :
  get_section_breakdown
    [field_in "field_a" "Section 13" None None; field_in "field_c" "Section 14" None None;
     field_in "field_b" "Section 13" None None]
  = {[ "Section 13" := 2; "Section 14" := 1 ]}.
Proof. vm_compute. reflexivity. Qed.

(** ** Theorems: removing from the cache *)

Lemma well_keyed_delete (entries : gmap string CacheEntry) (k : string) :
  well_keyed entries -> well_keyed (delete k entries).
Proof.
  intros H k' e Hk. apply lookup_delete_Some in Hk as [_ Hk]. now apply H.
Qed.

(** X17. [remove_entry] tells whether the index knew the hash, and
    afterwards it does not: the entry is gone, the other entries are
    as before, and there is one entry less when there was one.  A
    removal that finds nothing writes nothing; one that finds the entry
    rewrites the index file, so that (every entry being filed under its
    own hash) a new [CacheIndex] over the folder reads back what is
    left. *)
Theorem remove_entry_forgets_the_hash (rt : Runtime) (folder document_hash : string)
    (w : World) (Hkeys : well_keyed (cache_entries w)) :
  let self := mkCacheIndex folder (folder +:+ "/" +:+ "cache-index.json") in
  let removed := remove_entry rt self document_hash w in
  let known := bool_decide (is_Some (cache_entries w !! document_hash)) in
  fst removed = Ok known
  /\ cache_entries (snd removed) = delete document_hash (cache_entries w)
  /\ get_entry document_hash (snd removed) = (Ok None, snd removed)
  /\ fst (get_entry_count (snd removed))
     = Ok (fst_or_zero (get_entry_count w) - (if known then 1 else 0))
  /\ (known = false -> snd removed = w)
  /\ (known = true -> new_CacheIndex folder (snd removed) = (Ok self, snd removed)).
Proof.
  intros self removed known. subst removed known.
  destruct (cache_entries w !! document_hash) as [e|] eqn:He.
  - rewrite bool_decide_eq_true_2 by eauto.
    assert (Hrem : remove_entry rt self document_hash w
      = (Ok true,
         with_fs (<[folder +:+ "/" +:+ "cache-index.json" :=
                     Document (JDict [("lastUpdated",
                                       JStr (isoformat rt (now_at rt (clock w))));
                                      ("entries",
                                       JList ((fun kv => json_of_entry kv.2)
                                              <$> map_to_list
                                                    (delete document_hash (cache_entries w))))])]>
                    (fs w))
           (with_cache_entries (delete document_hash (cache_entries w))
              (with_clock (S (clock w)) w)))).
    { unfold remove_entry, bind, gets. rewrite He. destruct w. reflexivity. }
    rewrite Hrem. cbn [fst snd].
    split; [reflexivity|]. split; [now destruct w|]. split.
    { unfold get_entry, gets. f_equal. destruct w; cbn. now rewrite lookup_delete_eq. }
    split.
    { unfold get_entry_count, gets, fst_or_zero. cbn [fst value_or]. f_equal.
      replace (cache_entries _) with (delete document_hash (cache_entries w))
        by now destruct w.
      rewrite map_size_delete_Some by eauto.
      assert (0 < size (cache_entries w))%nat; [|lia].
      destruct (decide (size (cache_entries w) = 0%nat)) as [E|E]; [|lia].
      apply map_size_empty_inv in E. rewrite E, lookup_empty in He. discriminate. }
    split; [discriminate|]. intros _.
    rewrite (new_CacheIndex_reads_entries folder
               (JStr (isoformat rt (now_at rt (clock w))))
               (delete document_hash (cache_entries w))).
    + reflexivity.
    + now apply well_keyed_delete.
    + destruct w; cbn -[map_to_list]. now rewrite lookup_insert_eq.
  - rewrite bool_decide_eq_false_2 by (intros [? ?]; discriminate).
    assert (Hrem : remove_entry rt self document_hash w = (Ok false, w)).
    { unfold remove_entry, bind, gets. now rewrite He. }
    rewrite Hrem. cbn [fst snd].
    split; [reflexivity|]. split; [now rewrite delete_id|].
    split; [unfold get_entry, gets; now rewrite He|].
    split; [unfold get_entry_count, gets, fst_or_zero; cbn [fst value_or]; f_equal; lia|].
    split; [reflexivity|discriminate].
Qed.

Lemma remove_entry_forgets_the_hash_witness :
  let removed := remove_entry (example_runtime service_exact) example_index "d41d8cd9"
                   stale_index_world in
  let known := bool_decide (is_Some (cache_entries stale_index_world !! "d41d8cd9")) in
  fst removed = Ok known
  /\ cache_entries (snd removed) = delete "d41d8cd9" (cache_entries stale_index_world)
  /\ get_entry "d41d8cd9" (snd removed) = (Ok None, snd removed)
  /\ fst (get_entry_count (snd removed))
     = Ok (fst_or_zero (get_entry_count stale_index_world) - (if known then 1 else 0))
  /\ (known = false -> snd removed = stale_index_world)
  /\ (known = true ->
      new_CacheIndex "data/golden-maps" (snd removed) = (Ok example_index, snd removed)).
Proof.
  apply (remove_entry_forgets_the_hash (example_runtime service_exact) "data/golden-maps"
           "d41d8cd9" stale_index_world).
  intros k e' Hk. change (cache_entries stale_index_world) with
    ({[ "d41d8cd9" := mkCacheEntry "cache_000000000000" "d41d8cd9" "form.pdf"
                        "2024-01-01T00:00:00" "golden.json" 0 0 ]}
     : gmap string CacheEntry) in Hk.
  apply lookup_singleton_Some in Hk as [<- <-]. reflexivity.
Defined.

(** ** Theorems: the store of golden maps *)

(** X18. A golden map that [store_golden_map] has copied into the store
    is the one [retrieve_golden_map] hands out for the same hash, and
    [has_cached_map] knows it; once [delete_cached_map] has removed it,
    it is neither known nor handed out, and a second removal finds
    nothing.  The other files stay as they are.  (The golden map is a
    JSON document at a path other than its place in the store.) *)
Theorem stored_golden_map_is_retrieved (rt : Runtime) (self : SidecarManager)
    (document_hash golden_map_path : string) (golden_map : json) (w : World)
    (Hsource : fs w !! golden_map_path = Some (Document golden_map))
    (Hapart : golden_map_path <> sidecar_path self document_hash) :
  let stored := store_golden_map rt self document_hash golden_map_path w in
  let w1 := snd stored in
  let deleted := delete_cached_map self document_hash w1 in
  let w2 := snd deleted in
  fst stored = Ok ("cache_" +:+ uuid4_hex12 rt (uuid_calls w))
  /\ fs w1 = <[sidecar_path self document_hash := Document golden_map]> (fs w)
  /\ retrieve_golden_map self document_hash w1 = (Ok (Some golden_map), w1)
  /\ has_cached_map self document_hash w1 = (Ok true, w1)
  /\ fst deleted = Ok true
  /\ retrieve_golden_map self document_hash w2 = (Ok None, w2)
  /\ has_cached_map self document_hash w2 = (Ok false, w2)
  /\ delete_cached_map self document_hash w2 = (Ok false, w2)
  /\ forall path, path <> sidecar_path self document_hash -> fs w2 !! path = fs w !! path.
Proof.
  intros stored w1 deleted w2.
  assert (Hstored : stored
    = (Ok ("cache_" +:+ uuid4_hex12 rt (uuid_calls w)),
       with_fs (<[sidecar_path self document_hash := Document golden_map]> (fs w))
         (with_uuid_calls (S (uuid_calls w)) w))).
  { subst stored. unfold store_golden_map, uuid4, try_except, copy2, bind, gets, modify, ret.
    destruct w. cbn in Hsource |- *. rewrite Hsource. reflexivity. }
  assert (Hfs1 : fs w1 = <[sidecar_path self document_hash := Document golden_map]> (fs w)).
  { subst w1. rewrite Hstored. now destruct w. }
  assert (Hdeleted : deleted
    = (Ok true, with_fs (delete (sidecar_path self document_hash) (fs w1)) w1)).
  { assert (Hl : fs w1 !! sidecar_path self document_hash = Some (Document golden_map))
      by (rewrite Hfs1; apply lookup_insert_eq).
    subst deleted. unfold delete_cached_map, bind, gets, modify, ret.
    rewrite Hl. reflexivity. }
  assert (Hfs2 : fs w2 = delete (sidecar_path self document_hash) (fs w1)).
  { subst w2. rewrite Hdeleted. now destruct w1. }
  split; [now rewrite Hstored|]. split; [exact Hfs1|]. split; [|split; [|split; [|split; [|split; [|split]]]]].
  - unfold retrieve_golden_map, bind, gets. rewrite Hfs1, lookup_insert_eq. reflexivity.
  - unfold has_cached_map, bind, gets, ret. rewrite Hfs1, lookup_insert_eq. reflexivity.
  - now rewrite Hdeleted.
  - unfold retrieve_golden_map, bind, gets. rewrite Hfs2, lookup_delete_eq. reflexivity.
  - unfold has_cached_map, bind, gets, ret. rewrite Hfs2, lookup_delete_eq. reflexivity.
  - unfold delete_cached_map, bind, gets, ret. rewrite Hfs2, lookup_delete_eq. reflexivity.
  - intros path Hne. rewrite Hfs2, Hfs1, lookup_delete_ne, lookup_insert_ne; auto.
Qed.

Lemma stored_golden_map_is_retrieved_witness :
  let rt := example_runtime service_exact in
  let self := mkSidecarManager "data/golden-maps" in
  let stored := store_golden_map rt self "d41d8cd9" "golden.json" golden_map_world in
  let w1 := snd stored in
  let deleted := delete_cached_map self "d41d8cd9" w1 in
  let w2 := snd deleted in
  fst stored = Ok ("cache_" +:+ uuid4_hex12 rt (uuid_calls golden_map_world))
  /\ fs w1 = <[sidecar_path self "d41d8cd9" := Document example_golden_map]>
               (fs golden_map_world)
  /\ retrieve_golden_map self "d41d8cd9" w1 = (Ok (Some example_golden_map), w1)
  /\ has_cached_map self "d41d8cd9" w1 = (Ok true, w1)
  /\ fst deleted = Ok true
  /\ retrieve_golden_map self "d41d8cd9" w2 = (Ok None, w2)
  /\ has_cached_map self "d41d8cd9" w2 = (Ok false, w2)
  /\ delete_cached_map self "d41d8cd9" w2 = (Ok false, w2)
  /\ forall path, path <> sidecar_path self "d41d8cd9" ->
       fs w2 !! path = fs golden_map_world !! path.
Proof.
  apply (stored_golden_map_is_retrieved (example_runtime service_exact)
           (mkSidecarManager "data/golden-maps") "d41d8cd9" "golden.json"
           example_golden_map golden_map_world).
  - reflexivity.
  - discriminate.
Defined.

(** ** Theorems: deleted checkpoints *)

(** X19. [delete_checkpoint] tells whether there was a checkpoint file
    for the identifier and leaves none: [load_checkpoint] then returns
    [None], a second deletion returns [False], and [resume] of the
    identifier raises without changing anything.  What it raises is
    [TypeError]: the [WorkflowStateError] it means to raise takes three
    arguments and is given two.  Other files are untouched. *)
Theorem deleted_checkpoint_cannot_be_resumed (rt : Runtime) (self : DiscoveryWorkflow)
    (wid : string) (w : World) :
  let manager := _checkpoint_manager self in
  let path := checkpoint_path (_checkpoint_folder manager) wid in
  let deleted := delete_checkpoint manager wid w in
  let w1 := snd deleted in
  fst deleted = Ok (bool_decide (is_Some (fs w !! path)))
  /\ fs w1 = delete path (fs w)
  /\ load_checkpoint rt manager wid w1 = (Ok None, w1)
  /\ delete_checkpoint manager wid w1 = (Ok false, w1)
  /\ resume rt self wid w1
     = (Raise (TypeError
                 "WorkflowStateError.__init__() missing required positional argument"),
        w1).
Proof.
  intros manager path deleted w1.
  assert (Hdel : deleted = (Ok (bool_decide (is_Some (fs w !! path))),
                            with_fs (delete path (fs w)) w)).
  { subst deleted. unfold delete_checkpoint, bind, gets, modify, ret. fold path.
    destruct (fs w !! path) as [f|] eqn:Hf.
    - rewrite bool_decide_eq_true_2 by eauto. reflexivity.
    - rewrite bool_decide_eq_false_2 by (intros [? ?]; discriminate).
      rewrite delete_id by exact Hf. now destruct w. }
  assert (Hfs : fs w1 = delete path (fs w)) by (subst w1; rewrite Hdel; now destruct w).
  assert (Habsent : fs w1 !! path = None) by (rewrite Hfs; apply lookup_delete_eq).
  split; [now rewrite Hdel|]. split; [exact Hfs|]. split; [|split].
  - unfold load_checkpoint, bind, gets. fold manager path. now rewrite Habsent.
  - unfold delete_checkpoint, bind, gets. fold manager path. now rewrite Habsent.
  - now rewrite (resume_without_checkpoint rt self wid w1 Habsent).
Qed.

(** ** Theorems: a run served from the cache *)

Lemma _check_cache_hit (rt : Runtime) (self : DiscoveryWorkflow) (pdf_path : string)
    (doc : PDFDocument) (e : CacheEntry) (golden_map : json) (w : World) :
  enabled (cache (wf_config self)) = true ->
  pdf_documents rt !! pdf_path = Some doc ->
  rendered_pages doc <> [] ->
  cache_entries w !! md5_hash doc = Some e ->
  fs w !! sidecar_path (_sidecar_manager self) (md5_hash doc) = Some (Document golden_map) ->
  truthy golden_map = true ->
  _check_cache rt self pdf_path w
  = (Ok (Some (Cached golden_map (cache_id e))),
     with_progress_log (progress_log w ++ [(COMPLETE, 100%Q, "Loaded from cache")]) w).
Proof.
  intros Hen Hdoc Hpages Hentry Hmap Htruthy. unfold _check_cache. rewrite Hen. cbn [negb].
  assert (Hopen : open_pdf rt pdf_path w = (Ok doc, w)).
  { unfold open_pdf. rewrite Hdoc. destruct (rendered_pages doc); [congruence|reflexivity]. }
  rewrite (bind_of_ok _ _ _ _ _ Hopen).
  unfold get_entry. unfold bind at 1. unfold gets. rewrite Hentry.
  unfold retrieve_golden_map. unfold bind at 1. unfold bind at 1. unfold gets.
  rewrite Hmap. cbn. rewrite Htruthy. reflexivity.
Qed.

(** X20. A run over a document the cache knows is served from the cache:
    when the cache is enabled, the index has an entry for the hash of
    the document and the store holds a golden map for it that is not
    empty, [run] returns that map with the cache identifier of the
    entry; it calls the measurement service not once, writes no file
    (no checkpoint either), touches no field and no entry of the index,
    and reports one progress event, "Loaded from cache". *)
Theorem run_is_served_from_the_cache (rt : Runtime) (self : DiscoveryWorkflow)
    (pdf_path : string) (project_name : option string)
    (doc : PDFDocument) (e : CacheEntry) (golden_map : json) (w : World)
    (Henabled : enabled (cache (wf_config self)) = true)
    (Hdoc : pdf_documents rt !! pdf_path = Some doc)
    (Hpages : rendered_pages doc <> [])
    (Hentry : cache_entries w !! md5_hash doc = Some e)
    (Hmap : fs w !! sidecar_path (_sidecar_manager self) (md5_hash doc)
            = Some (Document golden_map))
    (Htruthy : truthy golden_map = true) :
  let ran := run rt self pdf_path project_name w in
  fst ran = Ok (Cached golden_map (cache_id e))
  /\ api_calls (snd ran) = api_calls w
  /\ fs (snd ran) = fs w
  /\ heap (snd ran) = heap w
  /\ cache_entries (snd ran) = cache_entries w
  /\ progress_log (snd ran) = progress_log w ++ [(COMPLETE, 100%Q, "Loaded from cache")].
Proof.
  intros ran. subst ran.
  unfold run, uuid4, new_StateManager, now, put_state_manager, modify, try_except, ret, bind.
  erewrite (_check_cache_hit rt self pdf_path doc e golden_map); try eassumption.
  destruct w. cbn. repeat split; reflexivity.
Qed.

Lemma run_is_served_from_the_cache_witness :
  let ran := run (example_runtime service_timeout) example_workflow "form.pdf" None
               cached_world in
  fst ran = Ok (Cached example_golden_map "cache_000000000000")
  /\ api_calls (snd ran) = api_calls cached_world
  /\ fs (snd ran) = fs cached_world
  /\ heap (snd ran) = heap cached_world
  /\ cache_entries (snd ran) = cache_entries cached_world
  /\ progress_log (snd ran)
     = progress_log cached_world ++ [(COMPLETE, 100%Q, "Loaded from cache")].
Proof.
  apply (run_is_served_from_the_cache (example_runtime service_timeout) example_workflow
           "form.pdf" None
           (mkPDFDocument "d41d8cd9" [("page-1", mkPageInfo 1 612 792)])
           (mkCacheEntry "cache_000000000000" "d41d8cd9" "form.pdf"
              "2024-01-01T00:00:00" "golden.json" 0 0)
           example_golden_map cached_world).
  - reflexivity.
  - vm_compute. reflexivity.
  - discriminate.
  - vm_compute. reflexivity.
  - vm_compute. reflexivity.
  - reflexivity.
Defined.

(** ** Theorems: a run that fails *)

(** X21. A run over a path at which there is no PDF raises
    [PDFLoadError], and not before it has recorded the failure: the
    state of the workflow is in phase [ERROR] and holds an error text,
    and a checkpoint of that state has been written under the
    identifier of the run.  The measurement service has not been
    called. *)
Theorem failed_run_leaves_a_checkpoint (rt : Runtime) (self : DiscoveryWorkflow)
    (pdf_path : string) (project_name : option string) (w : World)
    (Hmissing : pdf_documents rt !! pdf_path = None) :
  let ran := run rt self pdf_path project_name w in
  let wid := "wf_" +:+ uuid4_hex12 rt (uuid_calls w) in
  let failure := PDFLoadError pdf_path "File does not exist" in
  fst ran = Raise failure
  /\ api_calls (snd ran) = api_calls w
  /\ exists state,
       state_manager (snd ran) = Some (mkStateManager state None)
       /\ workflow_id state = wid
       /\ document_path state = pdf_path
       /\ current_phase state = ERROR
       /\ is_Some (error state)
       /\ fs (snd ran)
          = <[checkpoint_path (_checkpoint_folder (_checkpoint_manager self)) wid :=
                Document (fieldless_document rt state)]> (fs w).
Proof.
  intros ran wid failure. subst ran.
  unfold run, _check_cache, _phase_loading, open_pdf.
  rewrite Hmissing.
  destruct (enabled (cache (wf_config self))); cbn [negb];
    destruct w; cbn; (split; [reflexivity|]); (split; [reflexivity|]);
    eexists; repeat (split; [reflexivity || (eexists; reflexivity)|]); reflexivity.
Qed.

Lemma failed_run_leaves_a_checkpoint_witness :
  let rt := example_runtime service_timeout in
  let ran := run rt example_workflow "missing.pdf" None empty_world in
  let wid := "wf_" +:+ uuid4_hex12 rt (uuid_calls empty_world) in
  let failure := PDFLoadError "missing.pdf" "File does not exist" in
  fst ran = Raise failure
  /\ api_calls (snd ran) = api_calls empty_world
  /\ exists state,
       state_manager (snd ran) = Some (mkStateManager state None)
       /\ workflow_id state = wid
       /\ document_path state = "missing.pdf"
       /\ current_phase state = ERROR
       /\ is_Some (error state)
       /\ fs (snd ran)
          = <[checkpoint_path (_checkpoint_folder (_checkpoint_manager example_workflow)) wid :=
                Document (fieldless_document rt state)]> (fs empty_world).
Proof.
  apply (failed_run_leaves_a_checkpoint (example_runtime service_timeout) example_workflow
           "missing.pdf" None empty_world).
  reflexivity.
Defined.

(** ** Theorems: phase durations *)

Lemma phase_duration_in_app (q : WorkflowPhase) (history : list PhaseProgress)
    (r : PhaseProgress) :
  phase_duration_in q (history ++ [r])
  = match phase_duration_in q history with
    | Some d => Some d
    | None => phase_duration_in q [r]
    end.
Proof.
  induction history as [|p rest IH]; [cbn [app]; now destruct (phase_duration_in q [r])|].
  cbn [app phase_duration_in].
  destruct (WorkflowPhase_eqb (phase p) q), (completed_at p), (started_at p); auto.
Qed.

Lemma WorkflowPhase_eqb_refl (p : WorkflowPhase) : WorkflowPhase_eqb p p = true.
Proof. now destruct p. Qed.

(** X22. A phase that is started on an idle manager and then completed
    has a duration: the time from the clock reading taken at its start
    to the one taken at its completion, which is not negative when the
    clock does not run backwards.  But [get_phase_duration] reports the
    first completed run of a phase: if the history already holds one,
    its duration is returned, not that of the run just completed.  The
    durations of the other phases are as before. *)
Theorem completed_phase_reports_its_duration (rt : Runtime) (p : WorkflowPhase)
    (total_items : Z) (w : World) (sm : StateManager)
    (Hsm : state_manager w = Some sm)
    (Hidle : _current_progress sm = None) :
  let ran := (start_phase rt p total_items ;; complete_phase rt) w in
  let w' := snd ran in
  let started := now_at rt (clock w) in
  let completed := now_at rt (clock w + 2) in
  fst ran = Ok tt
  /\ get_phase_duration p w'
     = (Ok (Some (default (total_seconds completed started)
                    (phase_duration_in p (phase_history (_state sm))))), w')
  /\ (started <= completed -> (0 <= total_seconds completed started)%Q)
  /\ forall q, WorkflowPhase_eqb q p = false ->
       get_phase_duration q w'
       = (Ok (phase_duration_in q (phase_history (_state sm))), w').
Proof.
  intros ran w' started completed.
  assert (Hran : exists sm', ran = (Ok tt, with_state_manager (Some sm')
                                            (with_clock (clock w + 4) w))
            /\ phase_history (_state sm')
               = phase_history (_state sm)
                 ++ [mkPhaseProgress p (Some started) (Some completed) 100 total_items 0 None]).
  { subst ran started completed.
    unfold start_phase, complete_phase, touch, put_state_manager, the_state_manager, now,
      modify, ret, bind.
    rewrite Hsm, Hidle.
    replace (clock w + 4)%nat with (S (S (S (S (clock w))))) by lia.
    replace (clock w + 2)%nat with (S (S (clock w))) by lia.
    cbn. eexists. split; reflexivity. }
  destruct Hran as (sm' & Hran & Hhist).
  assert (Hget : forall q, get_phase_duration q w'
            = (Ok (phase_duration_in q (phase_history (_state sm'))), w')).
  { intros q. subst w'. rewrite Hran. unfold get_phase_duration, the_state_manager, bind, ret.
    destruct w; reflexivity. }
  split; [now rewrite Hran|]. split; [|split].
  - rewrite Hget, Hhist, phase_duration_in_app. cbn [phase_duration_in phase completed_at started_at].
    rewrite WorkflowPhase_eqb_refl.
    now destruct (phase_duration_in p (phase_history (_state sm))).
  - intros Hle. unfold total_seconds.
    apply Qle_shift_div_l; [reflexivity|]. rewrite Qmult_0_l. unfold Qle. cbn. lia.
  - intros q Hq. rewrite Hget, Hhist, phase_duration_in_app.
    cbn [phase_duration_in phase completed_at started_at].
    replace (WorkflowPhase_eqb p q) with false
      by (destruct p, q; cbn in *; congruence).
    now destruct (phase_duration_in q (phase_history (_state sm))).
Qed.

Lemma completed_phase_reports_its_duration_witness :
  let rt := example_runtime service_timeout in
  let ran := (start_phase rt OUTPUT 3 ;; complete_phase rt) idle_world in
  let w' := snd ran in
  let started := now_at rt (clock idle_world) in
  let completed := now_at rt (clock idle_world + 2) in
  fst ran = Ok tt
  /\ get_phase_duration OUTPUT w'
     = (Ok (Some (default (total_seconds completed started)
                    (phase_duration_in OUTPUT (phase_history fieldless_state)))), w')
  /\ (started <= completed -> (0 <= total_seconds completed started)%Q)
  /\ forall q, WorkflowPhase_eqb q OUTPUT = false ->
       get_phase_duration q w'
       = (Ok (phase_duration_in q (phase_history fieldless_state)), w').
Proof.
  apply (completed_phase_reports_its_duration (example_runtime service_timeout) OUTPUT 3
           idle_world (mkStateManager fieldless_state None)); reflexivity.
Defined.

(** In the example the output phase takes two ticks of the clock, while
    a second run of the loading phase still reports the first. *)
Example durations_of_example :
  let rt := example_runtime service_timeout in
  fst (get_phase_duration OUTPUT
         (snd ((start_phase rt OUTPUT 3 ;; complete_phase rt) idle_world)))
  = Ok (Some (total_seconds 2 0))
  /\ fst (get_phase_duration LOADING
            (snd ((start_phase rt LOADING 3 ;; complete_phase rt) idle_world)))
     = Ok (Some (total_seconds 0 0)).
Proof. vm_compute. split; reflexivity. Qed.

(** ** Theorems: metrics *)

Lemma fold_left_Qplus_bounds (xs : list Q) (acc : Q) :
  (forall x, x ∈ xs -> 0 <= x <= 1)%Q ->
  (acc <= fold_left Qplus xs acc
   /\ fold_left Qplus xs acc <= acc + inject_Z (Z.of_nat (length xs)))%Q.
Proof.
  revert acc. induction xs as [|x rest IH]; intros acc H; cbn [fold_left length].
  - change (inject_Z (Z.of_nat 0)) with 0%Q. split; lra.
  - destruct (H x) as [Hx0 Hx1]; [left|].
    destruct (IH (acc + x)%Q) as [IH1 IH2]; [intros y Hy; apply H; now right|].
    rewrite Nat2Z.inj_succ, <- Z.add_1_r, inject_Z_plus.
    change (inject_Z 1) with 1%Q. split; lra.
Qed.

(** X23. The average confidence of the metrics is a percentage: when
    every field has a confidence score between 0 and 1, it lies between
    0 and 100; for no fields at all it is 0, and no division takes
    place. *)
Theorem average_confidence_is_a_percentage (fields : list DetectedField)
    (Hscores : forall f, f ∈ fields -> (0 <= confidence_score f <= 1)%Q) :
  (0 <= _calculate_avg_confidence fields <= 100)%Q
  /\ (fields = [] -> _calculate_avg_confidence fields = 0%Q).
Proof.
  split; [|now intros ->].
  destruct (decide (fields = [])) as [->|Hne]; [cbn; split; lra|].
  assert (Hdef : _calculate_avg_confidence fields
                 = (py_sum (confidence_score <$> fields)
                    / inject_Z (Z.of_nat (length fields)) * 100)%Q)
    by now destruct fields.
  rewrite Hdef.
  assert (Hn : (0 < inject_Z (Z.of_nat (length fields)))%Q).
  { destruct fields; [done|]. cbn [length]. unfold Qlt. cbn. lia. }
  destruct (fold_left_Qplus_bounds (confidence_score <$> fields) 0) as [H0 H1].
  { intros x Hx. apply list_elem_of_fmap in Hx as (g & -> & Hg). now apply Hscores. }
  rewrite length_fmap in H1. fold (py_sum (confidence_score <$> fields)) in H0, H1.
  split.
  - apply Qmult_le_0_compat; [|lra].
    apply Qle_shift_div_l; [exact Hn|]. lra.
  - apply Qle_trans with (1 * 100)%Q; [|lra].
    apply Qmult_le_compat_r; [|lra].
    apply Qle_shift_div_r; [exact Hn|]. lra.
Qed.

Lemma average_confidence_is_a_percentage_witness :
  (0 <= _calculate_avg_confidence [field_at "field_a" 1 0 0; field_at "field_b" 1 0 50]
   <= 100)%Q
  /\ ([field_at "field_a" 1 0 0; field_at "field_b" 1 0 50] = [] ->
      _calculate_avg_confidence [field_at "field_a" 1 0 0; field_at "field_b" 1 0 50] = 0%Q).
Proof.
  apply (average_confidence_is_a_percentage
           [field_at "field_a" 1 0 0; field_at "field_b" 1 0 50]).
  intros f Hf. repeat (apply elem_of_cons in Hf as [->|Hf]; [cbn; lra|]).
  now apply elem_of_nil in Hf.
Defined.
